(** * Atlas composition of the MSDF font generator

    A shallow embedding of the atlas composition logic of
    lightning-js/msdf-generator:

    - [src/genFont.ts]: [calculateOptimalLayout], [updateCharacterCoordinates],
      [stitchTextures], [generateFont] and [genFont];
    - [src/adjustFont.ts]: [adjustSingleFont] and [adjustFontFamily];
    - [src/index.ts]: the mode selection of [generateFonts];
    - the family variant of [genFont.ts]: [getFontInfo], [genFontsByFamily]
      and [generateFontFamily].

    JavaScript numbers that hold pixel coordinates, page indices and font
    metrics are integers in every document the rasterizer emits; they are
    modelled as [Z].  The glyph offsets and advances and the line metrics of
    a document are fractional (the rasterizer rounds them to six decimals):
    they are binary64 numbers, modelled as [float], and arithmetic on them is
    the IEEE arithmetic of [PrimFloat].  Operators that coerce ([||], [>>])
    are written out. *)

From Stdlib Require Import ZArith Lia List String Ascii OrdersEx PrimFloat.
From stdpp Require Import gmap strings list fin_maps pretty sorting.

Open Scope string_scope.
Open Scope Z_scope.

#[local] Set Warnings "-inexact-float".

(** ** JavaScript operators *)

(** [v || dflt] on a number: [0] is falsy and selects the default. *)
Definition js_or (v dflt : Z) : Z := if v =? 0 then dflt else v.

(** [arr[i]] for a number [i]: [undefined] outside [0 .. length-1]. *)
Definition js_index {A : Type} (arr : list A) (i : Z) : option A :=
  if i <? 0 then None else arr !! Z.to_nat i.

(** [ToInt32] of an integral number: reduction modulo 2^32 into the signed
    range. *)
Definition ToInt32 (v : Z) : Z := (v + 2 ^ 31) mod 2 ^ 32 - 2 ^ 31.

(** [v >> k], the sign-propagating shift on the 32-bit value of [v]. *)
Definition js_shr (v k : Z) : Z := Z.shiftr (ToInt32 v) (k mod 32).

(** An integer as a binary64 number; exact for magnitudes below 2^53, so for
    every 32-bit value. *)
Fixpoint float_of_pos (p : positive) : float :=
  match p with
  | xH => 1%float
  | xO q => (2 * float_of_pos q)%float
  | xI q => (2 * float_of_pos q + 1)%float
  end.

Definition toNumber (z : Z) : float :=
  match z with
  | Z0 => 0%float
  | Zpos p => float_of_pos p
  | Zneg p => (- float_of_pos p)%float
  end.

(** Truthiness of a number: [0], [-0] and [NaN] are falsy. *)
Definition js_truthy (v : float) : bool := negb (PrimFloat.eqb v 0 || is_nan v).

(** ** Console output *)

Inductive LogLevel := LogInfo | LogWarn | LogError.

Definition LogEntry : Type := LogLevel * string.

(** A computation that writes to the console: its value and the entries it
    printed, oldest first. *)
Definition Console (A : Type) : Type := A * list LogEntry.

Definition ret {A : Type} (a : A) : Console A := (a, []).

Definition bind {A B : Type} (m : Console A) (k : A -> Console B) : Console B :=
  let (b, out) := k (fst m) in (b, (snd m ++ out)%list).

Definition console_log (msg : string) : Console unit := (tt, [(LogInfo, msg)]).
Definition console_warn (msg : string) : Console unit := (tt, [(LogWarn, msg)]).

Notation "'let*' x ':=' m 'in' k" := (bind m (fun x => k))
  (at level 10, x name, m at level 100, k at level 200).
Notation "'run' m 'in' k" := (bind m (fun _ => k))
  (at level 10, m at level 100, k at level 200).

(** [arr.map(f)] for a callback that may print. *)
Fixpoint console_map {A B : Type} (f : A -> Console B) (l : list A) : Console (list B) :=
  match l with
  | [] => ret []
  | a :: l' => let* b := f a in let* bs := console_map f l' in ret (b :: bs)
  end.

(** ** Data model (genFont.ts) *)

(** An element of the [textures] argument: [{ width, height }]. *)
Record TextureSize := mkTextureSize { tex_width : Z; tex_height : Z }.

(** An element of [TextureLayout.positions]. *)
Record Position := mkPosition {
  pos_x : Z; pos_y : Z; pos_width : Z; pos_height : Z }.

(** [interface TextureLayout]. *)
Record TextureLayout := mkTextureLayout {
  lay_width : Z;
  lay_height : Z;
  lay_positions : list Position }.

(** An element of [fontData.chars] (BMFont glyph record). *)
Record Char := mkChar {
  char_id : Z;
  char_index : Z;
  char_char : string;
  char_width : Z;
  char_height : Z;
  char_xoffset : float;
  char_yoffset : float;
  char_xadvance : float;
  char_chnl : Z;
  char_x : Z;
  char_y : Z;
  char_page : Z }.

(** [fontData.common]. *)
Record Common := mkCommon {
  common_lineHeight : float;
  common_base : float;
  common_scaleW : Z;
  common_scaleH : Z;
  common_pages : Z;
  common_packed : Z }.

(** Typographic metrics stored under [lightningMetrics]. *)
Record FontMetrics := mkFontMetrics {
  ascender : Z; descender : Z; lineGap : Z; unitsPerEm : Z }.

(** An element of the [styles] index of a family document. *)
Record StyleJson := mkStyleJson {
  sj_style : string; sj_pageIndex : Z; sj_pageCount : Z; sj_pageRange : string }.

(** [fontData.distanceField]. *)
Record DistanceField := mkDistanceField {
  df_fieldType : string; df_distanceRange : Z }.

(** The metadata document written by the rasterizer.  [fd_distanceField] is
    [None] when the document has no [distanceField] entry;
    [fd_lightningMetrics] and [fd_styles] are absent until added.  The
    glyph list and the [common] block are part of every document the
    rasterizer writes; a document without them is outside this type. *)
Record FontData := mkFontData {
  fd_pages : list string;
  fd_chars : list Char;
  fd_face : string;
  fd_common : Common;
  fd_distanceField : option DistanceField;
  fd_kernings : list (Z * Z * Z);
  fd_lightningMetrics : option FontMetrics;
  fd_styles : option (list StyleJson) }.

(** ** Layout planner: [calculateOptimalLayout] *)

Definition PADDING : Z := 2.

Definition calculateOptimalLayout (textures : list TextureSize) : TextureLayout :=
  match textures with
  | [t0] =>
      {| lay_width := js_or (tex_width t0) 512;
         lay_height := js_or (tex_height t0) 512;
         lay_positions :=
           [ {| pos_x := 0; pos_y := 0;
                pos_width := js_or (tex_width t0) 512;
                pos_height := js_or (tex_height t0) 512 |} ] |}
  | _ =>
      let textureWidth := 256 in
      let textureHeight := 256 in
      let n := Z.of_nat (length textures) in
      let totalWidth := n * textureWidth + (n - 1) * PADDING in
      let positions :=
        imap (fun index _ =>
                {| pos_x := Z.of_nat index * (textureWidth + PADDING);
                   pos_y := 0;
                   pos_width := textureWidth;
                   pos_height := textureHeight |}) textures in
      {| lay_width := totalWidth;
         lay_height := textureHeight;
         lay_positions := positions |}
  end.

(** ** Glyph coordinate remapper: [updateCharacterCoordinates] *)

(** The callback of [fontData.chars.map]. *)
Definition updateChar (layout : TextureLayout) (char : Char) : Console Char :=
  match js_index (lay_positions layout) (char_page char) with
  | None =>
      run console_warn ("No position found for page " ++ pretty (char_page char)
                        ++ ", using original coordinates") in
      ret (mkChar (char_id char) (char_index char) (char_char char)
             (char_width char) (char_height char) (char_xoffset char)
             (char_yoffset char) (char_xadvance char) (char_chnl char)
             (char_x char) (char_y char) 0)
  | Some pagePosition =>
      ret (mkChar (char_id char) (char_index char) (char_char char)
             (char_width char) (char_height char) (char_xoffset char)
             (char_yoffset char) (char_xadvance char) (char_chnl char)
             (char_x char + pos_x pagePosition)
             (char_y char + pos_y pagePosition) 0)
  end.

Definition updateCharacterCoordinates (fontData : FontData) (layout : TextureLayout)
  : Console FontData :=
  let* chars := console_map (updateChar layout) (fd_chars fontData) in
  let common := fd_common fontData in
  ret (mkFontData (fd_pages fontData) chars (fd_face fontData)
         (mkCommon (common_lineHeight common) (common_base common)
            (lay_width layout) (lay_height layout)
            (common_pages common) (common_packed common))
         (fd_distanceField fontData) (fd_kernings fontData)
         (fd_lightningMetrics fontData) (fd_styles fontData)).

(** The metadata part of [stitchTextures]: [images] are the dimensions of the
    loaded page images, [fontData] the parsed document.  Returns the layout
    the canvas is created with and [updatedFontData]. *)
Definition stitchTextures (images : list TextureSize) (fontData : FontData)
    (fontName fieldType : string) : Console (TextureLayout * FontData) :=
  run console_log ("Stitching " ++ pretty (Z.of_nat (length images))
                   ++ " texture pages into single atlas...") in
  let layout :=
    calculateOptimalLayout
      (map (fun img => mkTextureSize (tex_width img) (tex_height img)) images) in
  let* updatedFontData := updateCharacterCoordinates fontData layout in
  let common := fd_common updatedFontData in
  ret (layout,
       mkFontData [fontName ++ "." ++ fieldType ++ ".png"]
         (fd_chars updatedFontData) (fd_face updatedFontData)
         (mkCommon (common_lineHeight common) (common_base common)
            (common_scaleW common) (common_scaleH common)
            1 (common_packed common))
         (fd_distanceField updatedFontData) (fd_kernings updatedFontData)
         (fd_lightningMetrics updatedFontData) (fd_styles updatedFontData)).

(** ** Geometry predicates used by the statements *)

(** The pixel rectangle of a glyph lies inside a [w] x [h] image. *)
Definition rect_within (w h : Z) (c : Char) : Prop :=
  0 <= char_x c /\ 0 <= char_y c /\
  char_x c + char_width c <= w /\ char_y c + char_height c <= h.

(** A placement lies inside the canvas of its layout. *)
Definition position_in_canvas (layout : TextureLayout) (p : Position) : Prop :=
  0 <= pos_x p /\ 0 <= pos_y p /\
  pos_x p + pos_width p <= lay_width layout /\
  pos_y p + pos_height p <= lay_height layout.

(** [p] ends where [q] begins or earlier (left-to-right, disjoint). *)
Definition left_of (p q : Position) : Prop := pos_x p + pos_width p <= pos_x q.

(** The value part of [updateChar], as a record update. *)
Definition remapped (c : Char) (dx dy : Z) : Char :=
  mkChar (char_id c) (char_index c) (char_char c) (char_width c) (char_height c)
    (char_xoffset c) (char_yoffset c) (char_xadvance c) (char_chnl c)
    (char_x c + dx) (char_y c + dy) 0.

(** The glyph with only its page forced to 0. *)
Definition on_page_zero (c : Char) : Char :=
  mkChar (char_id c) (char_index c) (char_char c) (char_width c) (char_height c)
    (char_xoffset c) (char_yoffset c) (char_xadvance c) (char_chnl c)
    (char_x c) (char_y c) 0.

Definition missing_page_warning (c : Char) : LogEntry :=
  (LogWarn, "No position found for page " ++ pretty (char_page c)
            ++ ", using original coordinates").

(** ** Files *)

(** A font file as [opentype.load] reads it: the name table entries and the
    OS/2 metrics the generator uses. *)
Record OpenTypeFont := mkOpenTypeFont {
  names_fontFamily : option string;
  names_fontSubfamily : option string;
  names_fullName : option string;
  os2_sTypoAscender : Z;
  os2_sTypoDescender : Z;
  os2_sTypoLineGap : Z;
  font_unitsPerEm : Z }.

(** The contents of a file, already decoded. *)
Inductive File :=
| PngFile (texture : list Byte.byte)
| FontJson (json : FontData)
| MetricsJson (metrics : FontMetrics)
| FontFile (font : OpenTypeFont).

(** The file system: path to contents. *)
Abbreviation FS := (gmap string File).

(** [path.join(dir, name)] and [path.resolve(dir, name)] for a normalised
    [dir] and a plain file name. *)
Definition path_join (dir name : string) : string := dir ++ "/" ++ name.

Fixpoint basename_from (acc s : string) : string :=
  match s with
  | EmptyString => acc
  | String c rest =>
      if Ascii.eqb c "/" then basename_from "" rest
      else basename_from (acc ++ String c "") rest
  end.

(** [path.basename(p)]. *)
Definition basename (p : string) : string := basename_from "" p.

Definition existsSync (fs : FS) (p : string) : bool := bool_decide (is_Some (fs !! p)).

(** [JSON.parse(fs.readFileSync(p))] of a metadata document; throws when the
    file is missing. *)
Definition readFontJson (fs : FS) (p : string) : option FontData :=
  match fs !! p with
  | Some (FontJson json) => Some json
  | _ => None
  end.

(** [opentype.load(p)]. *)
Definition opentype_load (fs : FS) (p : string) : option OpenTypeFont :=
  match fs !! p with
  | Some (FontFile font) => Some font
  | _ => None
  end.

(** [fs.copyFileSync(src, dst)]; throws when [src] is missing. *)
Definition copyFileSync (fs : FS) (src dst : string) : option FS :=
  f ← fs !! src; Some (<[dst := f]> fs).

(** [fs.unlinkSync(p)]; throws when [p] is missing. *)
Definition unlinkSync (fs : FS) (p : string) : option FS :=
  _ ← fs !! p; Some (delete p fs).

Definition startsWith (s pre : string) : bool := String.prefix pre s.
Definition endsWith (s suf : string) : bool :=
  String.prefix (String.rev suf) (String.rev s).

(** The part of [p] after [pre], when [p] starts with [pre]. *)
Definition strip_prefix (pre p : string) : option string :=
  if startsWith p pre
  then Some (substring (String.length pre) (String.length p - String.length pre) p)
  else None.

Fixpoint has_slash (s : string) : bool :=
  match s with
  | EmptyString => false
  | String c rest => Ascii.eqb c "/" || has_slash rest
  end.

(** [fs.readdirSync(dir)]: the names of the entries directly in [dir]. *)
Definition readdirSync (fs : FS) (dir : string) : list string :=
  omap (fun p =>
          name ← strip_prefix (dir ++ "/") p;
          if has_slash name then None else Some name)
       (map fst (map_to_list fs)).

(** The files an adjuster writes, in the order of its write calls. *)
Definition Writes : Type := list (string * File).

Definition commit (writes : Writes) (fs : FS) : FS :=
  foldl (fun acc w => <[fst w := snd w]> acc) fs writes.

(** ** Metrics adjuster (adjustFont.ts) *)

Inductive FieldType := ssdf | msdf.

Definition fieldType_str (t : FieldType) : string :=
  match t with ssdf => "ssdf" | msdf => "msdf" end.

(** [interface SdfFontInfo], the fields the adjuster reads. *)
Record SdfFontInfo := mkSdfFontInfo {
  sfi_fontName : string;
  sfi_fieldType : FieldType;
  sfi_fontPath : string;
  sfi_jsonPath : string;
  sfi_pngPath : string;
  sfi_dstDir : string }.

(** An element of [FontFamilyInfo.styles]. *)
Record StyleInfo := mkStyleInfo {
  si_fontStyle : string;
  si_fontPath : string;
  si_pageIndex : Z;
  si_pageCount : option Z }.

(** [interface FontFamilyInfo]. *)
Record FontFamilyInfo := mkFontFamilyInfo {
  ffi_fontFamily : string;
  ffi_fieldType : FieldType;
  ffi_styles : list StyleInfo;
  ffi_jsonPath : string;
  ffi_pngPaths : list string;
  ffi_dstDir : string }.

Definition metricsSubDir : string := "metrics".

(** The metrics object built from a loaded font. *)
Definition metricsOf (font : OpenTypeFont) : FontMetrics :=
  {| ascender := os2_sTypoAscender font;
     descender := os2_sTypoDescender font;
     lineGap := os2_sTypoLineGap font;
     unitsPerEm := font_unitsPerEm font |}.

(** [char.yoffset = char.yoffset - pad - pad]: two subtractions, each
    rounded. *)
Definition adjustChar (pad : Z) (char : Char) : Char :=
  mkChar (char_id char) (char_index char) (char_char char)
    (char_width char) (char_height char) (char_xoffset char)
    (char_yoffset char - toNumber pad - toNumber pad)%float
    (char_xadvance char) (char_chnl char)
    (char_x char) (char_y char) (char_page char).

Definition withBase (common : Common) (base : float) : Common :=
  mkCommon (common_lineHeight common) base (common_scaleW common)
    (common_scaleH common) (common_pages common) (common_packed common).

(** The in-memory part of [adjustSingleFont]: from the parsed [json] to the
    object that is written back.  Reading [json.distanceField.distanceRange]
    throws when the document has no [distanceField]. *)
Definition adjustSingleFontData (json : FontData) (font : OpenTypeFont)
  : option FontData :=
  distanceField ← df_distanceRange <$> fd_distanceField json;
  let pad := js_shr distanceField 1 in
  let common :=
    withBase (fd_common json) (common_base (fd_common json) - toNumber pad)%float in
  let chars := map (adjustChar pad) (fd_chars json) in
  let fontMetrics := metricsOf font in
  Some (mkFontData (fd_pages json) chars (fd_face json) common
          (fd_distanceField json) (fd_kernings json)
          (Some fontMetrics) (fd_styles json)).

(** [adjustSingleFont].  Of the two concurrent writes the document write is
    issued first: the metrics write waits for [ensureDir]. *)
Definition adjustSingleFont (fontInfo : SdfFontInfo) (fs : FS) : option Writes :=
  json ← readFontJson fs (sfi_jsonPath fontInfo);
  font ← opentype_load fs (sfi_fontPath fontInfo);
  json' ← adjustSingleFontData json font;
  let fontMetrics := metricsOf font in
  let metricsDir := path_join (sfi_dstDir fontInfo) metricsSubDir in
  let metricsFilePath :=
    path_join metricsDir (sfi_fontName fontInfo ++ ".metrics.json") in
  Some [ (sfi_jsonPath fontInfo, FontJson json');
         (metricsFilePath, MetricsJson fontMetrics) ].

(** The comparison inside [allStyleMetrics.every]. *)
Definition metricsIdentical (item firstMetrics : FontMetrics) : bool :=
  (ascender item =? ascender firstMetrics) &&
  (descender item =? descender firstMetrics) &&
  (lineGap item =? lineGap firstMetrics) &&
  (unitsPerEm item =? unitsPerEm firstMetrics).

(** The in-memory part of [adjustFontFamily]: bias correction of the family
    document with the reference font's metrics attached. *)
Definition adjustFontFamilyData (json : FontData) (font : OpenTypeFont) : FontData :=
  let distanceField :=
    match fd_distanceField json with
    | Some df => if df_distanceRange df =? 0 then 4 else df_distanceRange df
    | None => 4
    end in
  let pad := js_shr distanceField 1 in
  let common :=
    if js_truthy (common_base (fd_common json))
    then withBase (fd_common json) (common_base (fd_common json) - toNumber pad)%float
    else fd_common json in
  let chars := map (adjustChar pad) (fd_chars json) in
  mkFontData (fd_pages json) chars (fd_face json) common
    (fd_distanceField json) (fd_kernings json)
    (Some (metricsOf font)) (fd_styles json).

Definition adjustFontFamily (fontInfo : FontFamilyInfo) (fs : FS) : option Writes :=
  json ← readFontJson fs (ffi_jsonPath fontInfo);
  match ffi_styles fontInfo with
  | [] => Some []
  | firstStyle :: _ =>
      font ← opentype_load fs (si_fontPath firstStyle);
      let json' := adjustFontFamilyData json font in
      let metricsDir := path_join (ffi_dstDir fontInfo) metricsSubDir in
      allStyleMetrics ←
        mapM (fun style =>
                styleFont ← opentype_load fs (si_fontPath style);
                Some (si_fontStyle style, metricsOf styleFont))
             (ffi_styles fontInfo);
      let firstMetrics := snd <$> head allStyleMetrics in
      let allMetricsIdentical :=
        forallb (fun item =>
                   match firstMetrics with
                   | Some m => metricsIdentical (snd item) m
                   | None => false
                   end) allStyleMetrics in
      let metricsWrites :=
        match firstMetrics with
        | Some m =>
            if allMetricsIdentical
            then [ (path_join metricsDir (ffi_fontFamily fontInfo ++ ".metrics.json"),
                    MetricsJson m) ]
            else map (fun item =>
                        (path_join metricsDir
                           (ffi_fontFamily fontInfo ++ "-" ++ fst item ++ ".metrics.json"),
                         MetricsJson (snd item))) allStyleMetrics
        | None => []
        end in
      Some (metricsWrites ++ [ (ffi_jsonPath fontInfo, FontJson json') ])%list
  end.

(** ** Family aggregator (family variant of genFont.ts) *)

(** An element of the per-family font list: [{ path, style, fileName }]. *)
Record FontEntry := mkFontEntry {
  fe_path : string; fe_style : string; fe_fileName : string }.

Definition lower_ascii (c : ascii) : ascii :=
  let n := nat_of_ascii c in
  if ((65 <=? n) && (n <=? 90))%nat then ascii_of_nat (n + 32) else c.

(** [s.toLowerCase()] on the ASCII letters, which is all that matters for a
    comparison with ['regular']. *)
Fixpoint toLowerCase (s : string) : string :=
  match s with
  | EmptyString => EmptyString
  | String c rest => String (lower_ascii c) (toLowerCase rest)
  end.

Definition isRegular (style : string) : bool :=
  String.eqb (toLowerCase style) "regular".

(** The comparator passed to [fonts.sort] in [genFontsByFamily];
    [localeCompare] is the runtime's collation. *)
Definition compareFonts (localeCompare : string -> string -> Z) (a b : FontEntry) : Z :=
  if isRegular (fe_style a) then -1
  else if isRegular (fe_style b) then 1
  else localeCompare (fe_style a) (fe_style b).

(** [Array.prototype.sort(cmp)] as a stable insertion sort: each element is
    placed before the first element it compares below. *)
Fixpoint sort_insert {A : Type} (cmp : A -> A -> Z) (x : A) (sorted : list A) : list A :=
  match sorted with
  | [] => [x]
  | y :: rest => if cmp x y <? 0 then x :: sorted else y :: sort_insert cmp x rest
  end.

Definition array_sort {A : Type} (cmp : A -> A -> Z) (arr : list A) : list A :=
  fold_left (fun sorted x => sort_insert cmp x sorted) arr [].

(** [sortedFonts] of [genFontsByFamily]. *)
Definition sortFonts (localeCompare : string -> string -> Z) (fonts : list FontEntry)
  : list FontEntry :=
  array_sort (compareFonts localeCompare) fonts.

(** The default comparator of [sort()]: by code units. *)
Definition compareStrings (a b : string) : Z :=
  match String.compare a b with Lt => -1 | Eq => 0 | Gt => 1 end.

(** The rasterizer [generateBMFont] for the options of one family: from the
    font path to the texture buffers and the metadata document, or an error. *)
Definition Rasterizer : Type := string -> option (list (list Byte.byte) * FontData).

(** [generateFont] of the family variant: writes the textures and the
    document, resolves with [pngPaths]. *)
Definition generateFont (generateBMFont : Rasterizer) (fs : FS)
    (fontSrcPath fontDestPath fontName fieldType : string) : option (FS * list string) :=
  '(textures, data) ← generateBMFont fontSrcPath;
  let written :=
    imap (fun index texture =>
            let textureFileName :=
              if (1 <? length textures)%nat
              then fontName ++ "." ++ fieldType ++ "_" ++ pretty (Z.of_nat index) ++ ".png"
              else fontName ++ "." ++ fieldType ++ ".png" in
            (path_join fontDestPath textureFileName, PngFile texture)) textures in
  let fs1 := commit written fs in
  let fs2 :=
    <[path_join fontDestPath (fontName ++ "." ++ fieldType ++ ".json") := FontJson data]> fs1 in
  Some (fs2, map fst written).

(** The variables of [generateFontFamily] that its loops update. *)
Record FamilyState := mkFamilyState {
  st_fs : FS;
  st_styleInfos : list StyleInfo;
  st_individualPngPaths : list string;
  st_combinedJsonData : option FontData;
  st_familyPngPaths : list string;
  st_globalPageIndex : Z }.

(** First loop: one rasterization per style, starting at index [i]. *)
Fixpoint generateStyles (generateBMFont : Rasterizer)
    (fontDstDir familyName fieldType : string)
    (i : nat) (fonts : list FontEntry) (st : FamilyState) : option FamilyState :=
  match fonts with
  | [] => Some st
  | font :: rest =>
      '(fs1, pngPaths) ←
        generateFont generateBMFont (st_fs st) (fe_path font) fontDstDir
          (familyName ++ "-" ++ fe_style font) fieldType;
      let styleInfos :=
        (st_styleInfos st ++
         [mkStyleInfo (fe_style font) (fe_path font) (Z.of_nat i) None])%list in
      let combinedJsonData :=
        if (i =? 0)%nat then
          let jsonPath :=
            path_join fontDstDir
              (familyName ++ "-" ++ fe_style font ++ "." ++ fieldType ++ ".json") in
          if existsSync fs1 jsonPath then readFontJson fs1 jsonPath
          else st_combinedJsonData st
        else st_combinedJsonData st in
      generateStyles generateBMFont fontDstDir familyName fieldType (S i) rest
        (mkFamilyState fs1 styleInfos
           (st_individualPngPaths st ++ pngPaths)%list combinedJsonData
           (st_familyPngPaths st) (st_globalPageIndex st))
  end.

(** Copy of one source image to the next family page. *)
Definition copyToFamilyPage (fontDstDir familyName fieldType : string)
    (src : string) (st : FamilyState) : option FamilyState :=
  let familyPagePath :=
    path_join fontDstDir
      (familyName ++ "." ++ fieldType ++ "_" ++ pretty (st_globalPageIndex st) ++ ".png") in
  fs1 ← copyFileSync (st_fs st) src familyPagePath;
  Some (mkFamilyState fs1 (st_styleInfos st) (st_individualPngPaths st)
          (st_combinedJsonData st)
          (st_familyPngPaths st ++ [familyPagePath])%list
          (st_globalPageIndex st + 1)).

(** The inner loop over [paginatedFiles]. *)
Fixpoint copyPaginated (fontDstDir familyName fieldType : string)
    (paginatedFiles : list string) (st : FamilyState) : option FamilyState :=
  match paginatedFiles with
  | [] => Some st
  | paginatedFile :: rest =>
      st1 ← copyToFamilyPage fontDstDir familyName fieldType
              (path_join fontDstDir paginatedFile) st;
      copyPaginated fontDstDir familyName fieldType rest st1
  end.

(** The clean-up loop over the directory listing. *)
Fixpoint unlinkPaginated (fontDstDir individualBaseName : string)
    (files : list string) (fs : FS) : option FS :=
  match files with
  | [] => Some fs
  | file :: rest =>
      if startsWith file (individualBaseName ++ "_") && endsWith file ".png"
      then fs1 ← unlinkSync fs (path_join fontDstDir file);
           unlinkPaginated fontDstDir individualBaseName rest fs1
      else unlinkPaginated fontDstDir individualBaseName rest fs
  end.

Definition unlinkIfExists (fs : FS) (p : string) : option FS :=
  if existsSync fs p then unlinkSync fs p else Some fs.

(** The body of the second loop for the style at index [i]. *)
Definition relabelStyle (fontDstDir familyName fieldType : string)
    (i : nat) (font : FontEntry) (st : FamilyState) : option FamilyState :=
  let individualBaseName := familyName ++ "-" ++ fe_style font ++ "." ++ fieldType in
  let files := readdirSync (st_fs st) fontDstDir in
  let paginatedFiles :=
    array_sort compareStrings
      (List.filter (fun file =>
                      startsWith file (individualBaseName ++ "_") && endsWith file ".png")
         files) in
  let startPageIndex := st_globalPageIndex st in
  let stylePagesCount :=
    if (0 <? length paginatedFiles)%nat then Z.of_nat (length paginatedFiles) else 1 in
  let individualPath := path_join fontDstDir (individualBaseName ++ ".png") in
  st1 ← (if (0 <? length paginatedFiles)%nat
         then copyPaginated fontDstDir familyName fieldType paginatedFiles st
         else if existsSync (st_fs st) individualPath
              then copyToFamilyPage fontDstDir familyName fieldType individualPath st
              else Some st);
  let styleInfos :=
    <[i := mkStyleInfo (fe_style font) (fe_path font) startPageIndex (Some stylePagesCount)]>
      (st_styleInfos st1) in
  fs2 ← unlinkIfExists (st_fs st1) individualPath;
  fs3 ← unlinkPaginated fontDstDir individualBaseName files fs2;
  fs4 ← unlinkIfExists fs3 (path_join fontDstDir (individualBaseName ++ ".json"));
  Some (mkFamilyState fs4 styleInfos (st_individualPngPaths st1)
          (st_combinedJsonData st1) (st_familyPngPaths st1) (st_globalPageIndex st1)).

(** Second loop: family page numbering, starting at index [i]. *)
Fixpoint relabelStyles (fontDstDir familyName fieldType : string)
    (i : nat) (fonts : list FontEntry) (st : FamilyState) : option FamilyState :=
  match fonts with
  | [] => Some st
  | font :: rest =>
      st1 ← relabelStyle fontDstDir familyName fieldType i font st;
      relabelStyles fontDstDir familyName fieldType (S i) rest st1
  end.

(** The callback of [styleInfos.map] that builds the [styles] index. *)
Definition styleJson (style : StyleInfo) : StyleJson :=
  {| sj_style := si_fontStyle style;
     sj_pageIndex := si_pageIndex style;
     sj_pageCount :=
       match si_pageCount style with Some c => js_or c 1 | None => 1 end;
     sj_pageRange :=
       match si_pageCount style with
       | Some c =>
           if 1 <? c
           then pretty (si_pageIndex style) ++ "-"
                ++ pretty (si_pageIndex style + c - 1)
           else pretty (si_pageIndex style)
       | None => pretty (si_pageIndex style)
       end |}.

(** [generateFontFamily]: [None] is a rejected promise, [Some (fs, None)] the
    [null] result. *)
Definition generateFontFamily (generateBMFont : Rasterizer) (fontDstDir : string)
    (familyName : string) (fonts : list FontEntry) (fieldType : FieldType) (fs : FS)
  : option (FS * option FontFamilyInfo) :=
  match fonts with
  | [] => Some (fs, None)
  | _ =>
      let ft := fieldType_str fieldType in
      st1 ← generateStyles generateBMFont fontDstDir familyName ft 0 fonts
              (mkFamilyState fs [] [] None [] 0);
      st2 ← relabelStyles fontDstDir familyName ft 0 fonts st1;
      match st_combinedJsonData st2 with
      | Some combinedJsonData =>
          let familyJsonPath := path_join fontDstDir (familyName ++ "." ++ ft ++ ".json") in
          let json :=
            mkFontData (map basename (st_familyPngPaths st2))
              (fd_chars combinedJsonData) familyName (fd_common combinedJsonData)
              (fd_distanceField combinedJsonData) (fd_kernings combinedJsonData)
              (fd_lightningMetrics combinedJsonData)
              (Some (map styleJson (st_styleInfos st2))) in
          Some (<[familyJsonPath := FontJson json]> (st_fs st2),
                Some (mkFontFamilyInfo familyName fieldType (st_styleInfos st2)
                        familyJsonPath (st_familyPngPaths st2) fontDstDir))
      | None => Some (st_fs st2, None)
      end
  end.

(** ** Properties of a family descriptor *)

(** Page ranges of consecutive styles: the first starts at [start], each
    next one where the previous one ends. *)
Fixpoint contiguous_from (start : Z) (styles : list StyleInfo) : Prop :=
  match styles with
  | [] => True
  | s :: rest =>
      si_pageIndex s = start /\
      exists c, si_pageCount s = Some c /\ contiguous_from (start + c) rest
  end.

(** The pages [pageIndex .. pageIndex + pageCount - 1] of two styles meet. *)
Definition ranges_overlap (s t : StyleInfo) : Prop :=
  exists c d p, si_pageCount s = Some c /\ si_pageCount t = Some d /\
    si_pageIndex s <= p < si_pageIndex s + c /\
    si_pageIndex t <= p < si_pageIndex t + d.

(** ** Scenarios used as concrete instances *)

Definition page256 : TextureSize := mkTextureSize 256 256.
Definition page512 : TextureSize := mkTextureSize 512 512.

(** Sum of the page widths. *)
Definition sum_widths (textures : list TextureSize) : Z :=
  foldr Z.add 0 (map tex_width textures).

(** A glyph of 20 x 24 pixels at [(x, y)] on [page]. *)
Definition glyphAt (page x y : Z) : Char :=
  mkChar 65 0 "A" 20 24 1 10 22 15 x y page.

(** A two-page document as the rasterizer writes it. *)
Definition twoPageDoc : FontData :=
  mkFontData ["Ubuntu-Regular.msdf.0.png"; "Ubuntu-Regular.msdf.1.png"]
    [glyphAt 0 5 7; glyphAt 1 10 10; glyphAt 7 3 4]
    "Ubuntu" (mkCommon 50 40 256 256 2 0)
    (Some (mkDistanceField "msdf" 4)) [] None None.

(** A plan that stacks two 256 x 256 pages vertically, with the gutter
    between them. *)
Definition stackedPlan : TextureLayout :=
  mkTextureLayout 256 514 [mkPosition 0 0 256 256; mkPosition 0 258 256 256].

(** The glyph with its vertical offset replaced. *)
Definition with_yoffset (c : Char) (yoffset : float) : Char :=
  mkChar (char_id c) (char_index c) (char_char c) (char_width c) (char_height c)
    (char_xoffset c) yoffset (char_xadvance c) (char_chnl c)
    (char_x c) (char_y c) (char_page c).

(** A document with baseline [base] and distance range [range], holding one
    glyph of vertical offset 10. *)
Definition baselineDoc (base : float) (range : Z) : FontData :=
  mkFontData ["Ubuntu-Regular.msdf.png"] [glyphAt 0 5 7]
    "Ubuntu" (mkCommon 50 base 512 512 1 0)
    (Some (mkDistanceField "msdf" range)) [] None None.

(** A document whose only glyph has the fractional vertical offset
    -0.999996, with distance range 4. *)
Definition fractionalDoc : FontData :=
  mkFontData ["Ubuntu-Regular.msdf.png"] [with_yoffset (glyphAt 0 5 7) (-0.999996)]
    "Ubuntu" (mkCommon 50 40 512 512 1 0)
    (Some (mkDistanceField "msdf" 4)) [] None None.

(** A document without glyphs whose baseline is 1e17, with distance
    range 4. *)
Definition hugeBaselineDoc : FontData :=
  mkFontData ["Ubuntu-Regular.msdf.png"] []
    "Ubuntu" (mkCommon 50 100000000000000000 512 512 1 0)
    (Some (mkDistanceField "msdf" 4)) [] None None.

Definition fontWith (unitsPerEm : Z) : OpenTypeFont :=
  mkOpenTypeFont (Some "Ubuntu") (Some "Regular") (Some "Ubuntu Regular")
    1900 (-500) 100 unitsPerEm.

(** A family of three styles; [boldUnits] is the units-per-em of the Bold
    font file, the other two have 2048. *)
Definition familyInfo : FontFamilyInfo :=
  mkFontFamilyInfo "Ubuntu" msdf
    [ mkStyleInfo "Regular" "font-src/Ubuntu-Regular.ttf" 0 (Some 1);
      mkStyleInfo "Bold" "font-src/Ubuntu-Bold.ttf" 1 (Some 1);
      mkStyleInfo "Italic" "font-src/Ubuntu-Italic.ttf" 2 (Some 1) ]
    "font-dst/Ubuntu.msdf.json"
    [ "font-dst/Ubuntu.msdf_0.png"; "font-dst/Ubuntu.msdf_1.png";
      "font-dst/Ubuntu.msdf_2.png" ]
    "font-dst".

Definition familyFs (boldUnits : Z) : FS :=
  <["font-dst/Ubuntu.msdf.json" := FontJson (baselineDoc 40 4)]>
  (<["font-src/Ubuntu-Regular.ttf" := FontFile (fontWith 2048)]>
  (<["font-src/Ubuntu-Bold.ttf" := FontFile (fontWith boldUnits)]>
  (<["font-src/Ubuntu-Italic.ttf" := FontFile (fontWith 2048)]> ∅))).

(** Predicates on the entries of a sorted family. *)
(** A family that holds the Regular style twice, from a .ttf and from an
    .otf file with another units-per-em, next to Bold. *)
Definition repeatedLabelInfo : FontFamilyInfo :=
  mkFontFamilyInfo "Ubuntu" msdf
    [ mkStyleInfo "Regular" "font-src/Ubuntu-Regular.ttf" 0 (Some 1);
      mkStyleInfo "Regular" "font-src/Ubuntu-Regular.otf" 1 (Some 1);
      mkStyleInfo "Bold" "font-src/Ubuntu-Bold.ttf" 1 (Some 1) ]
    "font-dst/Ubuntu.msdf.json"
    [ "font-dst/Ubuntu.msdf_0.png"; "font-dst/Ubuntu.msdf_1.png" ]
    "font-dst".

Definition repeatedLabelFs : FS :=
  <["font-src/Ubuntu-Regular.otf" := FontFile (fontWith 1000)]> (familyFs 2048).

Definition regularEntry (f : FontEntry) : Prop := isRegular (fe_style f) = true.
Definition otherEntry (f : FontEntry) : Prop := isRegular (fe_style f) = false.

(** [a] may stand before [b] in the collation's order of the style labels. *)
Definition alphabetical (localeCompare : string -> string -> Z) (a b : FontEntry) : Prop :=
  localeCompare (fe_style a) (fe_style b) <= 0.

(** A rasterizer that fits every font on one texture. *)
Definition onePageRasterizer : Rasterizer :=
  fun _ => Some ([ [Byte.x89; Byte.x50; Byte.x4e; Byte.x47] ], baselineDoc 40 4).

(** A family directory that holds the Regular style twice (as .ttf and as
    .otf) next to Bold, in directory order. *)
Definition duplicateStyleFonts : list FontEntry :=
  [ mkFontEntry "font-src/Ubuntu-Bold.ttf" "Bold" "Ubuntu-Bold.ttf";
    mkFontEntry "font-src/Ubuntu-Regular.otf" "Regular" "Ubuntu-Regular.otf";
    mkFontEntry "font-src/Ubuntu-Regular.ttf" "Regular" "Ubuntu-Regular.ttf" ].

(** The family descriptor of that run, without the file system. *)
Definition duplicateStyleRun : option (option FontFamilyInfo) :=
  snd <$> generateFontFamily onePageRasterizer "font-dst" "Ubuntu"
            (sortFonts compareStrings duplicateStyleFonts) msdf ∅.

(** ** Family page numbering, as a descriptor should show it *)

(** The path of family page [k]. *)
Definition familyPagePath (fontDstDir familyName fieldType : string) (k : Z) : string :=
  path_join fontDstDir (familyName ++ "." ++ fieldType ++ "_" ++ pretty k ++ ".png").

(** The style entries for [fonts] when the style at position [i] created
    [created !! i] family pages, the first page being [start]: a style that
    created no page is recorded with one page. *)
Fixpoint numbered_styles (start : Z) (fonts : list FontEntry) (created : list nat)
  : list StyleInfo :=
  match fonts, created with
  | font :: fonts', c :: created' =>
      mkStyleInfo (fe_style font) (fe_path font) start
        (Some (if (c =? 0)%nat then 1 else Z.of_nat c))
      :: numbered_styles (start + Z.of_nat c) fonts' created'
  | _, _ => []
  end.

(** Sum of the recorded page counts. *)
Definition total_pageCount (styles : list StyleInfo) : Z :=
  foldr (fun s acc => default 0 (si_pageCount s) + acc) 0 styles.


(** ** Entry point (index.ts): what [generateFonts] decides *)

Definition font_exts : list string := [".ttf"; ".otf"; ".woff"; ".woff2"].

(** [args.includes(a)]. *)
Definition includes (args : list string) (a : string) : bool :=
  existsb (String.eqb a) args.

(** What [generateFonts] goes on to do for a directory listing and the
    command-line arguments. *)
Inductive Dispatch :=
| ExitNoFonts                              (* process.exit(1): no font files *)
| ExitHelp                                 (* usage printed, process.exit(0) *)
| FamilyMode (fontFiles : list string)     (* genFontsByFamily, msdf then ssdf *)
| IndividualMode (fontFiles : list string) (* genFont per file *).

Definition generateFonts (files args : list string) : Dispatch :=
  let fontFiles :=
    List.filter (fun file => existsb (fun ext => endsWith file ext) font_exts) files in
  if (length fontFiles =? 0)%nat then ExitNoFonts
  else
    let useFamily := false in
    let useFamily :=
      if includes args "--individual" || includes args "-i" then false else useFamily in
    let useFamily :=
      if includes args "--family" || includes args "-f" then true else useFamily in
    if includes args "--help" || includes args "-h" then ExitHelp
    else if useFamily then FamilyMode fontFiles
    else IndividualMode fontFiles.

(** ** Font introspection and grouping (family variant of genFont.ts) *)

(** [s.split(sep)[0]]: the part of [s] before the first [sep]. *)
Fixpoint splitFirst (sep : ascii) (s : string) : string :=
  match s with
  | EmptyString => EmptyString
  | String c rest => if Ascii.eqb c sep then EmptyString else String c (splitFirst sep rest)
  end.

(** The part of [s] from its last "." on, when it has one. *)
Fixpoint lastDotSuffix (s : string) : option string :=
  match s with
  | EmptyString => None
  | String c rest =>
      match lastDotSuffix rest with
      | Some e => Some e
      | None => if Ascii.eqb c "." then Some s else None
      end
  end.

(** [path.extname(p)]: from the last "." of the base name, where a "." that
    starts the base name does not count and ".." has no extension. *)
Definition extname (p : string) : string :=
  match basename p with
  | EmptyString => ""
  | String c rest =>
      if String.eqb (String c rest) ".." then ""
      else match lastDotSuffix rest with Some e => e | None => "" end
  end.

(** [path.parse(file).name]: the base name without its extension. *)
Definition parseName (file : string) : string :=
  let base := basename file in
  substring 0 (String.length base - String.length (extname file)) base.

(** [s.replace(pat, '')] for a string pattern: the first occurrence of [pat]
    is removed. *)
Fixpoint removeFirst (pat s : string) : string :=
  match s with
  | EmptyString => EmptyString
  | String c rest =>
      if startsWith s pat
      then substring (String.length pat) (String.length s - String.length pat) s
      else String c (removeFirst pat rest)
  end.

(** The result of [getFontInfo]: both entries may be undefined. *)
Record FontInfo := mkFontInfo {
  fi_fontStyle : option string; fi_fontFamily : option string }.

(** [!v] for an optional string: undefined and the empty string are falsy. *)
Definition falsy (v : option string) : bool :=
  match v with
  | None => true
  | Some s => String.eqb s ""
  end.

(** [v || dflt] for an optional string. *)
Definition str_or (v : option string) (dflt : string) : string :=
  match v with
  | Some s => if String.eqb s "" then dflt else s
  | None => dflt
  end.

Definition optionStringEqb (a b : option string) : bool :=
  match a, b with
  | Some x, Some y => String.eqb x y
  | None, None => true
  | _, _ => false
  end.

(** [getFontInfo]; [trim] is the runtime's [String.prototype.trim].  A font
    that cannot be loaded gives the empty result (the exception is caught). *)
Definition getFontInfo (trim : string -> string) (fs : FS) (fontPath : string) : FontInfo :=
  let ext := toLowerCase (extname fontPath) in
  if negb (String.eqb ext ".ttf") && negb (String.eqb ext ".otf") then mkFontInfo None None
  else
    match opentype_load fs fontPath with
    | None => mkFontInfo None None
    | Some font =>
        let fontFamily := names_fontFamily font in
        let subfamily := names_fontSubfamily font in
        let fontStyle := subfamily in
        let fontStyle :=
          if falsy fontStyle || optionStringEqb fontStyle (Some "Regular") then
            match names_fullName font, fontFamily with
            | Some fullName, Some family =>
                if negb (String.eqb fullName "") && negb (String.eqb family "") then
                  let stylePart := trim (removeFirst family fullName) in
                  if negb (String.eqb stylePart "") then Some stylePart else fontStyle
                else fontStyle
            | _, _ => fontStyle
            end
          else fontStyle in
        let fontStyle :=
          if falsy fontStyle || optionStringEqb fontStyle fontFamily
          then Some "Regular" else fontStyle in
        mkFontInfo fontStyle fontFamily
    end.

(** The family key and the entry [genFontsByFamily] files a font under. *)
Definition familyOf (trim : string -> string) (fs : FS) (fontSrcDir fontFile : string)
  : string :=
  let fontInfo := getFontInfo trim fs (path_join fontSrcDir fontFile) in
  let fromName := splitFirst "-" (parseName fontFile) in
  str_or (fi_fontFamily fontInfo) (str_or (Some fromName) "Unknown").

Definition entryOf (trim : string -> string) (fs : FS) (fontSrcDir fontFile : string)
  : FontEntry :=
  let fontInfo := getFontInfo trim fs (path_join fontSrcDir fontFile) in
  mkFontEntry (path_join fontSrcDir fontFile)
    (str_or (fi_fontStyle fontInfo) "Regular") fontFile.

(** The [Map] from family to fonts, as the list of its entries in insertion
    order.  [fontFamilies.get(family).push(entry)], after
    [fontFamilies.set(family, [])] for a new key. *)
Fixpoint pushFont (family : string) (entry : FontEntry)
    (fontFamilies : list (string * list FontEntry)) : list (string * list FontEntry) :=
  match fontFamilies with
  | [] => [(family, [entry])]
  | (key, fonts) :: rest =>
      if String.eqb key family then (key, (fonts ++ [entry])%list) :: rest
      else (key, fonts) :: pushFont family entry rest
  end.

(** The grouping loop of [genFontsByFamily]: missing files are skipped. *)
Definition groupFonts (trim : string -> string) (fs : FS) (fontSrcDir : string)
    (fontFiles : list string) : list (string * list FontEntry) :=
  fold_left
    (fun fontFamilies fontFile =>
       if existsSync fs (path_join fontSrcDir fontFile)
       then pushFont (familyOf trim fs fontSrcDir fontFile)
              (entryOf trim fs fontSrcDir fontFile) fontFamilies
       else fontFamilies)
    fontFiles [].

(** The generation loop of [genFontsByFamily] over the families; the
    rasterizer works with the options of the family it is given. *)
Fixpoint generateFamilies (localeCompare : string -> string -> Z)
    (generateBMFont : string -> Rasterizer) (fontDstDir : string)
    (fieldType : FieldType) (fontFamilies : list (string * list FontEntry))
    (results : list FontFamilyInfo) (fs : FS) : option (FS * list FontFamilyInfo) :=
  match fontFamilies with
  | [] => Some (fs, results)
  | (familyName, fonts) :: rest =>
      let sortedFonts := sortFonts localeCompare fonts in
      '(fs1, familyResult) ←
        generateFontFamily (generateBMFont familyName) fontDstDir familyName
          sortedFonts fieldType fs;
      generateFamilies localeCompare generateBMFont fontDstDir fieldType rest
        (match familyResult with
         | Some info => (results ++ [info])%list
         | None => results
         end) fs1
  end.

Definition genFontsByFamily (trim : string -> string)
    (localeCompare : string -> string -> Z) (generateBMFont : string -> Rasterizer)
    (fontSrcDir fontDstDir : string) (fontFiles : list string) (fieldType : FieldType)
    (fs : FS) : option (FS * list FontFamilyInfo) :=
  generateFamilies localeCompare generateBMFont fontDstDir fieldType
    (groupFonts trim fs fontSrcDir fontFiles) [] fs.


(** ** Single-font generation (genFont.ts) *)

(** An entry of overrides.json for one font and one field type; every
    setting is optional. *)
Record OverrideEntry := mkOverrideEntry {
  ov_fontSize : option Z;
  ov_distanceRange : option Z;
  ov_textureSize : option (Z * Z);
  ov_textureWidth : option Z;
  ov_textureHeight : option Z }.

(** overrides.json: font (or family) name, then field type. *)
Abbreviation Overrides := (gmap string (gmap string OverrideEntry)).

(** [overrides[name]?.[fieldType]]. *)
Definition overrideFor (overrides : Overrides) (name fieldType : string)
  : option OverrideEntry :=
  byType ← overrides !! name; byType !! fieldType.

(** [v || dflt] for an optional number. *)
Definition num_or (v : option Z) (dflt : Z) : Z :=
  match v with
  | Some x => js_or x dflt
  | None => dflt
  end.

(** [type FontOptions], with the constant [outputType: 'json'] left out. *)
Record FontOptions := mkFontOptions {
  opt_fieldType : string;
  opt_roundDecimal : Z;
  opt_smartSize : bool;
  opt_pot : bool;
  opt_fontSize : Z;
  opt_distanceRange : Z;
  opt_textureSize : option (Z * Z);
  opt_charset : option string }.

(** [interface CharsetConfig]; [presets] may be absent. *)
Record CharsetConfig := mkCharsetConfig {
  cc_charset : string; cc_presets : option (list string) }.

(** The property names every object inherits from [Object.prototype]. *)
Definition objectPrototypeNames : list string :=
  [ "constructor"; "__defineGetter__"; "__defineSetter__"; "hasOwnProperty";
    "__lookupGetter__"; "__lookupSetter__"; "isPrototypeOf";
    "propertyIsEnumerable"; "toString"; "valueOf"; "__proto__";
    "toLocaleString" ].

(** [key && key in presets], and then [presets[key]] as it is appended to a
    string.  [presets] holds the own properties of the parsed preset table.
    The [in] operator also finds the names the table inherits from
    [Object.prototype]; for such a name that is not an own property the
    appended text is the string form of the inherited value,
    [prototypeText key] (the source text of a built-in function, which
    depends on the engine). *)
Definition presetFor (prototypeText : string -> string)
    (presets : gmap string string) (key : string) : option string :=
  if String.eqb key "" then None
  else match presets !! key with
       | Some preset => Some preset
       | None =>
           if bool_decide (key ∈ objectPrototypeNames)
           then Some (prototypeText key) else None
       end.

(** The loop over [presetsToApply]: a key that is empty or not in the preset
    table is reported and skipped. *)
Fixpoint applyPresets (prototypeText : string -> string)
    (presets : gmap string string) (presetsToApply : list string)
    (charset : string) : Console string :=
  match presetsToApply with
  | [] => ret charset
  | key :: rest =>
      match presetFor prototypeText presets key with
      | Some preset => applyPresets prototypeText presets rest (charset ++ preset)
      | None =>
          run console_warn ("preset, '" ++ key
                            ++ "' is not available in msdf-generator presets") in
          applyPresets prototypeText presets rest charset
      end
  end.

(** The name the rasterizer knows a field type by. *)
Definition bmfont_field_type (fieldType : FieldType) : string :=
  match fieldType with ssdf => "sdf" | msdf => "msdf" end.

(** The options [genFont] builds for a font. *)
Definition fontOptions (prototypeText : string -> string) (overrides : Overrides)
    (charsetConfig : option CharsetConfig) (presets : gmap string string)
    (fontNameNoExt : string) (fieldType : FieldType)
  : Console FontOptions :=
  let entry := overrideFor overrides fontNameNoExt (fieldType_str fieldType) in
  let font_size := num_or (entry ≫= ov_fontSize) 42 in
  let distance_range := num_or (entry ≫= ov_distanceRange) 4 in
  let texture_size := default (512, 512) (entry ≫= ov_textureSize) in
  match charsetConfig with
  | Some config =>
      let* charset :=
        applyPresets prototypeText presets (default [] (cc_presets config))
          (cc_charset config) in
      ret (mkFontOptions (bmfont_field_type fieldType) 6 true true font_size
             distance_range (Some texture_size) (Some charset))
  | None =>
      ret (mkFontOptions (bmfont_field_type fieldType) 6 true true font_size
             distance_range (Some texture_size) None)
  end.

(** The rasterizer with its options. *)
Definition OptionsRasterizer : Type :=
  string -> FontOptions -> option (list (list Byte.byte) * FontData).

(** What the stitching [generateFont] resolves with; [pngPath] is undefined
    when the rasterizer returned no texture. *)
Record StitchOutcome := mkStitchOutcome {
  so_stitched : bool;
  so_pngPath : option string;
  so_originalPaths : list string }.

(** [interface SdfFontInfo] of genFont.ts. *)
Record StitchedFontInfo := mkStitchedFontInfo {
  sti_fontName : string;
  sti_fieldType : FieldType;
  sti_fontPath : string;
  sti_jsonPath : string;
  sti_pngPath : option string;
  sti_originalPngPaths : list string;
  sti_dstDir : string;
  sti_stitched : bool }.

(** [path.resolve(p)] for a normalised path [p]: a relative path is taken
    from the working directory [cwd] (an absolute directory without a
    trailing slash). *)
Definition absolute (cwd p : string) : string :=
  if startsWith p "/" then p else cwd ++ "/" ++ p.

(** [path.resolve(dir, name)] for a normalised, non-empty [dir] and a plain
    file name. *)
Definition path_resolve (cwd dir name : string) : string :=
  absolute cwd (path_join dir name).

(** The functions of this module mix relative paths ([path.join]) and
    absolute ones ([path.resolve]); the file system they work on is keyed by
    absolute paths, and a relative path given to a file operation is
    resolved against [cwd] first. *)
Module SingleFont.

(** [stitchTextures] on files: [loadImage] decodes an image file to its
    dimensions, [toBuffer] stands for drawing the images on the canvas of
    the layout and encoding it.  Returns the file system with the atlas
    written, [stitchedImagePath] and [updatedFontData].  [texturePaths] and
    [fontDataPath] are the absolute paths [generateFont] passes. *)
Definition stitchTexturesFiles (cwd : string)
    (loadImage : list Byte.byte -> option TextureSize)
    (toBuffer : TextureLayout -> list (list Byte.byte) -> list Byte.byte)
    (fs : FS) (texturePaths : list string)
    (fontDataPath outputPath fontName fieldType : string)
  : option (FS * string * FontData) :=
  fontData ← readFontJson fs fontDataPath;
  images ←
    mapM (fun texturePath =>
            match fs !! texturePath with
            | Some (PngFile bytes) => size ← loadImage bytes; Some (bytes, size)
            | _ => None
            end) texturePaths;
  let stitched := fst (stitchTextures (map snd images) fontData fontName fieldType) in
  let buffer := toBuffer (fst stitched) (map fst images) in
  let stitchedImagePath :=
    path_resolve cwd outputPath (fontName ++ "." ++ fieldType ++ ".png") in
  Some (<[stitchedImagePath := PngFile buffer]> fs, stitchedImagePath, snd stitched).

(** [generateFont] of genFont.ts. *)
Definition generateFont (cwd : string) (generateBMFont : OptionsRasterizer)
    (loadImage : list Byte.byte -> option TextureSize)
    (toBuffer : TextureLayout -> list (list Byte.byte) -> list Byte.byte)
    (fs : FS) (fontSrcPath fontDestPath fontName fieldType : string)
    (options : FontOptions) : option (FS * StitchOutcome) :=
  '(textures, data) ← generateBMFont fontSrcPath options;
  let multi := (1 <? length textures)%nat in
  let written :=
    imap (fun index texture =>
            let filename :=
              if multi
              then fontName ++ "." ++ fieldType ++ "." ++ pretty (Z.of_nat index) ++ ".png"
              else fontName ++ "." ++ fieldType ++ ".png" in
            (path_resolve cwd fontDestPath filename, PngFile texture)) textures in
  let originalPaths := map fst written in
  let tempPaths := if multi then originalPaths else [] in
  let fs1 := commit written fs in
  let jsonPath :=
    path_resolve cwd fontDestPath (fontName ++ "." ++ fieldType ++ ".json") in
  let fs2 := <[jsonPath := FontJson data]> fs1 in
  if multi then
    '(fs3, stitchedImagePath, updatedFontData) ←
      stitchTexturesFiles cwd loadImage toBuffer fs2 tempPaths jsonPath fontDestPath
        fontName fieldType;
    let fs4 := <[jsonPath := FontJson updatedFontData]> fs3 in
    let fs5 :=
      fold_left (fun acc tempPath =>
                   if existsSync acc tempPath then delete tempPath acc else acc)
        tempPaths fs4 in
    Some (fs5, mkStitchOutcome true (Some stitchedImagePath) originalPaths)
  else Some (fs2, mkStitchOutcome false (head originalPaths) originalPaths).

(** The field types [genFont] accepts. *)
Definition parseFieldType (fieldType : string) : option FieldType :=
  if String.eqb fieldType "msdf" then Some msdf
  else if String.eqb fieldType "ssdf" then Some ssdf
  else None.

(** [genFont] of genFont.ts: [None] is a rejected promise, [Some (fs, None)]
    the [null] result.  [overrides] is the parsed overrides.json (empty when
    the file is missing), [charsetConfig] the parsed charset file when it
    exists.  The font path and the reported [jsonPath] are built with
    [path.join] and stay relative when the directories are; [pngPath] and
    [originalPngPaths] come from [generateFont] and are absolute. *)
Definition genFont (cwd : string) (prototypeText : string -> string)
    (fontSrcDir fontDstDir : string) (overrides : Overrides)
    (charsetConfig : option CharsetConfig) (presets : gmap string string)
    (generateBMFont : OptionsRasterizer)
    (loadImage : list Byte.byte -> option TextureSize)
    (toBuffer : TextureLayout -> list (list Byte.byte) -> list Byte.byte)
    (fontFileName fieldType : string) (fs : FS)
  : option (FS * option StitchedFontInfo) :=
  match parseFieldType fieldType with
  | None => Some (fs, None)
  | Some ft =>
      let fontPath := path_join fontSrcDir fontFileName in
      if negb (existsSync fs (absolute cwd fontPath)) then Some (fs, None)
      else
        let fontNameNoExt := splitFirst "." fontFileName in
        let options :=
          fst (fontOptions prototypeText overrides charsetConfig presets
                 fontNameNoExt ft) in
        '(fs1, result) ←
          generateFont cwd generateBMFont loadImage toBuffer fs fontPath fontDstDir
            fontNameNoExt fieldType options;
        Some (fs1,
              Some (mkStitchedFontInfo fontNameNoExt ft fontPath
                      (path_join fontDstDir (fontNameNoExt ++ "." ++ fieldType ++ ".json"))
                      (so_pngPath result) (so_originalPaths result) fontDstDir
                      (so_stitched result)))
  end.

End SingleFont.


(** The files of a single-font run, by the absolute paths [generateFont]
    gives them: the document, the atlas (which is also the texture of a
    one-page run) and the numbered page textures of a multi-page run. *)
Definition jsonPathOf (cwd fontDestPath fontName fieldType : string) : string :=
  path_resolve cwd fontDestPath (fontName ++ "." ++ fieldType ++ ".json").

Definition atlasPathOf (cwd fontDestPath fontName fieldType : string) : string :=
  path_resolve cwd fontDestPath (fontName ++ "." ++ fieldType ++ ".png").

Definition pagePathOf (cwd fontDestPath fontName fieldType : string) (index : nat)
  : string :=
  path_resolve cwd fontDestPath
    (fontName ++ "." ++ fieldType ++ "." ++ pretty (Z.of_nat index) ++ ".png").

(** A rasterizer that returns two one-byte textures with the two-page
    document, a codec that decodes every image as a 256 x 256 page and draws
    by concatenation, and the options of a font without overrides. *)
Definition twoPageRasterizer : OptionsRasterizer :=
  fun _ _ => Some ([ [Byte.x01]; [Byte.x02] ], twoPageDoc).

Definition onePageOptionsRasterizer : OptionsRasterizer :=
  fun _ _ => Some ([ [Byte.x01] ], twoPageDoc).

Definition decode256 (image : list Byte.byte) : option TextureSize := Some page256.

Definition drawPages (layout : TextureLayout) (images : list (list Byte.byte))
  : list Byte.byte := concat images.

Definition defaultOptions : FontOptions :=
  mkFontOptions "msdf" 6 true true 42 4 (Some (512, 512)) None.

(** The directory [/work] with a source directory that holds one font
    file. *)
Definition fontSourceFs : FS :=
  <["/work/font-src/Ubuntu.ttf" := FontFile (fontWith 2048)]> ∅.

(** The text Node gives for an inherited property: the object prototype
    itself for [__proto__], otherwise the text of a built-in function. *)
Definition nodePrototypeText (key : string) : string :=
  if String.eqb key "__proto__" then "[object Object]"
  else if String.eqb key "constructor" then "function Object() { [native code] }"
  else "function " ++ key ++ "() { [native code] }".

(** * Properties *)

(** ** Console computations *)

Lemma console_map_fst {A B : Type} (f : A -> Console B) (l : list A) :
  fst (console_map f l) = map (fun a => fst (f a)) l.
Proof.
  induction l as [|a l IH]; simpl; [reflexivity|].
  unfold bind. simpl.
  destruct (console_map f l) as [bs out]. simpl in *. now rewrite IH.
Qed.

Lemma console_map_snd {A B : Type} (f : A -> Console B) (l : list A) :
  snd (console_map f l) = flat_map (fun a => snd (f a)) l.
Proof.
  induction l as [|a l IH]; simpl; [reflexivity|].
  unfold bind. simpl.
  destruct (console_map f l) as [bs out]. simpl in *.
  rewrite IH. now rewrite app_nil_r.
Qed.

(** ** Layout planner *)

Lemma js_or_nonzero (v dflt : Z) : v <> 0 -> js_or v dflt = v.
Proof. intros Hv. unfold js_or. destruct (Z.eqb_spec v 0); [contradiction|reflexivity]. Qed.

Lemma js_index_Some {A : Type} (arr : list A) (i : Z) (a : A) :
  js_index arr i = Some a <-> 0 <= i /\ arr !! Z.to_nat i = Some a.
Proof.
  unfold js_index. destruct (Z.ltb_spec i 0); split; intros H'.
  - discriminate.
  - lia.
  - split; [lia|assumption].
  - tauto.
Qed.

(** With any number of pages other than one the planner lays out 256 x 256
    cells, 258 pixels apart. *)
Lemma calculateOptimalLayout_multi (textures : list TextureSize) :
  length textures <> 1%nat ->
  calculateOptimalLayout textures =
    {| lay_width := Z.of_nat (length textures) * 256
                    + (Z.of_nat (length textures) - 1) * PADDING;
       lay_height := 256;
       lay_positions :=
         imap (fun index _ => mkPosition (Z.of_nat index * (256 + PADDING)) 0 256 256)
           textures |}.
Proof.
  intros Hlen. destruct textures as [|t0 [|t1 rest]]; try reflexivity.
  simpl in Hlen. congruence.
Qed.

Lemma calculateOptimalLayout_length (textures : list TextureSize) :
  length (lay_positions (calculateOptimalLayout textures)) = length textures.
Proof.
  destruct textures as [|t0 [|t1 rest]]; try reflexivity.
  unfold calculateOptimalLayout. cbn [lay_positions]. now rewrite length_imap.
Qed.

(** Every placement of a plan lies inside the plan's canvas. *)
Lemma placements_within_canvas (textures : list TextureSize) (i : nat) (p : Position) :
  lay_positions (calculateOptimalLayout textures) !! i = Some p ->
  position_in_canvas (calculateOptimalLayout textures) p.
Proof.
  destruct (decide (length textures = 1%nat)) as [Hone|Hmulti].
  - destruct textures as [|t0 [|t1 rest]]; try discriminate.
    simpl. destruct i as [|i]; simpl; [|discriminate].
    intros [= <-]. unfold position_in_canvas. simpl. lia.
  - rewrite (calculateOptimalLayout_multi _ Hmulti). cbn [lay_positions].
    rewrite list_lookup_imap. intros Hp.
    destruct (textures !! i) as [t|] eqn:Ht; [|discriminate].
    injection Hp as <-. apply lookup_lt_Some in Ht.
    unfold position_in_canvas, PADDING. simpl. lia.
Qed.

(** Placements are ordered left to right and never overlap. *)
Lemma placements_left_to_right (textures : list TextureSize) (i j : nat) (p q : Position) :
  (i < j)%nat ->
  lay_positions (calculateOptimalLayout textures) !! i = Some p ->
  lay_positions (calculateOptimalLayout textures) !! j = Some q ->
  left_of p q.
Proof.
  intros Hij.
  destruct (decide (length textures = 1%nat)) as [Hone|Hmulti].
  - destruct textures as [|t0 [|t1 rest]]; try discriminate.
    simpl. destruct j as [|j]; [lia|]. intros _ Hq. discriminate.
  - rewrite (calculateOptimalLayout_multi _ Hmulti). cbn [lay_positions].
    rewrite !list_lookup_imap. intros Hp Hq.
    destruct (textures !! i); [|discriminate].
    destruct (textures !! j); [|discriminate].
    injection Hp as <-. injection Hq as <-.
    unfold left_of, PADDING. simpl. lia.
Qed.

Lemma sum_widths_standard (textures : list TextureSize) :
  Forall (fun t => t = page256) textures ->
  sum_widths textures = Z.of_nat (length textures) * 256.
Proof.
  induction 1 as [|t l Ht _ IH]; [reflexivity|].
  unfold sum_widths in *. cbn [map foldr length]. rewrite IH. subst t.
  unfold page256. cbn [tex_width]. lia.
Qed.

(** On pages of the standard 256 x 256 size the plan is the side-by-side
    arrangement: page height, and the widths plus one gutter per gap. *)
Lemma calculateOptimalLayout_standard_pages (textures : list TextureSize) :
  (2 <= length textures)%nat ->
  Forall (fun t => t = page256) textures ->
  lay_height (calculateOptimalLayout textures) = tex_height page256 /\
  lay_width (calculateOptimalLayout textures) =
    sum_widths textures + (Z.of_nat (length textures) - 1) * PADDING.
Proof.
  intros Hn Hstd. rewrite calculateOptimalLayout_multi by lia.
  cbn [lay_height lay_width]. rewrite (sum_widths_standard _ Hstd). split; reflexivity.
Qed.

(** C1: on two 512 x 512 pages (the default texture size of [genFont]) the
    planner still lays out 256 x 256 cells: the canvas is 514 x 256, neither
    as high as the pages nor as wide as their widths plus the gutter. *)
Theorem calculateOptimalLayout_ignores_page_size :
  calculateOptimalLayout [page512; page512] =
    {| lay_width := 514; lay_height := 256;
       lay_positions := [mkPosition 0 0 256 256; mkPosition 258 0 256 256] |} /\
  lay_height (calculateOptimalLayout [page512; page512]) <> tex_height page512 /\
  lay_width (calculateOptimalLayout [page512; page512]) <>
    sum_widths [page512; page512] + (2 - 1) * PADDING.
Proof.
  split; [reflexivity|]. split; vm_compute; discriminate.
Qed.

(** ** Glyph coordinate remapper *)

Lemma updateChar_placed (layout : TextureLayout) (char : Char) (pagePosition : Position) :
  js_index (lay_positions layout) (char_page char) = Some pagePosition ->
  updateChar layout char = (remapped char (pos_x pagePosition) (pos_y pagePosition), []).
Proof. intros H. unfold updateChar. rewrite H. reflexivity. Qed.

Lemma updateChar_missing (layout : TextureLayout) (char : Char) :
  js_index (lay_positions layout) (char_page char) = None ->
  updateChar layout char = (on_page_zero char, [missing_page_warning char]).
Proof. intros H. unfold updateChar. rewrite H. reflexivity. Qed.

(** Whatever the plan, a remapped glyph is on page 0. *)
Lemma updateChar_page (layout : TextureLayout) (char : Char) :
  char_page (fst (updateChar layout char)) = 0.
Proof.
  unfold updateChar.
  destruct (js_index (lay_positions layout) (char_page char)); reflexivity.
Qed.

Lemma updateCharacterCoordinates_chars (fontData : FontData) (layout : TextureLayout) :
  fd_chars (fst (updateCharacterCoordinates fontData layout)) =
    map (fun c => fst (updateChar layout c)) (fd_chars fontData).
Proof.
  unfold updateCharacterCoordinates, bind, ret. cbn [fst snd fd_chars].
  apply console_map_fst.
Qed.

Lemma updateCharacterCoordinates_log (fontData : FontData) (layout : TextureLayout) :
  snd (updateCharacterCoordinates fontData layout) =
    flat_map (fun c => snd (updateChar layout c)) (fd_chars fontData).
Proof.
  unfold updateCharacterCoordinates, bind, ret. cbn [fst snd].
  rewrite app_nil_r. apply console_map_snd.
Qed.

Lemma updateCharacterCoordinates_common (fontData : FontData) (layout : TextureLayout) :
  fd_common (fst (updateCharacterCoordinates fontData layout)) =
    mkCommon (common_lineHeight (fd_common fontData)) (common_base (fd_common fontData))
      (lay_width layout) (lay_height layout)
      (common_pages (fd_common fontData)) (common_packed (fd_common fontData)).
Proof. reflexivity. Qed.

Lemma stitchTextures_layout (images : list TextureSize) (fontData : FontData)
    (fontName fieldType : string) :
  fst (fst (stitchTextures images fontData fontName fieldType)) =
    calculateOptimalLayout images.
Proof.
  unfold stitchTextures, bind, ret. cbn [fst snd].
  f_equal. induction images as [|[w h] l IH]; [reflexivity|].
  cbn [map tex_width tex_height]. now rewrite IH.
Qed.

Lemma stitchTextures_chars (images : list TextureSize) (fontData : FontData)
    (fontName fieldType : string) :
  fd_chars (snd (fst (stitchTextures images fontData fontName fieldType))) =
    map (fun c => fst (updateChar (calculateOptimalLayout images) c)) (fd_chars fontData).
Proof.
  rewrite <- (stitchTextures_layout images fontData fontName fieldType).
  unfold stitchTextures, bind, ret. cbn [fst snd fd_chars].
  apply console_map_fst.
Qed.

(** C3: for every plan, a glyph whose page has a placement in the plan is
    moved by that placement (x by the placement's x, y by the placement's y)
    and put on page 0 with its other fields kept, and the canvas dimensions
    of the document become the plan's; [stitchTextures] remaps with the plan
    it computes and leaves a document with one page and a single page file
    name; on two 256 x 256 pages a glyph at page 1, (10, 10) goes to page 0,
    (268, 10). *)
Theorem stitchTextures_remaps_placed_glyphs (images : list TextureSize)
    (fontData : FontData) (fontName fieldType : string) (plan : TextureLayout) :
  let remappedData := fst (updateCharacterCoordinates fontData plan) in
  let result := fst (stitchTextures images fontData fontName fieldType) in
  let layout := fst result in
  let updated := snd result in
  length (fd_chars remappedData) = length (fd_chars fontData) /\
  (forall (i : nat) (char : Char) (pagePosition : Position),
      fd_chars fontData !! i = Some char ->
      js_index (lay_positions plan) (char_page char) = Some pagePosition ->
      fd_chars remappedData !! i =
        Some (mkChar (char_id char) (char_index char) (char_char char)
                (char_width char) (char_height char) (char_xoffset char)
                (char_yoffset char) (char_xadvance char) (char_chnl char)
                (char_x char + pos_x pagePosition)
                (char_y char + pos_y pagePosition) 0)) /\
  common_scaleW (fd_common remappedData) = lay_width plan /\
  common_scaleH (fd_common remappedData) = lay_height plan /\
  layout = calculateOptimalLayout images /\
  fd_chars updated = fd_chars (fst (updateCharacterCoordinates fontData layout)) /\
  common_pages (fd_common updated) = 1 /\
  common_scaleW (fd_common updated) = lay_width layout /\
  common_scaleH (fd_common updated) = lay_height layout /\
  fd_pages updated = [fontName ++ "." ++ fieldType ++ ".png"] /\
  (forall char : Char,
      char_page char = 1 -> char_x char = 10 -> char_y char = 10 ->
      let char' := fst (updateChar (calculateOptimalLayout [page256; page256]) char) in
      char_page char' = 0 /\ char_x char' = 268 /\ char_y char' = 10).
Proof.
  intros remappedData result layout updated.
  assert (Hlay : layout = calculateOptimalLayout images)
    by apply stitchTextures_layout.
  assert (Hchars : fd_chars updated =
                   map (fun c => fst (updateChar (calculateOptimalLayout images) c))
                     (fd_chars fontData))
    by apply stitchTextures_chars.
  assert (Hremapped : fd_chars remappedData =
                      map (fun c => fst (updateChar plan c)) (fd_chars fontData))
    by apply updateCharacterCoordinates_chars.
  split; [rewrite Hremapped; apply length_map|].
  split.
  { intros i char pagePosition Hi Hpos.
    rewrite Hremapped, list_lookup_fmap, Hi. cbn [fmap option_fmap option_map].
    now rewrite (updateChar_placed _ _ _ Hpos). }
  split; [reflexivity|].
  split; [reflexivity|].
  split; [exact Hlay|].
  split; [rewrite Hchars, Hlay; symmetry; apply updateCharacterCoordinates_chars|].
  split; [reflexivity|].
  split; [reflexivity|].
  split; [reflexivity|].
  split; [reflexivity|].
  intros char Hp Hx Hy char'. subst char'.
  unfold updateChar. rewrite Hp.
  change (js_index (lay_positions (calculateOptimalLayout [page256; page256])) 1)
    with (Some (mkPosition 258 0 256 256)).
  cbn [ret fst char_page char_x char_y pos_x pos_y]. lia.
Qed.

(** The two-page scenario of the specification, run through
    [stitchTextures], and the same document remapped with a plan that stacks
    the two pages vertically. *)
Lemma stitchTextures_remaps_placed_glyphs_witness :
  fd_chars (snd (fst (stitchTextures [page256; page256] twoPageDoc "Ubuntu-Regular" "msdf")))
    !! 1%nat = Some (mkChar 65 0 "A" 20 24 1 10 22 15 268 10 0) /\
  fd_pages (snd (fst (stitchTextures [page256; page256] twoPageDoc "Ubuntu-Regular" "msdf")))
    = ["Ubuntu-Regular.msdf.png"] /\
  fd_chars (fst (updateCharacterCoordinates twoPageDoc stackedPlan))
    !! 1%nat = Some (mkChar 65 0 "A" 20 24 1 10 22 15 10 268 0).
Proof.
  pose proof (stitchTextures_remaps_placed_glyphs
                [page256; page256] twoPageDoc "Ubuntu-Regular" "msdf" stackedPlan) as H.
  cbv zeta in H.
  destruct H as (_ & Hglyph & _ & _ & Hlay & Hchars & _ & _ & _ & Hpages & _).
  split; [|split; [exact Hpages|]].
  - rewrite Hchars, Hlay. reflexivity.
  - apply (Hglyph 1%nat (glyphAt 1 10 10) (mkPosition 0 258 256 256)); reflexivity.
Defined.

(** C5: a glyph whose page has no placement is returned on page 0 with its
    coordinates and other fields unchanged, a warning is printed for it, the
    remapper returns, and the glyphs with a placement are remapped as usual. *)
Theorem updateCharacterCoordinates_tolerates_missing_placement
    (fontData : FontData) (layout : TextureLayout) :
  exists (updated : FontData) (log : list LogEntry),
    updateCharacterCoordinates fontData layout = (updated, log) /\
    length (fd_chars updated) = length (fd_chars fontData) /\
    (forall (i : nat) (char : Char),
        fd_chars fontData !! i = Some char ->
        js_index (lay_positions layout) (char_page char) = None ->
        fd_chars updated !! i =
          Some (mkChar (char_id char) (char_index char) (char_char char)
                  (char_width char) (char_height char) (char_xoffset char)
                  (char_yoffset char) (char_xadvance char) (char_chnl char)
                  (char_x char) (char_y char) 0) /\
        In (LogWarn, "No position found for page " ++ pretty (char_page char)
                     ++ ", using original coordinates") log) /\
    (forall (i : nat) (char : Char) (pagePosition : Position),
        fd_chars fontData !! i = Some char ->
        js_index (lay_positions layout) (char_page char) = Some pagePosition ->
        fd_chars updated !! i =
          Some (remapped char (pos_x pagePosition) (pos_y pagePosition))) /\
    (forall entry : LogEntry,
        In entry log ->
        exists char, In char (fd_chars fontData) /\
          js_index (lay_positions layout) (char_page char) = None /\
          entry = missing_page_warning char).
Proof.
  destruct (updateCharacterCoordinates fontData layout) as [updated log] eqn:Hrun.
  exists updated, log.
  assert (Hchars : fd_chars updated =
                   map (fun c => fst (updateChar layout c)) (fd_chars fontData)).
  { rewrite <- updateCharacterCoordinates_chars. now rewrite Hrun. }
  assert (Hlog : log = flat_map (fun c => snd (updateChar layout c)) (fd_chars fontData)).
  { rewrite <- updateCharacterCoordinates_log. now rewrite Hrun. }
  split; [reflexivity|].
  split; [rewrite Hchars; apply length_map|].
  split.
  { intros i char Hi Hnone. split.
    - rewrite Hchars, list_lookup_fmap, Hi. cbn [fmap option_fmap option_map].
      now rewrite (updateChar_missing _ _ Hnone).
    - rewrite Hlog. apply in_flat_map. exists char. split.
      + apply list_elem_of_In. eapply list_elem_of_lookup_2. exact Hi.
      + rewrite (updateChar_missing _ _ Hnone). left. reflexivity. }
  split.
  { intros i char pagePosition Hi Hpos.
    rewrite Hchars, list_lookup_fmap, Hi. cbn [fmap option_fmap option_map].
    now rewrite (updateChar_placed _ _ _ Hpos). }
  intros entry Hin. rewrite Hlog in Hin. apply in_flat_map in Hin.
  destruct Hin as (char & Hchar & Hentry). exists char. split; [exact Hchar|].
  destruct (js_index (lay_positions layout) (char_page char)) as [p|] eqn:Hpos.
  - rewrite (updateChar_placed _ _ _ Hpos) in Hentry. destruct Hentry.
  - rewrite (updateChar_missing _ _ Hpos) in Hentry.
    destruct Hentry as [<-|[]]. split; reflexivity.
Qed.

(** The glyph on page 7 of the two-page document keeps (3, 4) and is
    reported. *)
Lemma updateCharacterCoordinates_tolerates_missing_placement_witness :
  exists (updated : FontData) (log : list LogEntry),
    updateCharacterCoordinates twoPageDoc (calculateOptimalLayout [page256; page256])
      = (updated, log) /\
    fd_chars updated !! 2%nat = Some (mkChar 65 0 "A" 20 24 1 10 22 15 3 4 0) /\
    In (LogWarn, "No position found for page 7, using original coordinates") log /\
    fd_chars updated !! 1%nat = Some (mkChar 65 0 "A" 20 24 1 10 22 15 268 10 0).
Proof.
  destruct (updateCharacterCoordinates_tolerates_missing_placement
              twoPageDoc (calculateOptimalLayout [page256; page256]))
    as (updated & log & Hrun & _ & Hmissing & Hplaced & _).
  exists updated, log. split; [exact Hrun|].
  destruct (Hmissing 2%nat (glyphAt 7 3 4) eq_refl eq_refl) as [Hglyph Hwarn].
  split; [exact Hglyph|]. split; [exact Hwarn|].
  exact (Hplaced 1%nat (glyphAt 1 10 10) (mkPosition 258 0 256 256) eq_refl eq_refl).
Defined.





(** On one page, or on several pages of the standard 256 x 256 size, a glyph
    that lies inside its page lies inside the canvas after remapping. *)
Lemma remap_within_canvas_standard_pages (textures : list TextureSize) (char : Char) (t : TextureSize) :
  js_index textures (char_page char) = Some t ->
  (length textures = 1%nat /\ tex_width t <> 0 /\ tex_height t <> 0) \/
  Forall (fun t => t = page256) textures ->
  rect_within (tex_width t) (tex_height t) char ->
  let plan := calculateOptimalLayout textures in
  rect_within (lay_width plan) (lay_height plan) (fst (updateChar plan char)).
Proof.
  intros Hpage Hsize Hin plan. subst plan.
  apply js_index_Some in Hpage. destruct Hpage as [Hp0 Hpage].
  destruct (decide (length textures = 1%nat)) as [Hone|Hmulti].
  - destruct textures as [|t0 [|t1 rest]]; try discriminate.
    destruct (Z.to_nat (char_page char)) as [|n] eqn:Hn; [|discriminate].
    injection Hpage as ->.
    assert (Hdims : tex_width t <> 0 /\ tex_height t <> 0).
    { destruct Hsize as [(_ & Hw & Hh)|Hstd]; [tauto|].
      inversion Hstd; subst. vm_compute. split; discriminate. }
    destruct Hdims as [Hw Hh].
    unfold updateChar, js_index, calculateOptimalLayout.
    cbn [lay_positions lay_width lay_height].
    rewrite !(js_or_nonzero _ _ Hw), !(js_or_nonzero _ _ Hh).
    destruct (Z.ltb_spec (char_page char) 0); [lia|]. rewrite Hn.
    unfold rect_within in *. cbn. lia.
  - destruct Hsize as [(Hone & _)|Hstd]; [contradiction|].
    rewrite (calculateOptimalLayout_multi _ Hmulti).
    assert (Ht : t = page256).
    { rewrite Forall_forall in Hstd. apply Hstd.
      eapply list_elem_of_lookup_2. exact Hpage. }
    subst t. pose proof (lookup_lt_Some _ _ _ Hpage) as Hlt.
    unfold updateChar, js_index. cbn [lay_positions lay_width lay_height].
    destruct (Z.ltb_spec (char_page char) 0); [lia|].
    rewrite list_lookup_imap, Hpage.
    unfold rect_within, page256, PADDING in *. cbn in *. lia.
Qed.

(** C2: on two 512 x 512 pages a glyph that lies inside page 1 is remapped to
    x = 658 on a canvas 514 wide and 256 high: outside the merged canvas,
    though on page 0. *)
Theorem remap_leaves_canvas_on_large_pages :
  let plan := calculateOptimalLayout [page512; page512] in
  let glyph := mkChar 65 0 "A" 50 50 0 0 50 15 400 400 1 in
  js_index [page512; page512] (char_page glyph) = Some page512 /\
  rect_within (tex_width page512) (tex_height page512) glyph /\
  fst (updateChar plan glyph) = mkChar 65 0 "A" 50 50 0 0 50 15 658 400 0 /\
  lay_width plan = 514 /\ lay_height plan = 256 /\
  ~ rect_within (lay_width plan) (lay_height plan) (fst (updateChar plan glyph)).
Proof.
  cbv zeta. split; [reflexivity|]. split.
  { unfold rect_within, page512. simpl. lia. }
  split; [reflexivity|]. split; [reflexivity|]. split; [reflexivity|].
  change (fst (updateChar (calculateOptimalLayout [page512; page512])
                 (mkChar 65 0 "A" 50 50 0 0 50 15 400 400 1)))
    with (mkChar 65 0 "A" 50 50 0 0 50 15 658 400 0).
  change (calculateOptimalLayout [page512; page512])
    with (mkTextureLayout 514 256 [mkPosition 0 0 256 256; mkPosition 258 0 256 256]).
  unfold rect_within. simpl. lia.
Qed.

(** ** Metrics adjuster: bias correction *)

(** On a number in the signed 32-bit range [>> 1] is floor division by 2. *)
Lemma js_shr_1_div (d : Z) : - 2 ^ 31 <= d < 2 ^ 31 -> js_shr d 1 = d / 2.
Proof.
  intros Hd. unfold js_shr, ToInt32.
  change (1 mod 32) with 1. rewrite Z.shiftr_div_pow2 by lia.
  rewrite Z.mod_small by lia. change (2 ^ 1) with 2. f_equal. lia.
Qed.

(** Two numbers that compare different are different. *)
Lemma float_neq (a b : float) :
  PrimFloat.eqb a b = false -> PrimFloat.eqb b b = true -> a <> b.
Proof. intros Hab Hbb Heq. rewrite Heq in Hab. congruence. Qed.

Lemma adjustChar_yoffset (pad : Z) (char : Char) :
  adjustChar pad char
  = with_yoffset char (char_yoffset char - toNumber pad - toNumber pad)%float.
Proof. reflexivity. Qed.

Lemma with_yoffset_fixed (char : Char) (yoffset : float) :
  with_yoffset char yoffset = char <-> yoffset = char_yoffset char.
Proof.
  destruct char. unfold with_yoffset. cbn. split.
  - intros [= ->]. reflexivity.
  - intros ->. reflexivity.
Qed.

Lemma map_fixed {A : Type} (f : A -> A) (l : list A) :
  map f l = l <-> Forall (fun x => f x = x) l.
Proof.
  induction l as [|x l IH]; cbn [map].
  - split; [constructor|reflexivity].
  - rewrite Forall_cons, <- IH. split.
    + intros [= Hx Hl]. split; assumption.
    + intros [-> ->]. reflexivity.
Qed.

Lemma adjustSingleFontData_Some (json : FontData) (font : OpenTypeFont) (df : DistanceField) :
  fd_distanceField json = Some df ->
  adjustSingleFontData json font =
    Some (mkFontData (fd_pages json)
            (map (adjustChar (js_shr (df_distanceRange df) 1)) (fd_chars json))
            (fd_face json)
            (withBase (fd_common json)
               (common_base (fd_common json)
                - toNumber (js_shr (df_distanceRange df) 1))%float)
            (fd_distanceField json) (fd_kernings json)
            (Some (metricsOf font)) (fd_styles json)).
Proof. intros Hdf. unfold adjustSingleFontData. rewrite Hdf. reflexivity. Qed.

(** [adjustSingleFont] writes the corrected document and the metrics file. *)
Lemma adjustSingleFont_writes (fontInfo : SdfFontInfo) (fs : FS)
    (json json' : FontData) (font : OpenTypeFont) :
  readFontJson fs (sfi_jsonPath fontInfo) = Some json ->
  opentype_load fs (sfi_fontPath fontInfo) = Some font ->
  adjustSingleFontData json font = Some json' ->
  adjustSingleFont fontInfo fs =
    Some [ (sfi_jsonPath fontInfo, FontJson json');
           (path_join (path_join (sfi_dstDir fontInfo) metricsSubDir)
              (sfi_fontName fontInfo ++ ".metrics.json"), MetricsJson (metricsOf font)) ].
Proof.
  intros Hjson Hfont Hadj. unfold adjustSingleFont.
  rewrite Hjson. cbn [mbind option_bind]. rewrite Hfont. cbn [mbind option_bind].
  rewrite Hadj. reflexivity.
Qed.

(** The glyphs after the family correction, whatever the baseline is. *)
Lemma adjustFontFamilyData_chars (json : FontData) (font : OpenTypeFont)
    (df : DistanceField) :
  fd_distanceField json = Some df ->
  fd_chars (adjustFontFamilyData json font)
  = map (adjustChar (js_shr (js_or (df_distanceRange df) 4) 1)) (fd_chars json).
Proof. intros Hdf. unfold adjustFontFamilyData. rewrite Hdf. reflexivity. Qed.

Lemma adjustFontFamilyData_base (json : FontData) (font : OpenTypeFont)
    (df : DistanceField) :
  fd_distanceField json = Some df ->
  common_base (fd_common (adjustFontFamilyData json font))
  = if js_truthy (common_base (fd_common json))
    then (common_base (fd_common json)
          - toNumber (js_shr (js_or (df_distanceRange df) 4) 1))%float
    else common_base (fd_common json).
Proof.
  intros Hdf. unfold adjustFontFamilyData. rewrite Hdf. cbn [fd_common].
  destruct (js_truthy (common_base (fd_common json))); reflexivity.
Qed.

(** C6 (as stated): in the family path a document with distance range 0 is
    corrected with the default range 4 (pad 2, not 0 >> 1 = 0), and a
    document with baseline 0 keeps its baseline instead of losing the pad.
    In both paths the yoffset loses the pad in two rounded subtractions,
    which for the yoffset -0.999996 and pad 2 is not the number
    -0.999996 - 4. *)
Lemma family_bias_correction_guards :
  js_shr 0 1 = 0 /\
  common_base (fd_common (adjustFontFamilyData (baselineDoc 40 0) (fontWith 2048)))
    = 38%float /\
  common_base (fd_common (adjustFontFamilyData (baselineDoc 40 0) (fontWith 2048)))
    <> (common_base (fd_common (baselineDoc 40 0)) - toNumber (js_shr 0 1))%float /\
  js_shr 4 1 = 2 /\
  common_base (fd_common (adjustFontFamilyData (baselineDoc 0 4) (fontWith 2048)))
    = 0%float /\
  common_base (fd_common (adjustFontFamilyData (baselineDoc 0 4) (fontWith 2048)))
    <> (common_base (fd_common (baselineDoc 0 4)) - toNumber (js_shr 4 1))%float /\
  (map char_yoffset <$> (fd_chars <$> adjustSingleFontData fractionalDoc (fontWith 2048)))
    = Some [(-0.999996 - 2 - 2)%float] /\
  (-0.999996 - 2 - 2)%float <> (-0.999996 - toNumber (2 * js_shr 4 1))%float.
Proof.
  repeat split; try reflexivity; apply float_neq; reflexivity.
Qed.

(** C6 (amended): with [pad = d >> 1] on the 32-bit value of the distance
    range [d] (floor of [d / 2] for [d] in the signed 32-bit range), the
    single-font correction replaces the baseline by [base - pad] and every
    glyph's yoffset by [(yoffset - pad) - pad], each subtraction a binary64
    operation, and changes no other glyph field.  The family correction
    takes the pad of [d || 4] (so of [d] itself when [d] is not 0), corrects
    every yoffset in the same way whatever the baseline is, and corrects the
    baseline unless it is falsy.  With range 4 and baseline 40 both give
    baseline 38 and turn yoffset 10 into 6. *)
Theorem bias_correction_subtracts_pad (json : FontData) (font : OpenTypeFont)
    (df : DistanceField) :
  fd_distanceField json = Some df ->
  let d := df_distanceRange df in
  let pad := js_shr d 1 in
  let familyPad := js_shr (js_or d 4) 1 in
  let base := common_base (fd_common json) in
  (- 2 ^ 31 <= d < 2 ^ 31 -> pad = d / 2) /\
  (d <> 0 -> familyPad = pad) /\
  (exists json',
      adjustSingleFontData json font = Some json' /\
      common_base (fd_common json') = (base - toNumber pad)%float /\
      fd_chars json' =
        map (fun c => with_yoffset c
                        (char_yoffset c - toNumber pad - toNumber pad)%float)
          (fd_chars json)) /\
  fd_chars (adjustFontFamilyData json font) =
    map (fun c => with_yoffset c
                    (char_yoffset c - toNumber familyPad - toNumber familyPad)%float)
      (fd_chars json) /\
  common_base (fd_common (adjustFontFamilyData json font))
    = (if js_truthy base then (base - toNumber familyPad)%float else base) /\
  (common_base (fd_common (baselineDoc 40 4)) = 40%float /\
   map char_yoffset (fd_chars (baselineDoc 40 4)) = [10%float] /\
   (common_base <$> (fd_common <$> adjustSingleFontData (baselineDoc 40 4) font))
     = Some 38%float /\
   (map char_yoffset <$> (fd_chars <$> adjustSingleFontData (baselineDoc 40 4) font))
     = Some [6%float] /\
   common_base (fd_common (adjustFontFamilyData (baselineDoc 40 4) font)) = 38%float /\
   map char_yoffset (fd_chars (adjustFontFamilyData (baselineDoc 40 4) font))
     = [6%float]).
Proof.
  intros Hdf d pad familyPad base. split; [apply js_shr_1_div|]. split.
  { intros Hd. unfold familyPad, pad, js_or.
    destruct (Z.eqb_spec d 0); [contradiction|reflexivity]. }
  split.
  { eexists. split; [apply (adjustSingleFontData_Some _ _ _ Hdf)|].
    split; reflexivity. }
  split; [apply (adjustFontFamilyData_chars _ _ _ Hdf)|].
  split; [apply (adjustFontFamilyData_base _ _ _ Hdf)|].
  repeat split.
Qed.

Lemma bias_correction_subtracts_pad_witness :
  (exists json',
      adjustSingleFontData (baselineDoc 40 4) (fontWith 2048) = Some json' /\
      common_base (fd_common json') = 38%float /\
      fd_chars json' = [with_yoffset (glyphAt 0 5 7) 6]) /\
  common_base (fd_common (adjustFontFamilyData (baselineDoc 40 4) (fontWith 2048)))
    = 38%float /\
  fd_chars (adjustFontFamilyData (baselineDoc 0 4) (fontWith 2048))
    = [with_yoffset (glyphAt 0 5 7) 6].
Proof.
  destruct (bias_correction_subtracts_pad (baselineDoc 40 4) (fontWith 2048)
              (mkDistanceField "msdf" 4) eq_refl)
    as (_ & _ & Hsingle & _ & Hbase & _).
  destruct (bias_correction_subtracts_pad (baselineDoc 0 4) (fontWith 2048)
              (mkDistanceField "msdf" 4) eq_refl)
    as (_ & _ & _ & Hchars & _).
  split; [exact Hsingle|]. split; [exact Hbase|exact Hchars].
Defined.

(** C7 (as stated): with distance range 1 the pad is 0 and a second
    application returns the document of the first unchanged; and with pad 2
    a document without glyphs whose baseline is 1e17 is also returned
    unchanged, because 1e17 - 2 rounds to 1e17. *)
Lemma bias_correction_can_be_idempotent :
  (exists once,
     adjustSingleFontData (baselineDoc 40 1) (fontWith 2048) = Some once /\
     adjustSingleFontData once (fontWith 2048) = Some once) /\
  js_shr 4 1 = 2 /\
  (exists once,
     adjustSingleFontData hugeBaselineDoc (fontWith 2048) = Some once /\
     adjustSingleFontData once (fontWith 2048) = Some once).
Proof.
  split; [eexists; split; reflexivity|].
  split; [reflexivity|]. eexists; split; reflexivity.
Qed.

(** C7 (amended): applying the correction to an already corrected document
    succeeds (nothing guards against it) and subtracts the pad again: once
    more from the baseline and twice more from every yoffset, in binary64
    arithmetic.  The result differs from the one of a single application
    exactly when one of these subtractions changes the value it is applied
    to. *)
Theorem bias_correction_not_idempotent (json : FontData) (font : OpenTypeFont)
    (df : DistanceField) :
  fd_distanceField json = Some df ->
  let pad := toNumber (js_shr (df_distanceRange df) 1) in
  exists once twice,
    adjustSingleFontData json font = Some once /\
    adjustSingleFontData once font = Some twice /\
    common_base (fd_common twice) = (common_base (fd_common once) - pad)%float /\
    fd_chars twice =
      map (fun c => with_yoffset c (char_yoffset c - pad - pad)%float) (fd_chars once) /\
    (twice = once <->
     (common_base (fd_common once) - pad)%float = common_base (fd_common once) /\
     Forall (fun c => (char_yoffset c - pad - pad)%float = char_yoffset c)
       (fd_chars once)).
Proof.
  intros Hdf pad.
  eexists. eexists. split; [apply (adjustSingleFontData_Some _ _ _ Hdf)|].
  split; [apply (adjustSingleFontData_Some _ _ df); exact Hdf|].
  split; [reflexivity|]. split; [reflexivity|].
  set (once := mkFontData _ (map _ (fd_chars json)) _ _ _ _ _ _).
  cbn [fd_pages fd_chars fd_face fd_common fd_distanceField fd_kernings fd_styles].
  fold pad. split.
  - intros Heq. split.
    + apply (f_equal (fun j => common_base (fd_common j))) in Heq. exact Heq.
    + apply (f_equal fd_chars) in Heq. cbn [fd_chars] in Heq.
      apply map_fixed in Heq. eapply Forall_impl; [exact Heq|].
      intros c Hc. cbn beta in Hc. rewrite adjustChar_yoffset in Hc.
      now apply with_yoffset_fixed in Hc.
  - intros [Hbase Hchars]. unfold once at 2. f_equal.
    + apply map_fixed. eapply Forall_impl; [exact Hchars|].
      intros c Hc. cbn beta in Hc. rewrite adjustChar_yoffset.
      now apply with_yoffset_fixed.
    + unfold withBase. cbn [common_lineHeight common_base common_scaleW
        common_scaleH common_pages common_packed]. fold pad.
      cbn [fd_common common_base withBase] in Hbase. rewrite Hbase.
      reflexivity.
Qed.

Lemma bias_correction_not_idempotent_witness :
  exists once twice,
    adjustSingleFontData (baselineDoc 40 4) (fontWith 2048) = Some once /\
    adjustSingleFontData once (fontWith 2048) = Some twice /\
    common_base (fd_common once) = 38%float /\
    common_base (fd_common twice) = 36%float /\
    twice <> once.
Proof.
  destruct (bias_correction_not_idempotent (baselineDoc 40 4) (fontWith 2048)
              (mkDistanceField "msdf" 4) eq_refl)
    as (once & twice & H1 & H2 & Hbase & _ & Hiff).
  assert (Honce : common_base (fd_common once) = 38%float)
    by (injection H1 as <-; reflexivity).
  exists once, twice. split; [exact H1|]. split; [exact H2|].
  split; [exact Honce|]. split; [rewrite Hbase, Honce; reflexivity|].
  intros Heq. apply Hiff in Heq. destruct Heq as [Heq _].
  revert Heq. rewrite Honce. apply float_neq; reflexivity.
Defined.

(** ** Strings and written files *)

Lemma append_inv_head (s a b : string) : s ++ a = s ++ b -> a = b.
Proof. induction s as [|c s IH]; cbn; [tauto|]. intros [= H]. auto. Qed.

Lemma string_app_assoc (a b c : string) : (a ++ b) ++ c = a ++ b ++ c.
Proof.
  induction a as [|x a IH]; [reflexivity|].
  change (String x ((a ++ b) ++ c) = String x (a ++ b ++ c)). now rewrite IH.
Qed.

Lemma string_app_nil_r (s : string) : s ++ "" = s.
Proof.
  induction s as [|c s IH]; [reflexivity|].
  change (String c (s ++ "") = String c s). now rewrite IH.
Qed.

Lemma rev_app_spec (s acc : string) : String.rev_app s acc = String.rev s ++ acc.
Proof.
  unfold String.rev. revert acc. induction s as [|c s IH]; intros acc; [reflexivity|].
  cbn [String.rev_app]. rewrite IH, (IH (String c "")), string_app_assoc. reflexivity.
Qed.

Lemma string_rev_app (a b : string) : String.rev (a ++ b) = String.rev b ++ String.rev a.
Proof.
  induction a as [|c a IH].
  - change ("" ++ b) with b. now rewrite string_app_nil_r.
  - change (String c a ++ b) with (String c (a ++ b)).
    unfold String.rev at 1 3. cbn [String.rev_app].
    rewrite !rev_app_spec, IH, string_app_assoc. reflexivity.
Qed.

Lemma string_rev_involutive (s : string) : String.rev (String.rev s) = s.
Proof.
  induction s as [|c s IH]; [reflexivity|].
  unfold String.rev at 2. cbn [String.rev_app]. rewrite rev_app_spec, string_rev_app, IH.
  reflexivity.
Qed.

Lemma string_length_app (a b : string) :
  String.length (a ++ b) = (String.length a + String.length b)%nat.
Proof.
  induction a as [|c a IH]; [reflexivity|].
  change (String c a ++ b) with (String c (a ++ b)). cbn [String.length].
  now rewrite IH.
Qed.

Lemma append_inv_tail (a b s : string) : a ++ s = b ++ s -> a = b.
Proof.
  intros H. apply (f_equal String.rev) in H. rewrite !string_rev_app in H.
  apply append_inv_head in H.
  rewrite <- (string_rev_involutive a), <- (string_rev_involutive b).
  now rewrite H.
Qed.

(** Files written one after the other: a path written once holds what was
    written to it, a path not written keeps its file. *)
Lemma commit_lookup_other (writes : Writes) (fs : FS) (p : string) :
  p ∉ map fst writes -> commit writes fs !! p = fs !! p.
Proof.
  unfold commit. revert fs. induction writes as [|[q g] writes IH]; intros fs Hp.
  - reflexivity.
  - cbn [map fst] in Hp. apply not_elem_of_cons in Hp as [Hne Hp].
    cbn. rewrite IH by exact Hp. now apply lookup_insert_ne.
Qed.

Lemma commit_lookup_written (writes : Writes) (fs : FS) (p : string) (f : File) :
  NoDup (map fst writes) -> (p, f) ∈ writes -> commit writes fs !! p = Some f.
Proof.
  unfold commit. revert fs. induction writes as [|[q g] writes IH]; intros fs Hnd Hin.
  - now apply elem_of_nil in Hin.
  - cbn [map fst] in Hnd. apply NoDup_cons in Hnd as [Hq Hnd].
    apply elem_of_cons in Hin as [[= -> ->]|Hin].
    + cbn. fold (commit writes (<[q:=g]> fs)).
      rewrite commit_lookup_other by exact Hq. apply lookup_insert_eq.
    + cbn. now apply IH.
Qed.

Lemma commit_snoc (writes : Writes) (w : string * File) (fs : FS) :
  commit (writes ++ [w])%list fs = <[fst w := snd w]> (commit writes fs).
Proof. unfold commit. rewrite foldl_app. reflexivity. Qed.

(** ** Metrics adjuster: family reconciliation *)

Lemma metricsIdentical_true (a b : FontMetrics) :
  metricsIdentical a b = true <-> a = b.
Proof.
  unfold metricsIdentical. rewrite !andb_true_iff, !Z.eqb_eq.
  destruct a, b. cbn. split.
  - intros [[[-> ->] ->] ->]. reflexivity.
  - intros [= -> -> -> ->]. tauto.
Qed.

(** A per-style metrics path is never the shared family path. *)
Lemma style_metrics_path_not_shared (metricsDir family style : string) :
  path_join metricsDir (family ++ "-" ++ style ++ ".metrics.json")
  <> path_join metricsDir (family ++ ".metrics.json").
Proof.
  unfold path_join. intros H.
  apply append_inv_head in H. change ("/" ++ ?x) with (String "/" x) in H.
  cbn in H. injection H as H. apply append_inv_head in H. discriminate.
Qed.

Lemma load_all_styles (fs : FS) (styles : list StyleInfo) (fonts : list OpenTypeFont) :
  Forall2 (fun style font => opentype_load fs (si_fontPath style) = Some font) styles fonts ->
  mapM (fun style =>
          styleFont ← opentype_load fs (si_fontPath style);
          Some (si_fontStyle style, metricsOf styleFont)) styles
  = Some (zip_with (fun style font => (si_fontStyle style, metricsOf font)) styles fonts).
Proof.
  induction 1 as [|style font styles fonts Hload _ IH]; [reflexivity|].
  cbn [mapM zip_with]. rewrite Hload. cbn [mbind option_bind].
  rewrite IH. reflexivity.
Qed.

Lemma all_identical_iff (firstMetrics : FontMetrics) (styles : list StyleInfo)
    (fonts : list OpenTypeFont) :
  length styles = length fonts ->
  forallb (fun item : string * FontMetrics => metricsIdentical (snd item) firstMetrics)
    (zip_with (fun style font => (si_fontStyle style, metricsOf font)) styles fonts) = true
  <-> Forall (fun font => metricsOf font = firstMetrics) fonts.
Proof.
  revert fonts. induction styles as [|s styles IH]; intros [|f fonts] Hlen;
    try discriminate.
  - cbn. split; [constructor|reflexivity].
  - cbn [zip_with forallb snd]. rewrite andb_true_iff, metricsIdentical_true.
    rewrite IH by (cbn in Hlen; lia). rewrite Forall_cons. reflexivity.
Qed.

Lemma style_metrics_path_inj (metricsDir family style style' : string) :
  path_join metricsDir (family ++ "-" ++ style ++ ".metrics.json")
  = path_join metricsDir (family ++ "-" ++ style' ++ ".metrics.json") ->
  style = style'.
Proof.
  unfold path_join. intros H.
  do 4 apply append_inv_head in H. now apply append_inv_tail in H.
Qed.

(** C10 (as stated): a family whose styles Regular, Regular and Bold have
    differing metrics gets three metrics writes, but the two Regular styles
    are written to the same file: two metrics files result for three
    styles. *)
Lemma adjustFontFamily_repeated_style_label :
  exists writes,
    adjustFontFamily repeatedLabelInfo repeatedLabelFs = Some writes /\
    map fst writes =
      [ "font-dst/metrics/Ubuntu-Regular.metrics.json";
        "font-dst/metrics/Ubuntu-Regular.metrics.json";
        "font-dst/metrics/Ubuntu-Bold.metrics.json";
        "font-dst/Ubuntu.msdf.json" ] /\
    length (ffi_styles repeatedLabelInfo) = 3%nat /\
    length (readdirSync (commit writes repeatedLabelFs) "font-dst/metrics") = 2%nat.
Proof.
  eexists. split; [reflexivity|]. split; [reflexivity|].
  split; [reflexivity|]. vm_compute. reflexivity.
Qed.

(** C10 (amended): for a family with a first style whose document and font
    files can be read, the adjuster embeds the first style's metrics in the
    shared document; when every style's metrics equal the first style's it
    writes exactly one metrics file, the shared family file; when some
    style's metrics differ it issues one metrics write per style, named by
    family and style, and none to the shared path.  When the style labels
    are pairwise distinct these writes go to pairwise distinct files, so
    that after the run every style has its own metrics file holding its
    metrics (the document being another file). *)
Theorem adjustFontFamily_metrics_files (fontInfo : FontFamilyInfo) (fs : FS)
    (json : FontData) (firstStyle : StyleInfo) (otherStyles : list StyleInfo)
    (firstFont : OpenTypeFont) (otherFonts : list OpenTypeFont) :
  readFontJson fs (ffi_jsonPath fontInfo) = Some json ->
  ffi_styles fontInfo = firstStyle :: otherStyles ->
  Forall2 (fun style font => opentype_load fs (si_fontPath style) = Some font)
    (firstStyle :: otherStyles) (firstFont :: otherFonts) ->
  let metricsDir := path_join (ffi_dstDir fontInfo) metricsSubDir in
  let shared := path_join metricsDir (ffi_fontFamily fontInfo ++ ".metrics.json") in
  let stylePath := fun style : StyleInfo =>
    path_join metricsDir
      (ffi_fontFamily fontInfo ++ "-" ++ si_fontStyle style ++ ".metrics.json") in
  exists (metricsWrites : Writes) (json' : FontData),
    adjustFontFamily fontInfo fs
      = Some (metricsWrites ++ [(ffi_jsonPath fontInfo, FontJson json')])%list /\
    fd_lightningMetrics json' = Some (metricsOf firstFont) /\
    (Forall (fun font => metricsOf font = metricsOf firstFont) otherFonts ->
       metricsWrites = [(shared, MetricsJson (metricsOf firstFont))]) /\
    (~ Forall (fun font => metricsOf font = metricsOf firstFont) otherFonts ->
       metricsWrites =
         zip_with (fun style font => (stylePath style, MetricsJson (metricsOf font)))
           (firstStyle :: otherStyles) (firstFont :: otherFonts) /\
       length metricsWrites = length (ffi_styles fontInfo) /\
       ~ In shared (map fst metricsWrites) /\
       (NoDup (map si_fontStyle (firstStyle :: otherStyles)) ->
          NoDup (map fst metricsWrites) /\
          forall (i : nat) (style : StyleInfo) (font : OpenTypeFont),
            (firstStyle :: otherStyles) !! i = Some style ->
            (firstFont :: otherFonts) !! i = Some font ->
            ffi_jsonPath fontInfo <> stylePath style ->
            commit (metricsWrites ++ [(ffi_jsonPath fontInfo, FontJson json')])%list fs
              !! stylePath style
            = Some (MetricsJson (metricsOf font)))).
Proof.
  intros Hjson Hstyles Hload metricsDir shared stylePath.
  pose proof (Forall2_length _ _ _ Hload) as Hlen.
  pose proof (load_all_styles _ _ _ Hload) as Hall.
  assert (Hfirst : opentype_load fs (si_fontPath firstStyle) = Some firstFont)
    by (inversion Hload; assumption).
  unfold adjustFontFamily. rewrite Hjson. cbn [mbind option_bind].
  rewrite Hstyles, Hfirst. cbn [mbind option_bind]. rewrite Hall.
  cbn [mbind option_bind zip_with head fmap option_fmap option_map snd forallb].
  fold metricsDir.
  assert (Hself : metricsIdentical (metricsOf firstFont) (metricsOf firstFont) = true)
    by (now apply metricsIdentical_true).
  rewrite Hself. cbn [andb].
  pose proof (all_identical_iff (metricsOf firstFont) otherStyles otherFonts) as Hiff.
  cbn in Hlen. specialize (Hiff ltac:(lia)).
  destruct (forallb _ (zip_with _ otherStyles otherFonts)) eqn:Hid.
  - eexists. eexists. split; [reflexivity|]. split; [reflexivity|].
    split; [reflexivity|]. intros Hne. exfalso. apply Hne. now apply Hiff.
  - eexists. eexists. split; [reflexivity|]. split; [reflexivity|].
    split.
    { intros Hsame. apply Hiff in Hsame. discriminate. }
    intros _.
    assert (Hwrites :
      map (fun item : string * FontMetrics =>
             (path_join metricsDir
                (ffi_fontFamily fontInfo ++ "-" ++ fst item ++ ".metrics.json"),
              MetricsJson (snd item)))
        ((si_fontStyle firstStyle, metricsOf firstFont)
         :: zip_with (fun style font => (si_fontStyle style, metricsOf font))
              otherStyles otherFonts)
      = zip_with (fun style font => (stylePath style, MetricsJson (metricsOf font)))
          (firstStyle :: otherStyles) (firstFont :: otherFonts)).
    { cbn [map zip_with fst snd]. f_equal.
      clear. revert otherFonts.
      induction otherStyles as [|s l IH]; intros [|f fonts]; cbn; try reflexivity.
      now rewrite IH. }
    rewrite Hwrites.
    assert (Hpaths :
      map fst (zip_with (fun style font => (stylePath style, MetricsJson (metricsOf font)))
                 (firstStyle :: otherStyles) (firstFont :: otherFonts))
      = map stylePath (firstStyle :: otherStyles)).
    { assert (Hl : length (firstStyle :: otherStyles) = length (firstFont :: otherFonts))
        by (cbn; lia).
      clear -Hl. revert Hl. generalize (firstFont :: otherFonts).
      induction (firstStyle :: otherStyles) as [|s l IH]; intros [|f fonts] Hl;
        cbn in *; try reflexivity; try lia.
      f_equal. apply IH. lia. }
    split; [reflexivity|]. split.
    { rewrite length_zip_with. cbn. lia. }
    split.
    { rewrite Hpaths. intros Hin. apply in_map_iff in Hin.
      destruct Hin as (style & Hpath & _).
      now apply style_metrics_path_not_shared in Hpath. }
    intros Hnodup.
    assert (Hnd : NoDup (map stylePath (firstStyle :: otherStyles))).
    { rewrite <- (map_map si_fontStyle
                    (fun label => path_join metricsDir
                       (ffi_fontFamily fontInfo ++ "-" ++ label ++ ".metrics.json"))).
      apply NoDup_fmap_2; [|exact Hnodup].
      intros a b. apply style_metrics_path_inj. }
    split; [rewrite Hpaths; exact Hnd|].
    intros i style font Hstyle Hfont Hdoc.
    rewrite commit_snoc. cbn [fst snd].
    rewrite lookup_insert_ne by exact Hdoc.
    apply commit_lookup_written; [rewrite Hpaths; exact Hnd|].
    apply list_elem_of_lookup. exists i.
    rewrite lookup_zip_with, Hstyle. cbn [mbind option_bind].
    rewrite Hfont. reflexivity.
Qed.

(** The reconciliation scenario: three styles with metrics
    1900 / -500 / 100 / 2048 give one shared file; a Bold font with 1000
    units per em gives three per-style files, of which the Bold one holds
    the Bold metrics. *)
Lemma adjustFontFamily_metrics_files_witness :
  (exists json',
     adjustFontFamily familyInfo (familyFs 2048) =
       Some [ ("font-dst/metrics/Ubuntu.metrics.json",
               MetricsJson (mkFontMetrics 1900 (-500) 100 2048));
              ("font-dst/Ubuntu.msdf.json", FontJson json') ]) /\
  (exists metricsWrites json',
     adjustFontFamily familyInfo (familyFs 1000) =
       Some (metricsWrites ++ [("font-dst/Ubuntu.msdf.json", FontJson json')])%list /\
     metricsWrites =
       [ ("font-dst/metrics/Ubuntu-Regular.metrics.json",
          MetricsJson (mkFontMetrics 1900 (-500) 100 2048));
         ("font-dst/metrics/Ubuntu-Bold.metrics.json",
          MetricsJson (mkFontMetrics 1900 (-500) 100 1000));
         ("font-dst/metrics/Ubuntu-Italic.metrics.json",
          MetricsJson (mkFontMetrics 1900 (-500) 100 2048)) ] /\
     fd_lightningMetrics json' = Some (mkFontMetrics 1900 (-500) 100 2048) /\
     commit (metricsWrites ++ [("font-dst/Ubuntu.msdf.json", FontJson json')])%list
       (familyFs 1000) !! "font-dst/metrics/Ubuntu-Bold.metrics.json"
     = Some (MetricsJson (mkFontMetrics 1900 (-500) 100 1000))).
Proof.
  split.
  - destruct (adjustFontFamily_metrics_files familyInfo (familyFs 2048)
                (baselineDoc 40 4)
                (mkStyleInfo "Regular" "font-src/Ubuntu-Regular.ttf" 0 (Some 1))
                [ mkStyleInfo "Bold" "font-src/Ubuntu-Bold.ttf" 1 (Some 1);
                  mkStyleInfo "Italic" "font-src/Ubuntu-Italic.ttf" 2 (Some 1) ]
                (fontWith 2048) [fontWith 2048; fontWith 2048])
      as (writes & json' & Hrun & _ & Hsame & _).
    + reflexivity.
    + reflexivity.
    + repeat constructor.
    + exists json'. rewrite Hrun, Hsame by (repeat constructor). reflexivity.
  - destruct (adjustFontFamily_metrics_files familyInfo (familyFs 1000)
                (baselineDoc 40 4)
                (mkStyleInfo "Regular" "font-src/Ubuntu-Regular.ttf" 0 (Some 1))
                [ mkStyleInfo "Bold" "font-src/Ubuntu-Bold.ttf" 1 (Some 1);
                  mkStyleInfo "Italic" "font-src/Ubuntu-Italic.ttf" 2 (Some 1) ]
                (fontWith 2048) [fontWith 1000; fontWith 2048])
      as (writes & json' & Hrun & Hmetrics & _ & Hdiff).
    + reflexivity.
    + reflexivity.
    + repeat constructor.
    + exists writes, json'. split; [exact Hrun|].
      destruct Hdiff as (Hwrites & _ & _ & Hfiles).
      { intros Hall. inversion Hall as [|? ? Hbold _]. discriminate Hbold. }
      split; [rewrite Hwrites; reflexivity|]. split; [exact Hmetrics|].
      destruct Hfiles as [_ Hfile].
      { apply (bool_decide_unpack _). vm_compute. reflexivity. }
      apply (Hfile 1%nat (mkStyleInfo "Bold" "font-src/Ubuntu-Bold.ttf" 1 (Some 1))
               (fontWith 1000)); [reflexivity|reflexivity|].
      vm_compute. discriminate.
Defined.

(** ** Family aggregator: style order *)

Lemma sort_insert_perm {A : Type} (cmp : A -> A -> Z) (x : A) (l : list A) :
  Permutation (x :: l) (sort_insert cmp x l).
Proof.
  induction l as [|y l IH]; cbn; [reflexivity|].
  destruct (cmp x y <? 0); [reflexivity|].
  rewrite perm_swap. now constructor.
Qed.

Lemma array_sort_perm {A : Type} (cmp : A -> A -> Z) (arr : list A) :
  Permutation arr (array_sort cmp arr).
Proof.
  unfold array_sort.
  enough (H : forall acc, Permutation (acc ++ arr)
                            (fold_left (fun sorted x => sort_insert cmp x sorted) arr acc))
    by apply (H []).
  induction arr as [|x arr IH]; intros acc; cbn.
  - now rewrite app_nil_r.
  - rewrite <- IH. rewrite <- (sort_insert_perm cmp x acc).
    symmetry. apply Permutation_middle.
Qed.

Section StyleOrder.
Variable localeCompare : string -> string -> Z.

(** The collation is a consistent comparator. *)
Hypothesis localeCompare_antisym :
  forall a b, 0 <= localeCompare a b -> localeCompare b a <= 0.
Hypothesis localeCompare_trans :
  forall a b c, localeCompare a b <= 0 -> localeCompare b c <= 0 ->
                localeCompare a c <= 0.

(** A Regular entry goes to the front. *)
Lemma sort_insert_regular (x : FontEntry) (sorted : list FontEntry) :
  regularEntry x -> sort_insert (compareFonts localeCompare) x sorted = x :: sorted.
Proof.
  intros Hx. destruct sorted as [|y rest]; [reflexivity|].
  cbn. unfold compareFonts. rewrite Hx. reflexivity.
Qed.

(** Another entry passes every Regular entry. *)
Lemma sort_insert_passes_regulars (x : FontEntry) (regulars others : list FontEntry) :
  otherEntry x -> Forall regularEntry regulars ->
  sort_insert (compareFonts localeCompare) x (regulars ++ others)%list
  = (regulars ++ sort_insert (compareFonts localeCompare) x others)%list.
Proof.
  intros Hx. induction 1 as [|y l Hy _ IH]; [reflexivity|].
  cbn. unfold compareFonts at 1. rewrite Hx, Hy. cbn. now rewrite IH.
Qed.

(** Among the entries that are not Regular, insertion keeps the alphabetical
    order. *)
Lemma sort_insert_alphabetical (x : FontEntry) (others : list FontEntry) :
  otherEntry x -> Forall otherEntry others -> StronglySorted (alphabetical localeCompare) others ->
  StronglySorted (alphabetical localeCompare) (sort_insert (compareFonts localeCompare) x others) /\
  Forall otherEntry (sort_insert (compareFonts localeCompare) x others).
Proof.
  intros Hx Hothers Hsorted.
  induction Hsorted as [|y l Hl IH Hy]; cbn.
  - split; repeat constructor. exact Hx.
  - inversion Hothers as [|? ? Hoy Hol]; subst.
    destruct (IH Hol) as [IHs IHo].
    unfold compareFonts at 1. unfold compareFonts at 2.
    rewrite Hx, Hoy.
    destruct (Z.ltb_spec (localeCompare (fe_style x) (fe_style y)) 0) as [Hlt|Hge].
    + split; [|constructor; assumption].
      constructor; [constructor; assumption|].
      constructor; [unfold alphabetical; lia|].
      eapply Forall_impl; [exact Hy|]. intros z Hz. unfold alphabetical in *.
      apply (localeCompare_trans _ (fe_style y)); [lia|exact Hz].
    + split; [|constructor; assumption].
      constructor; [exact IHs|].
      rewrite <- (sort_insert_perm (compareFonts localeCompare) x l).
      constructor; [|exact Hy].
      unfold alphabetical. now apply localeCompare_antisym.
Qed.

(** The shape of the array after any number of insertions. *)
Lemma array_sort_shape (fonts acc_regulars acc_others : list FontEntry) :
  Forall regularEntry acc_regulars -> Forall otherEntry acc_others ->
  StronglySorted (alphabetical localeCompare) acc_others ->
  exists regulars others,
    fold_left (fun sorted x => sort_insert (compareFonts localeCompare) x sorted)
      fonts (acc_regulars ++ acc_others)%list = (regulars ++ others)%list /\
    Forall regularEntry regulars /\ Forall otherEntry others /\
    StronglySorted (alphabetical localeCompare) others.
Proof.
  revert acc_regulars acc_others.
  induction fonts as [|x fonts IH]; intros rs os Hrs Hos Hsorted; cbn.
  - exists rs, os. auto.
  - destruct (isRegular (fe_style x)) eqn:Hx.
    + rewrite sort_insert_regular by exact Hx.
      apply (IH (x :: rs) os); [constructor|..]; assumption.
    + rewrite sort_insert_passes_regulars by assumption.
      destruct (sort_insert_alphabetical x os Hx Hos Hsorted) as [Hs Ho].
      apply IH; assumption.
Qed.
End StyleOrder.

(** C8: for a collation that is a consistent comparator, the sorted list is
    a rearrangement of the family's styles in which the entries labelled
    Regular (in any letter case) come first and all other entries follow in
    alphabetical order; so a Regular style, when there is one, is first.
    For Bold, Regular, Italic the order is Regular, Bold, Italic. *)
Theorem sortFonts_regular_first_then_alphabetical
    (localeCompare : string -> string -> Z) (fonts : list FontEntry) :
  (forall a b, 0 <= localeCompare a b -> localeCompare b a <= 0) ->
  (forall a b c, localeCompare a b <= 0 -> localeCompare b c <= 0 ->
                 localeCompare a c <= 0) ->
  (exists regulars others,
      sortFonts localeCompare fonts = (regulars ++ others)%list /\
      Permutation fonts (regulars ++ others) /\
      Forall regularEntry regulars /\
      Forall otherEntry others /\
      StronglySorted (alphabetical localeCompare) others) /\
  (Exists regularEntry fonts ->
   exists first rest,
     sortFonts localeCompare fonts = first :: rest /\ regularEntry first) /\
  (forall bold regular italic : FontEntry,
      fe_style bold = "Bold" -> fe_style regular = "Regular" ->
      fe_style italic = "Italic" ->
      0 <= localeCompare "Italic" "Bold" ->
      sortFonts localeCompare [bold; regular; italic] = [regular; bold; italic]).
Proof.
  intros Hanti Htrans.
  assert (Hshape : exists regulars others,
      sortFonts localeCompare fonts = (regulars ++ others)%list /\
      Permutation fonts (regulars ++ others) /\
      Forall regularEntry regulars /\
      Forall otherEntry others /\
      StronglySorted (alphabetical localeCompare) others).
  { destruct (array_sort_shape localeCompare Hanti Htrans fonts [] [])
      as (rs & os & Heq & Hrs & Hos & Hsorted); try constructor.
    exists rs, os. unfold sortFonts, array_sort. cbn [app] in Heq.
    rewrite Heq. repeat split; try assumption.
    rewrite <- Heq. apply array_sort_perm. }
  split; [exact Hshape|]. split.
  - intros Hex. destruct Hshape as (rs & os & Heq & Hperm & Hrs & Hos & _).
    destruct rs as [|first rs].
    + exfalso. apply Exists_exists in Hex. destruct Hex as (f & Hf & Hreg).
      cbn [app] in Hperm. rewrite Forall_forall in Hos.
      assert (Hf' : f ∈ os) by (rewrite <- Hperm; exact Hf).
      pose proof (Hos f Hf') as Hother. unfold regularEntry, otherEntry in *.
      congruence.
    + exists first, (rs ++ os)%list. split; [exact Heq|].
      now inversion Hrs.
  - intros bold regular italic Hb Hr Hi Hcmp.
    assert (E1 : compareFonts localeCompare regular bold = -1).
    { unfold compareFonts. rewrite Hr. reflexivity. }
    assert (E2 : compareFonts localeCompare italic regular = 1).
    { unfold compareFonts. rewrite Hi, Hr. reflexivity. }
    assert (E3 : compareFonts localeCompare italic bold = localeCompare "Italic" "Bold").
    { unfold compareFonts. rewrite Hi, Hb. reflexivity. }
    unfold sortFonts, array_sort. cbn [fold_left sort_insert].
    rewrite E1. cbn [Z.ltb Z.compare sort_insert]. rewrite E2.
    cbn [Z.ltb Z.compare sort_insert]. rewrite E3.
    destruct (Z.ltb_spec (localeCompare "Italic" "Bold") 0); [lia|reflexivity].
Qed.

Lemma compareStrings_antisym (a b : string) :
  0 <= compareStrings a b -> compareStrings b a <= 0.
Proof.
  unfold compareStrings. rewrite (String.compare_antisym b a).
  destruct (String.compare a b); cbn; lia.
Qed.

Lemma compareStrings_trans (a b c : string) :
  compareStrings a b <= 0 -> compareStrings b c <= 0 -> compareStrings a c <= 0.
Proof.
  unfold compareStrings.
  destruct (String.compare a b) eqn:Hab; [| |lia].
  - apply String.compare_eq_iff in Hab. subst b. tauto.
  - destruct (String.compare b c) eqn:Hbc; [| |lia]; intros _ _.
    + apply String.compare_eq_iff in Hbc. subst c. rewrite Hab. lia.
    + assert (Hac : String.compare a c = Lt).
      { pose proof (@StrictOrder_Transitive _ _ String_as_OT.lt_strorder a b c) as Ht.
        apply Ht; assumption. }
      rewrite Hac. lia.
Qed.

(** With the code-unit order as collation: Bold, Regular, Italic and a
    second, lower-case regular. *)
Lemma sortFonts_regular_first_then_alphabetical_witness :
  (exists first rest,
     sortFonts compareStrings
       [ mkFontEntry "font-src/U-B.ttf" "Bold" "U-B.ttf";
         mkFontEntry "font-src/U-R.ttf" "Regular" "U-R.ttf";
         mkFontEntry "font-src/U-I.ttf" "Italic" "U-I.ttf" ] = first :: rest /\
     regularEntry first) /\
  sortFonts compareStrings
    [ mkFontEntry "font-src/U-B.ttf" "Bold" "U-B.ttf";
      mkFontEntry "font-src/U-R.ttf" "Regular" "U-R.ttf";
      mkFontEntry "font-src/U-I.ttf" "Italic" "U-I.ttf" ]
  = [ mkFontEntry "font-src/U-R.ttf" "Regular" "U-R.ttf";
      mkFontEntry "font-src/U-B.ttf" "Bold" "U-B.ttf";
      mkFontEntry "font-src/U-I.ttf" "Italic" "U-I.ttf" ].
Proof.
  destruct (sortFonts_regular_first_then_alphabetical compareStrings
              [ mkFontEntry "font-src/U-B.ttf" "Bold" "U-B.ttf";
                mkFontEntry "font-src/U-R.ttf" "Regular" "U-R.ttf";
                mkFontEntry "font-src/U-I.ttf" "Italic" "U-I.ttf" ]
              compareStrings_antisym compareStrings_trans)
    as (_ & Hfirst & Hexample).
  split.
  - apply Hfirst. apply Exists_cons_tl, Exists_cons_hd. reflexivity.
  - apply Hexample; try reflexivity. vm_compute. discriminate.
Defined.

(** ** Family aggregator: page numbering *)

(** The page-range string of a style entry. *)
Lemma styleJson_pageRange (style : StyleInfo) (c : Z) :
  si_pageCount style = Some c ->
  (c = 1 -> sj_pageRange (styleJson style) = pretty (si_pageIndex style)) /\
  (1 < c -> sj_pageRange (styleJson style) =
            pretty (si_pageIndex style) ++ "-" ++ pretty (si_pageIndex style + c - 1)).
Proof.
  intros Hc. unfold styleJson. cbn [sj_pageRange]. rewrite Hc. split; intros H.
  - subst c. reflexivity.
  - destruct (Z.ltb_spec 1 c); [reflexivity|lia].
Qed.

Lemma copyToFamilyPage_pages (fontDstDir familyName fieldType src : string)
    (st st' : FamilyState) :
  copyToFamilyPage fontDstDir familyName fieldType src st = Some st' ->
  st_globalPageIndex st' = st_globalPageIndex st + 1 /\
  length (st_familyPngPaths st') = S (length (st_familyPngPaths st)) /\
  st_styleInfos st' = st_styleInfos st.
Proof.
  unfold copyToFamilyPage. destruct (copyFileSync _ _ _) as [fs1|]; [|discriminate].
  cbn. intros [= <-]. cbn. rewrite length_app. cbn. repeat split; lia.
Qed.

Lemma copyPaginated_pages (fontDstDir familyName fieldType : string)
    (paginatedFiles : list string) (st st' : FamilyState) :
  copyPaginated fontDstDir familyName fieldType paginatedFiles st = Some st' ->
  st_globalPageIndex st' = st_globalPageIndex st + Z.of_nat (length paginatedFiles) /\
  length (st_familyPngPaths st') =
    (length (st_familyPngPaths st) + length paginatedFiles)%nat /\
  st_styleInfos st' = st_styleInfos st.
Proof.
  revert st. induction paginatedFiles as [|file rest IH]; intros st; cbn.
  - intros [= <-]. repeat split; lia.
  - destruct (copyToFamilyPage _ _ _ _ st) as [st1|] eqn:Hcopy; [|discriminate].
    cbn. intros Hrest. apply copyToFamilyPage_pages in Hcopy.
    apply IH in Hrest. destruct Hcopy as (Hg1 & Hlen1 & Hinfos1).
    destruct Hrest as (Hg & Hlen & Hinfos).
    rewrite Hg, Hg1, Hlen, Hlen1, Hinfos, Hinfos1. repeat split; lia.
Qed.

(** One step of a computation in the option monad: name the result of the
    first call, dismiss the case where it throws. *)
Ltac option_step x H :=
  match goal with
  | |- (?m ≫= _) = Some _ -> _ =>
      destruct m as [x|] eqn:H; cbn [mbind option_bind];
      [|let E := fresh in intros E; discriminate E]
  end.

(** One pass of the second loop: the style is recorded at the current global
    page index; the index advances by the number of family pages created for
    it, while the recorded page count is 1 when none was created. *)
Lemma relabelStyle_pages (fontDstDir familyName fieldType : string)
    (i : nat) (font : FontEntry) (st st' : FamilyState) :
  (i < length (st_styleInfos st))%nat ->
  relabelStyle fontDstDir familyName fieldType i font st = Some st' ->
  exists created : nat,
    st_globalPageIndex st' = st_globalPageIndex st + Z.of_nat created /\
    length (st_familyPngPaths st') = (length (st_familyPngPaths st) + created)%nat /\
    st_styleInfos st' !! i =
      Some (mkStyleInfo (fe_style font) (fe_path font) (st_globalPageIndex st)
              (Some (if (created =? 0)%nat then 1 else Z.of_nat created))).
Proof.
  intros Hi. unfold relabelStyle.
  set (paginatedFiles := array_sort compareStrings _).
  destruct (0 <? length paginatedFiles)%nat eqn:Hpag.
  - option_step st1 Hcopy. option_step fs2 Hu1. option_step fs3 Hu2.
    option_step fs4 Hu3. intros [= <-].
    apply copyPaginated_pages in Hcopy. destruct Hcopy as (Hg & Hlen & Hinfos).
    exists (length paginatedFiles). cbn.
    apply Nat.ltb_lt in Hpag.
    split; [exact Hg|]. split; [exact Hlen|].
    rewrite Hinfos, list_lookup_insert_eq by exact Hi.
    destruct (Nat.eqb_spec (length paginatedFiles) 0); [lia|reflexivity].
  - destruct (existsSync (st_fs st) _).
    + option_step st1 Hcopy. option_step fs2 Hu1. option_step fs3 Hu2.
      option_step fs4 Hu3. intros [= <-].
      apply copyToFamilyPage_pages in Hcopy. destruct Hcopy as (Hg & Hlen & Hinfos).
      exists 1%nat. cbn. split; [exact Hg|]. split; [lia|].
      rewrite Hinfos, list_lookup_insert_eq by exact Hi. reflexivity.
    + cbn [mbind option_bind].
      option_step fs2 Hu1. option_step fs3 Hu2. option_step fs4 Hu3.
      intros [= <-].
      exists 0%nat. cbn. split; [lia|]. split; [lia|].
      rewrite list_lookup_insert_eq by exact Hi. reflexivity.
Qed.

(** C9: a family whose directory holds the Regular style twice (one texture
    per font).  The second Regular entry finds its image already consumed,
    creates no family page and is still recorded with one page at index 1;
    Bold then starts at index 1 as well: the ranges are not contiguous and
    two of them overlap. *)
Theorem generateFontFamily_duplicate_style_overlaps :
  sortFonts compareStrings duplicateStyleFonts =
    [ mkFontEntry "font-src/Ubuntu-Regular.ttf" "Regular" "Ubuntu-Regular.ttf";
      mkFontEntry "font-src/Ubuntu-Regular.otf" "Regular" "Ubuntu-Regular.otf";
      mkFontEntry "font-src/Ubuntu-Bold.ttf" "Bold" "Ubuntu-Bold.ttf" ] /\
  duplicateStyleRun =
    Some (Some (mkFontFamilyInfo "Ubuntu" msdf
      [ mkStyleInfo "Regular" "font-src/Ubuntu-Regular.ttf" 0 (Some 1);
        mkStyleInfo "Regular" "font-src/Ubuntu-Regular.otf" 1 (Some 1);
        mkStyleInfo "Bold" "font-src/Ubuntu-Bold.ttf" 1 (Some 1) ]
      "font-dst/Ubuntu.msdf.json"
      [ "font-dst/Ubuntu.msdf_0.png"; "font-dst/Ubuntu.msdf_1.png" ]
      "font-dst")) /\
  ~ contiguous_from 0
      [ mkStyleInfo "Regular" "font-src/Ubuntu-Regular.ttf" 0 (Some 1);
        mkStyleInfo "Regular" "font-src/Ubuntu-Regular.otf" 1 (Some 1);
        mkStyleInfo "Bold" "font-src/Ubuntu-Bold.ttf" 1 (Some 1) ] /\
  ranges_overlap
    (mkStyleInfo "Regular" "font-src/Ubuntu-Regular.otf" 1 (Some 1))
    (mkStyleInfo "Bold" "font-src/Ubuntu-Bold.ttf" 1 (Some 1)).
Proof.
  split; [vm_compute; reflexivity|].
  split; [vm_compute; reflexivity|].
  split.
  - cbn. intros (_ & c0 & [= <-] & _ & c1 & [= <-] & Hbold & _). lia.
  - exists 1, 1, 1. cbn. repeat split; lia.
Qed.

(** * Further properties of the code *)

(** ** Layout planner and remapper *)

(** X1: whatever the page sizes, a plan has one placement per page, every
    placement lies inside the canvas, and an earlier placement ends before a
    later one begins. *)
Theorem calculateOptimalLayout_plan_invariant (textures : list TextureSize) :
  let plan := calculateOptimalLayout textures in
  length (lay_positions plan) = length textures /\
  (forall (i : nat) (p : Position),
      lay_positions plan !! i = Some p -> position_in_canvas plan p) /\
  (forall (i j : nat) (p q : Position),
      (i < j)%nat ->
      lay_positions plan !! i = Some p -> lay_positions plan !! j = Some q ->
      left_of p q).
Proof.
  cbv zeta. split; [apply calculateOptimalLayout_length|]. split.
  - apply placements_within_canvas.
  - apply placements_left_to_right.
Qed.

(** X2: for any number of pages other than one the plan depends on the
    number of pages only: the canvas is [258 n - 2] wide and 256 high, and
    two inputs of the same length get the same plan. *)
Theorem calculateOptimalLayout_depends_on_count (a b : list TextureSize) :
  length a = length b -> length a <> 1%nat ->
  calculateOptimalLayout a = calculateOptimalLayout b /\
  lay_width (calculateOptimalLayout a) = 258 * Z.of_nat (length a) - 2 /\
  lay_height (calculateOptimalLayout a) = 256.
Proof.
  intros Hlen Hmulti.
  rewrite (calculateOptimalLayout_multi a Hmulti).
  rewrite (calculateOptimalLayout_multi b) by congruence.
  cbn [lay_width lay_height]. rewrite Hlen. unfold PADDING. split; [|lia].
  f_equal.
  rewrite (imap_seq_0 a (fun j => mkPosition (Z.of_nat j * (256 + 2)) 0 256 256)).
  rewrite (imap_seq_0 b (fun j => mkPosition (Z.of_nat j * (256 + 2)) 0 256 256)).
  now rewrite Hlen.
Qed.

Lemma calculateOptimalLayout_depends_on_count_witness :
  calculateOptimalLayout [page512; page512] = calculateOptimalLayout [page256; page256] /\
  lay_width (calculateOptimalLayout [page512; page512]) = 258 * 2 - 2.
Proof.
  assert (Hmulti : length [page512; page512] <> 1%nat) by (cbn; lia).
  destruct (calculateOptimalLayout_depends_on_count
              [page512; page512] [page256; page256] eq_refl Hmulti) as (Heq & Hw & _).
  split; [exact Heq|exact Hw].
Defined.

(** X3: the remapper keeps the number and order of the glyphs, puts every
    glyph on page 0, changes no glyph field other than x, y and page, and
    changes nothing in the document except the glyph list and the two canvas
    dimensions. *)
Theorem updateCharacterCoordinates_preserves (fontData : FontData)
    (layout : TextureLayout) :
  let updated := fst (updateCharacterCoordinates fontData layout) in
  Forall2 (fun c c' =>
             char_page c' = 0 /\
             char_id c' = char_id c /\ char_index c' = char_index c /\
             char_char c' = char_char c /\
             char_width c' = char_width c /\ char_height c' = char_height c /\
             char_xoffset c' = char_xoffset c /\ char_yoffset c' = char_yoffset c /\
             char_xadvance c' = char_xadvance c /\ char_chnl c' = char_chnl c)
    (fd_chars fontData) (fd_chars updated) /\
  fd_pages updated = fd_pages fontData /\
  fd_face updated = fd_face fontData /\
  fd_distanceField updated = fd_distanceField fontData /\
  fd_kernings updated = fd_kernings fontData /\
  fd_lightningMetrics updated = fd_lightningMetrics fontData /\
  fd_styles updated = fd_styles fontData /\
  common_lineHeight (fd_common updated) = common_lineHeight (fd_common fontData) /\
  common_base (fd_common updated) = common_base (fd_common fontData) /\
  common_pages (fd_common updated) = common_pages (fd_common fontData) /\
  common_packed (fd_common updated) = common_packed (fd_common fontData).
Proof.
  cbv zeta. split; [|repeat split].
  rewrite updateCharacterCoordinates_chars.
  induction (fd_chars fontData) as [|c l IH]; cbn [map]; constructor; [|exact IH].
  unfold updateChar.
  destruct (js_index (lay_positions layout) (char_page c)); cbn; repeat split.
Qed.

(** A glyph has a placement exactly when its page is an index of the
    placement list. *)
Lemma js_index_None {A : Type} (arr : list A) (i : Z) :
  js_index arr i = None <-> ~ (0 <= i < Z.of_nat (length arr)).
Proof.
  unfold js_index. destruct (Z.ltb_spec i 0) as [Hneg|Hpos].
  - split; [lia|reflexivity].
  - rewrite lookup_ge_None. lia.
Qed.

(** X4: the console output of the remapper is exactly one warning per glyph
    whose page has no placement, in glyph order; with the plan of [n] pages
    it is silent exactly when every glyph's page is in [0, n). *)
Theorem updateCharacterCoordinates_warnings (fontData : FontData)
    (layout : TextureLayout) (textures : list TextureSize) :
  snd (updateCharacterCoordinates fontData layout) =
    map missing_page_warning
      (List.filter (fun c => match js_index (lay_positions layout) (char_page c) with
                             | Some _ => false
                             | None => true
                             end) (fd_chars fontData)) /\
  (snd (updateCharacterCoordinates fontData (calculateOptimalLayout textures)) = [] <->
   Forall (fun c => 0 <= char_page c < Z.of_nat (length textures)) (fd_chars fontData)).
Proof.
  assert (Hlog : forall layout',
    snd (updateCharacterCoordinates fontData layout') =
    map missing_page_warning
      (List.filter (fun c => match js_index (lay_positions layout') (char_page c) with
                             | Some _ => false
                             | None => true
                             end) (fd_chars fontData))).
  { intros layout'. rewrite updateCharacterCoordinates_log.
    induction (fd_chars fontData) as [|c l IH]; [reflexivity|].
    cbn [flat_map List.filter]. rewrite IH. unfold updateChar.
    destruct (js_index (lay_positions layout') (char_page c)); reflexivity. }
  split; [apply Hlog|].
  rewrite Hlog. clear Hlog.
  induction (fd_chars fontData) as [|c l IH]; cbn [List.filter].
  - split; [constructor|reflexivity].
  - rewrite Forall_cons.
    destruct (js_index (lay_positions (calculateOptimalLayout textures)) (char_page c))
      as [p|] eqn:Hp.
    + rewrite IH. apply js_index_Some in Hp. destruct Hp as [H0 Hp].
      apply lookup_lt_Some in Hp. rewrite calculateOptimalLayout_length in Hp.
      split; [intros Hl; split; [lia|exact Hl]|tauto].
    + apply js_index_None in Hp. rewrite calculateOptimalLayout_length in Hp.
      cbn [map]. split; [discriminate|tauto].
Qed.

(** X5: with two or more pages, glyphs of different pages that fit the
    256 x 256 cell stay apart after remapping: the glyph of the lower page
    ends at least the gutter before the glyph of the higher page begins. *)
Theorem remap_keeps_pages_apart (textures : list TextureSize) (c d : Char) :
  length textures <> 1%nat ->
  0 <= char_page c -> char_page c < char_page d ->
  char_page d < Z.of_nat (length textures) ->
  rect_within 256 256 c -> rect_within 256 256 d ->
  let plan := calculateOptimalLayout textures in
  char_x (fst (updateChar plan c)) + char_width c + PADDING
    <= char_x (fst (updateChar plan d)).
Proof.
  intros Hmulti Hc0 Hcd Hdn Hc Hd plan. subst plan.
  rewrite (calculateOptimalLayout_multi _ Hmulti).
  unfold updateChar, js_index. cbn [lay_positions].
  destruct (Z.ltb_spec (char_page c) 0); [lia|].
  destruct (Z.ltb_spec (char_page d) 0); [lia|].
  rewrite !list_lookup_imap.
  destruct (lookup_lt_is_Some_2 textures (Z.to_nat (char_page c))) as [tc Htc]; [lia|].
  destruct (lookup_lt_is_Some_2 textures (Z.to_nat (char_page d))) as [td Htd]; [lia|].
  rewrite Htc, Htd. unfold rect_within, PADDING in *. cbn. lia.
Qed.

Lemma remap_keeps_pages_apart_witness :
  char_x (fst (updateChar (calculateOptimalLayout [page256; page256]) (glyphAt 0 236 7)))
  + 20 + PADDING
  <= char_x (fst (updateChar (calculateOptimalLayout [page256; page256]) (glyphAt 1 0 10))).
Proof.
  apply (remap_keeps_pages_apart [page256; page256] (glyphAt 0 236 7) (glyphAt 1 0 10));
    unfold rect_within; cbn; lia.
Defined.

(** ** Metrics adjuster *)

(** X6: [adjustSingleFont] is rejected when the document cannot be read,
    when the font cannot be loaded, and when the document has no
    [distanceField].  For a document with a [distanceField] (and, like every
    document of the rasterizer, a [common] block and a glyph list) and a
    font that loads, it issues exactly two writes: first the corrected
    document, then the font's metrics file. *)
Theorem adjustSingleFont_outcomes (fontInfo : SdfFontInfo) (fs : FS) :
  (readFontJson fs (sfi_jsonPath fontInfo) = None ->
   adjustSingleFont fontInfo fs = None) /\
  (opentype_load fs (sfi_fontPath fontInfo) = None ->
   adjustSingleFont fontInfo fs = None) /\
  (forall json,
     readFontJson fs (sfi_jsonPath fontInfo) = Some json ->
     fd_distanceField json = None ->
     adjustSingleFont fontInfo fs = None) /\
  (forall json font df,
     readFontJson fs (sfi_jsonPath fontInfo) = Some json ->
     opentype_load fs (sfi_fontPath fontInfo) = Some font ->
     fd_distanceField json = Some df ->
     exists json',
       adjustSingleFontData json font = Some json' /\
       adjustSingleFont fontInfo fs =
         Some [ (sfi_jsonPath fontInfo, FontJson json');
                (path_join (path_join (sfi_dstDir fontInfo) metricsSubDir)
                   (sfi_fontName fontInfo ++ ".metrics.json"),
                 MetricsJson (metricsOf font)) ]).
Proof.
  unfold adjustSingleFont. split; [|split; [|split]].
  - intros ->. reflexivity.
  - intros Hfont. destruct (readFontJson fs (sfi_jsonPath fontInfo));
      cbn [mbind option_bind]; [|reflexivity].
    now rewrite Hfont.
  - intros json -> Hdf. cbn [mbind option_bind].
    destruct (opentype_load fs (sfi_fontPath fontInfo)); cbn [mbind option_bind];
      [|reflexivity].
    unfold adjustSingleFontData. now rewrite Hdf.
  - intros json font df -> -> Hdf. cbn [mbind option_bind].
    rewrite (adjustSingleFontData_Some _ _ _ Hdf). cbn [mbind option_bind].
    eexists. split; reflexivity.
Qed.

(** X7: both corrections keep the document's page list, face, kernings,
    distance field and style index, every [common] entry except the
    baseline, and every glyph field except yoffset; both replace
    [lightningMetrics] by the metrics of the given font. *)
Theorem bias_correction_preserves (json : FontData) (font : OpenTypeFont) :
  let family := adjustFontFamilyData json font in
  let preserved (json' : FontData) :=
    fd_pages json' = fd_pages json /\ fd_face json' = fd_face json /\
    fd_kernings json' = fd_kernings json /\
    fd_distanceField json' = fd_distanceField json /\
    fd_styles json' = fd_styles json /\
    common_lineHeight (fd_common json') = common_lineHeight (fd_common json) /\
    common_scaleW (fd_common json') = common_scaleW (fd_common json) /\
    common_scaleH (fd_common json') = common_scaleH (fd_common json) /\
    common_pages (fd_common json') = common_pages (fd_common json) /\
    common_packed (fd_common json') = common_packed (fd_common json) /\
    fd_lightningMetrics json' =
      Some (mkFontMetrics (os2_sTypoAscender font) (os2_sTypoDescender font)
              (os2_sTypoLineGap font) (font_unitsPerEm font)) /\
    Forall2 (fun c c' => with_yoffset c' (char_yoffset c) = c)
      (fd_chars json) (fd_chars json') in
  preserved family /\
  (forall single, adjustSingleFontData json font = Some single -> preserved single).
Proof.
  cbv zeta.
  assert (Hchars : forall pad,
    Forall2 (fun c c' => with_yoffset c' (char_yoffset c) = c)
      (fd_chars json) (map (adjustChar pad) (fd_chars json))).
  { intros pad. induction (fd_chars json) as [|c l IH]; cbn [map]; constructor;
      [destruct c; reflexivity|exact IH]. }
  split.
  - unfold adjustFontFamilyData. cbn [fd_pages fd_face fd_kernings fd_distanceField
      fd_styles fd_common fd_lightningMetrics fd_chars].
    destruct (js_truthy (common_base (fd_common json))); repeat split; apply Hchars.
  - intros single. unfold adjustSingleFontData.
    destruct (fd_distanceField json) as [df|]; cbn; [|discriminate].
    intros [= <-]. cbn. repeat split. apply Hchars.
Qed.

(** X8: a family document without a [distanceField] is corrected with the
    default range 4, so with pad 2: every yoffset becomes
    [(yoffset - 2) - 2], two binary64 subtractions, and the baseline becomes
    [base - 2] unless it is falsy, in which case it is kept. *)
Theorem adjustFontFamilyData_default_range (json : FontData) (font : OpenTypeFont) :
  fd_distanceField json = None ->
  fd_chars (adjustFontFamilyData json font) =
    map (fun c => with_yoffset c (char_yoffset c - 2 - 2)%float) (fd_chars json) /\
  common_base (fd_common (adjustFontFamilyData json font)) =
    (if js_truthy (common_base (fd_common json))
     then (common_base (fd_common json) - 2)%float
     else common_base (fd_common json)).
Proof.
  intros Hdf. unfold adjustFontFamilyData. rewrite Hdf.
  change (js_shr 4 1) with 2. cbn [fd_chars fd_common]. split; [reflexivity|].
  destruct (js_truthy (common_base (fd_common json))); reflexivity.
Qed.

Lemma adjustFontFamilyData_default_range_witness :
  map char_yoffset
    (fd_chars (adjustFontFamilyData
                 (mkFontData [] [glyphAt 0 5 7] "Ubuntu" (mkCommon 50 40 512 512 1 0)
                    None [] None None) (fontWith 2048))) = [6%float] /\
  common_base
    (fd_common (adjustFontFamilyData
                  (mkFontData [] [glyphAt 0 5 7] "Ubuntu" (mkCommon 50 40 512 512 1 0)
                     None [] None None) (fontWith 2048))) = 38%float.
Proof.
  destruct (adjustFontFamilyData_default_range
              (mkFontData [] [glyphAt 0 5 7] "Ubuntu" (mkCommon 50 40 512 512 1 0)
                 None [] None None) (fontWith 2048) eq_refl) as (Hchars & Hbase).
  rewrite Hchars, Hbase. split; reflexivity.
Defined.

(** X9: running [adjustSingleFont] a second time on the files the first run
    wrote succeeds and corrects the already corrected document again: the
    stored baseline has lost the pad twice and every stored yoffset four
    times, each time by a binary64 subtraction.  The two files of a run are
    different files here, so the order of the two writes plays no part. *)
Theorem adjustSingleFont_twice (fontInfo : SdfFontInfo) (fs : FS)
    (json : FontData) (font : OpenTypeFont) (df : DistanceField) :
  readFontJson fs (sfi_jsonPath fontInfo) = Some json ->
  opentype_load fs (sfi_fontPath fontInfo) = Some font ->
  fd_distanceField json = Some df ->
  sfi_fontPath fontInfo <>
    path_join (path_join (sfi_dstDir fontInfo) metricsSubDir)
      (sfi_fontName fontInfo ++ ".metrics.json") ->
  sfi_jsonPath fontInfo <>
    path_join (path_join (sfi_dstDir fontInfo) metricsSubDir)
      (sfi_fontName fontInfo ++ ".metrics.json") ->
  let pad := toNumber (js_shr (df_distanceRange df) 1) in
  exists first second stored,
    adjustSingleFont fontInfo fs = Some first /\
    adjustSingleFont fontInfo (commit first fs) = Some second /\
    readFontJson (commit second (commit first fs)) (sfi_jsonPath fontInfo) = Some stored /\
    common_base (fd_common stored) = (common_base (fd_common json) - pad - pad)%float /\
    map char_yoffset (fd_chars stored) =
      map (fun c => (char_yoffset c - pad - pad - pad - pad)%float) (fd_chars json).
Proof.
  intros Hjson Hfont Hdf Hpaths Hpaths' pad.
  assert (Hne : sfi_fontPath fontInfo <> sfi_jsonPath fontInfo).
  { intros Heq. unfold readFontJson, opentype_load in *. rewrite Heq in Hfont.
    destruct (fs !! sfi_jsonPath fontInfo) as [[]|]; discriminate. }
  pose proof (adjustSingleFontData_Some json font df Hdf) as Hadj1.
  set (once := mkFontData _ _ _ _ _ _ _ _) in Hadj1.
  pose proof (adjustSingleFont_writes fontInfo fs json once font Hjson Hfont Hadj1)
    as Hrun1.
  set (first := [_; _]) in Hrun1.
  assert (Hjson1 : readFontJson (commit first fs) (sfi_jsonPath fontInfo) = Some once).
  { unfold readFontJson, commit, first. cbn [foldl fst snd].
    rewrite lookup_insert_ne by congruence.
    now rewrite lookup_insert_eq. }
  assert (Hfont1 : opentype_load (commit first fs) (sfi_fontPath fontInfo) = Some font).
  { unfold opentype_load, commit, first. cbn [foldl fst snd].
    rewrite lookup_insert_ne by congruence.
    rewrite lookup_insert_ne by congruence. exact Hfont. }
  assert (Hdf1 : fd_distanceField once = Some df) by exact Hdf.
  pose proof (adjustSingleFontData_Some once font df Hdf1) as Hadj2.
  set (twice := mkFontData _ _ _ _ _ _ _ _) in Hadj2.
  pose proof (adjustSingleFont_writes fontInfo (commit first fs) once twice font
                Hjson1 Hfont1 Hadj2) as Hrun2.
  set (second := [_; _]) in Hrun2.
  exists first, second, twice.
  split; [exact Hrun1|]. split; [exact Hrun2|]. split.
  { unfold readFontJson, commit, second. cbn [foldl fst snd].
    rewrite lookup_insert_ne by congruence.
    now rewrite lookup_insert_eq. }
  split; [reflexivity|].
  unfold twice, once. cbn [fd_chars]. fold pad. rewrite !map_map.
  apply map_ext. intros c. reflexivity.
Qed.

Lemma adjustSingleFont_twice_witness :
  exists first second stored,
    adjustSingleFont
      (mkSdfFontInfo "Ubuntu-Regular" msdf "font-src/Ubuntu-Regular.ttf"
         "font-dst/Ubuntu.msdf.json" "font-dst/Ubuntu.msdf.png" "font-dst")
      (familyFs 2048) = Some first /\
    adjustSingleFont
      (mkSdfFontInfo "Ubuntu-Regular" msdf "font-src/Ubuntu-Regular.ttf"
         "font-dst/Ubuntu.msdf.json" "font-dst/Ubuntu.msdf.png" "font-dst")
      (commit first (familyFs 2048)) = Some second /\
    readFontJson (commit second (commit first (familyFs 2048)))
      "font-dst/Ubuntu.msdf.json" = Some stored /\
    common_base (fd_common stored) = 36%float /\
    map char_yoffset (fd_chars stored) = [2%float].
Proof.
  destruct (adjustSingleFont_twice
              (mkSdfFontInfo "Ubuntu-Regular" msdf "font-src/Ubuntu-Regular.ttf"
                 "font-dst/Ubuntu.msdf.json" "font-dst/Ubuntu.msdf.png" "font-dst")
              (familyFs 2048) (baselineDoc 40 4) (fontWith 2048)
              (mkDistanceField "msdf" 4))
    as (first & second & stored & H1 & H2 & H3 & H4 & H5).
  - reflexivity.
  - reflexivity.
  - reflexivity.
  - vm_compute. discriminate.
  - vm_compute. discriminate.
  - exists first, second, stored. repeat split; assumption.
Defined.

(** X10: a family descriptor without styles is left alone: when its document
    can be read nothing is written, not even the document, and when it
    cannot be read the adjuster is rejected. *)
Theorem adjustFontFamily_without_styles (fontInfo : FontFamilyInfo) (fs : FS) :
  ffi_styles fontInfo = [] ->
  adjustFontFamily fontInfo fs =
    match readFontJson fs (ffi_jsonPath fontInfo) with
    | Some _ => Some []
    | None => None
    end.
Proof.
  intros Hstyles. unfold adjustFontFamily.
  destruct (readFontJson fs (ffi_jsonPath fontInfo)); cbn [mbind option_bind];
    [|reflexivity].
  now rewrite Hstyles.
Qed.

Lemma adjustFontFamily_without_styles_witness :
  adjustFontFamily
    (mkFontFamilyInfo "Ubuntu" msdf [] "font-dst/Ubuntu.msdf.json" [] "font-dst")
    (familyFs 2048) = Some [].
Proof.
  rewrite (adjustFontFamily_without_styles
             (mkFontFamilyInfo "Ubuntu" msdf [] "font-dst/Ubuntu.msdf.json" [] "font-dst")
             (familyFs 2048) eq_refl).
  reflexivity.
Defined.

(** ** Family aggregator: what a run returns *)

Lemma generateStyles_effect (generateBMFont : Rasterizer)
    (fontDstDir familyName fieldType : string) (fonts : list FontEntry) :
  forall (i : nat) (st st' : FamilyState),
    generateStyles generateBMFont fontDstDir familyName fieldType i fonts st = Some st' ->
    length (st_styleInfos st') = (length (st_styleInfos st) + length fonts)%nat /\
    st_familyPngPaths st' = st_familyPngPaths st /\
    st_globalPageIndex st' = st_globalPageIndex st.
Proof.
  induction fonts as [|font rest IH]; intros i st st'; cbn [generateStyles].
  - intros [= <-]. cbn [length]. repeat split; lia.
  - destruct (generateFont _ _ _ _ _ _) as [[fs1 pngPaths]|];
      cbn [mbind option_bind]; [|discriminate].
    intros Hrest. apply IH in Hrest.
    cbn [st_styleInfos st_familyPngPaths st_globalPageIndex] in Hrest.
    destruct Hrest as (Hlen & Hpaths & Hg). rewrite length_app in Hlen.
    cbn [length] in *. repeat split; [lia|assumption..].
Qed.

(** After the first style the template document is not replaced. *)
Lemma generateStyles_keeps_template (generateBMFont : Rasterizer)
    (fontDstDir familyName fieldType : string) (fonts : list FontEntry) :
  forall (n : nat) (st st' : FamilyState),
    generateStyles generateBMFont fontDstDir familyName fieldType (S n) fonts st
      = Some st' ->
    st_combinedJsonData st' = st_combinedJsonData st.
Proof.
  induction fonts as [|font rest IH]; intros n st st'; cbn [generateStyles].
  - now intros [= <-].
  - destruct (generateFont _ _ _ _ _ _) as [[fs1 pngPaths]|];
      cbn [mbind option_bind Nat.eqb]; [|discriminate].
    intros Hrest. apply IH in Hrest. exact Hrest.
Qed.

(** Rasterization of the first style leaves its document as the template. *)
Lemma generateStyles_template (generateBMFont : Rasterizer)
    (fontDstDir familyName fieldType : string) (font : FontEntry)
    (rest : list FontEntry) (st st' : FamilyState)
    (textures : list (list Byte.byte)) (data : FontData) :
  generateBMFont (fe_path font) = Some (textures, data) ->
  generateStyles generateBMFont fontDstDir familyName fieldType 0 (font :: rest) st
    = Some st' ->
  st_combinedJsonData st' = Some data.
Proof.
  intros Hrast. cbn [generateStyles]. unfold generateFont. rewrite Hrast.
  cbn [mbind option_bind Nat.eqb].
  intros Hrest. apply generateStyles_keeps_template in Hrest. rewrite Hrest.
  cbn [st_combinedJsonData]. unfold existsSync, readFontJson.
  rewrite !string_app_assoc.
  rewrite lookup_insert_eq. rewrite bool_decide_eq_true_2 by eauto. reflexivity.
Qed.

(** A failing rasterization rejects the whole loop. *)
Lemma generateStyles_rejected (generateBMFont : Rasterizer)
    (fontDstDir familyName fieldType : string) (fonts : list FontEntry) :
  Exists (fun font => generateBMFont (fe_path font) = None) fonts ->
  forall (i : nat) (st : FamilyState),
    generateStyles generateBMFont fontDstDir familyName fieldType i fonts st = None.
Proof.
  induction 1 as [font rest Hfail|font rest _ IH]; intros i st; cbn [generateStyles].
  - unfold generateFont. rewrite Hfail. reflexivity.
  - destruct (generateFont _ _ _ _ _ _) as [[fs1 pngPaths]|];
      cbn [mbind option_bind]; [apply IH|reflexivity].
Qed.

Lemma copyToFamilyPage_effect (fontDstDir familyName fieldType src : string)
    (st st' : FamilyState) :
  copyToFamilyPage fontDstDir familyName fieldType src st = Some st' ->
  st_globalPageIndex st' = st_globalPageIndex st + 1 /\
  st_familyPngPaths st' =
    (st_familyPngPaths st ++
     [familyPagePath fontDstDir familyName fieldType (st_globalPageIndex st)])%list /\
  st_styleInfos st' = st_styleInfos st /\
  st_combinedJsonData st' = st_combinedJsonData st.
Proof.
  unfold copyToFamilyPage. destruct (copyFileSync _ _ _) as [fs1|]; [|discriminate].
  cbn [mbind option_bind]. intros [= <-]. repeat split.
Qed.

(** The family pages named for indices [g .. g + n - 1]. *)
Lemma copyPaginated_effect (fontDstDir familyName fieldType : string)
    (paginatedFiles : list string) :
  forall (st st' : FamilyState),
    copyPaginated fontDstDir familyName fieldType paginatedFiles st = Some st' ->
    st_globalPageIndex st' = st_globalPageIndex st + Z.of_nat (length paginatedFiles) /\
    st_familyPngPaths st' =
      (st_familyPngPaths st ++
       map (fun k : nat => familyPagePath fontDstDir familyName fieldType
                             (st_globalPageIndex st + Z.of_nat k))
         (seq 0 (length paginatedFiles)))%list /\
    st_styleInfos st' = st_styleInfos st /\
    st_combinedJsonData st' = st_combinedJsonData st.
Proof.
  induction paginatedFiles as [|file rest IH]; intros st st'; cbn [copyPaginated].
  - intros [= <-]. cbn. rewrite app_nil_r. repeat split; lia.
  - destruct (copyToFamilyPage _ _ _ _ st) as [st1|] eqn:Hcopy;
      cbn [mbind option_bind]; [|discriminate].
    intros Hrest. apply copyToFamilyPage_effect in Hcopy. apply IH in Hrest.
    destruct Hcopy as (Hg1 & Hp1 & Hi1 & Hj1).
    destruct Hrest as (Hg & Hp & Hi & Hj).
    rewrite Hg, Hp, Hi, Hj, Hg1, Hp1, Hi1, Hj1.
    split; [cbn [length]; lia|]. split; [|split; reflexivity].
    cbn [length seq map]. rewrite <- app_assoc. cbn [app].
    rewrite Z.add_0_r. do 2 f_equal.
    rewrite <- seq_shift, map_map. apply map_ext. intros k. f_equal. lia.
Qed.

(** One pass of the second loop, in full. *)
Lemma relabelStyle_effect (fontDstDir familyName fieldType : string)
    (i : nat) (font : FontEntry) (st st' : FamilyState) :
  relabelStyle fontDstDir familyName fieldType i font st = Some st' ->
  exists created : nat,
    st_globalPageIndex st' = st_globalPageIndex st + Z.of_nat created /\
    st_familyPngPaths st' =
      (st_familyPngPaths st ++
       map (fun k : nat => familyPagePath fontDstDir familyName fieldType
                             (st_globalPageIndex st + Z.of_nat k))
         (seq 0 created))%list /\
    st_styleInfos st' =
      <[i := mkStyleInfo (fe_style font) (fe_path font) (st_globalPageIndex st)
               (Some (if (created =? 0)%nat then 1 else Z.of_nat created))]>
        (st_styleInfos st) /\
    st_combinedJsonData st' = st_combinedJsonData st.
Proof.
  unfold relabelStyle.
  set (paginatedFiles := array_sort compareStrings _).
  destruct (0 <? length paginatedFiles)%nat eqn:Hpag.
  - option_step st1 Hcopy. option_step fs2 Hu1. option_step fs3 Hu2.
    option_step fs4 Hu3. intros [= <-].
    apply copyPaginated_effect in Hcopy. destruct Hcopy as (Hg & Hp & Hi & Hj).
    exists (length paginatedFiles).
    cbn [st_globalPageIndex st_familyPngPaths st_styleInfos st_combinedJsonData].
    apply Nat.ltb_lt in Hpag.
    rewrite Hi. repeat split; try assumption.
    destruct (Nat.eqb_spec (length paginatedFiles) 0); [lia|reflexivity].
  - destruct (existsSync (st_fs st) _).
    + option_step st1 Hcopy. option_step fs2 Hu1. option_step fs3 Hu2.
      option_step fs4 Hu3. intros [= <-].
      apply copyToFamilyPage_effect in Hcopy. destruct Hcopy as (Hg & Hp & Hi & Hj).
      exists 1%nat.
      cbn [st_globalPageIndex st_familyPngPaths st_styleInfos st_combinedJsonData].
      rewrite Hi, Hp. cbn [seq map Nat.eqb]. rewrite Z.add_0_r.
      repeat split; assumption.
    + cbn [mbind option_bind].
      option_step fs2 Hu1. option_step fs3 Hu2. option_step fs4 Hu3.
      intros [= <-]. exists 0%nat.
      cbn [st_globalPageIndex st_familyPngPaths st_styleInfos st_combinedJsonData
           seq map Nat.eqb].
      rewrite app_nil_r. repeat split; lia.
Qed.

Lemma numbered_styles_length (fonts : list FontEntry) :
  forall (start : Z) (created : list nat),
    length created = length fonts ->
    length (numbered_styles start fonts created) = length fonts.
Proof.
  induction fonts as [|font rest IH]; intros start [|c cs] Hlen;
    cbn in *; try lia. f_equal. apply IH. lia.
Qed.

Lemma map_seq_offset {A : Type} (f : Z -> A) (g : Z) (c n : nat) :
  forall s : nat,
    map (fun k : nat => f (g + Z.of_nat c + Z.of_nat k)) (seq s n) =
    map (fun k : nat => f (g + Z.of_nat k)) (seq (c + s) n).
Proof.
  induction n as [|n IH]; intros s; cbn [seq map]; [reflexivity|].
  f_equal; [f_equal; lia|]. rewrite IH. now rewrite Nat.add_succ_r.
Qed.

(** The second loop, in full: pages are numbered without gaps from the
    current index, and the entries [i ..] of the style list are the numbered
    styles. *)
Lemma relabelStyles_effect (fontDstDir familyName fieldType : string)
    (fonts : list FontEntry) :
  forall (i : nat) (st st' : FamilyState),
    (i + length fonts <= length (st_styleInfos st))%nat ->
    relabelStyles fontDstDir familyName fieldType i fonts st = Some st' ->
    exists created : list nat,
      length created = length fonts /\
      st_globalPageIndex st' = st_globalPageIndex st + Z.of_nat (sum_list created) /\
      st_familyPngPaths st' =
        (st_familyPngPaths st ++
         map (fun k : nat => familyPagePath fontDstDir familyName fieldType
                               (st_globalPageIndex st + Z.of_nat k))
           (seq 0 (sum_list created)))%list /\
      length (st_styleInfos st') = length (st_styleInfos st) /\
      (forall j, (j < i)%nat -> st_styleInfos st' !! j = st_styleInfos st !! j) /\
      (forall k, (k < length fonts)%nat ->
         st_styleInfos st' !! (i + k)%nat =
           numbered_styles (st_globalPageIndex st) fonts created !! k) /\
      st_combinedJsonData st' = st_combinedJsonData st.
Proof.
  induction fonts as [|font rest IH]; intros i st st' Hlen; cbn [relabelStyles].
  - intros [= <-]. exists []. cbn. rewrite app_nil_r.
    repeat split; lia.
  - destruct (relabelStyle _ _ _ i font st) as [st1|] eqn:Hstep;
      cbn [mbind option_bind]; [|discriminate].
    intros Hrest. apply relabelStyle_effect in Hstep.
    destruct Hstep as (c & Hg1 & Hp1 & Hi1 & Hj1).
    cbn [length] in Hlen.
    apply IH in Hrest; [|rewrite Hi1, length_insert; lia].
    destruct Hrest as (cs & Hcs & Hg & Hp & Hl & Hbefore & Hat & Hj).
    exists (c :: cs). change (sum_list (c :: cs)) with (c + sum_list cs)%nat.
    cbn [length].
    split; [lia|]. split; [lia|]. split.
    { rewrite Hp, Hp1, <- app_assoc. f_equal.
      rewrite seq_app, map_app. f_equal. rewrite Hg1.
      rewrite (map_seq_offset (familyPagePath fontDstDir familyName fieldType)).
      now rewrite Nat.add_0_r. }
    split; [rewrite Hl, Hi1; apply length_insert|].
    split.
    { intros j Hj'. rewrite Hbefore by lia. rewrite Hi1.
      apply list_lookup_insert_ne. lia. }
    split; [|congruence].
    intros [|k] Hk.
    + rewrite Nat.add_0_r, Hbefore by lia. rewrite Hi1.
      rewrite list_lookup_insert_eq by lia. reflexivity.
    + replace (i + S k)%nat with (S i + k)%nat by lia. rewrite Hat by lia.
      rewrite Hg1. reflexivity.
Qed.

Lemma numbered_styles_total (fonts : list FontEntry) :
  forall (start : Z) (created : list nat),
    length created = length fonts ->
    Z.of_nat (sum_list created) <= total_pageCount (numbered_styles start fonts created) /\
    (total_pageCount (numbered_styles start fonts created) = Z.of_nat (sum_list created) ->
     Forall (fun c => c <> 0%nat) created).
Proof.
  induction fonts as [|font rest IH]; intros start [|c cs] Hlen; try discriminate.
  - unfold total_pageCount. cbn. split; [lia|constructor].
  - change (sum_list (c :: cs)) with (c + sum_list cs)%nat.
    change (total_pageCount (numbered_styles start (font :: rest) (c :: cs)))
      with ((if (c =? 0)%nat then 1 else Z.of_nat c)
            + total_pageCount (numbered_styles (start + Z.of_nat c) rest cs)).
    destruct (IH (start + Z.of_nat c) cs ltac:(cbn in Hlen; lia)) as [Hle Hall].
    assert (Hcount : Z.of_nat c <= (if (c =? 0)%nat then 1 else Z.of_nat c) /\
                     ((if (c =? 0)%nat then 1 else Z.of_nat c) = Z.of_nat c -> c <> 0%nat)).
    { destruct (Nat.eqb_spec c 0) as [->|Hc]; cbn; split; lia. }
    destruct Hcount as [Hge Hnz].
    split; [lia|]. intros Hsum. constructor; [apply Hnz; lia|apply Hall; lia].
Qed.

Lemma numbered_styles_contiguous (fonts : list FontEntry) :
  forall (start : Z) (created : list nat),
    length created = length fonts ->
    Forall (fun c => c <> 0%nat) created ->
    contiguous_from start (numbered_styles start fonts created).
Proof.
  induction fonts as [|font rest IH]; intros start [|c cs] Hlen Hall;
    try discriminate; cbn [numbered_styles contiguous_from]; [exact I|].
  inversion Hall as [|? ? Hc Hcs]; subst.
  split; [reflexivity|]. exists (Z.of_nat c). cbn [si_pageCount].
  destruct (Nat.eqb_spec c 0); [contradiction|].
  split; [reflexivity|]. apply IH; [cbn in Hlen; lia|exact Hcs].
Qed.

(** The two loops and the final step of a run on a non-empty font list. *)
Lemma generateFontFamily_run (generateBMFont : Rasterizer) (fontDstDir familyName : string)
    (font : FontEntry) (rest : list FontEntry) (fieldType : FieldType) (fs fs' : FS)
    (result : option FontFamilyInfo) :
  generateFontFamily generateBMFont fontDstDir familyName (font :: rest) fieldType fs
    = Some (fs', result) ->
  exists st1 st2,
    generateStyles generateBMFont fontDstDir familyName (fieldType_str fieldType) 0
      (font :: rest) (mkFamilyState fs [] [] None [] 0) = Some st1 /\
    relabelStyles fontDstDir familyName (fieldType_str fieldType) 0 (font :: rest) st1
      = Some st2 /\
    match st_combinedJsonData st2 with
    | Some combinedJsonData =>
        result =
          Some (mkFontFamilyInfo familyName fieldType (st_styleInfos st2)
                  (path_join fontDstDir
                     (familyName ++ "." ++ fieldType_str fieldType ++ ".json"))
                  (st_familyPngPaths st2) fontDstDir) /\
        fs' =
          <[path_join fontDstDir (familyName ++ "." ++ fieldType_str fieldType ++ ".json")
            := FontJson
                 (mkFontData (map basename (st_familyPngPaths st2))
                    (fd_chars combinedJsonData) familyName (fd_common combinedJsonData)
                    (fd_distanceField combinedJsonData) (fd_kernings combinedJsonData)
                    (fd_lightningMetrics combinedJsonData)
                    (Some (map styleJson (st_styleInfos st2))))]> (st_fs st2)
    | None => result = None /\ fs' = st_fs st2
    end.
Proof.
  unfold generateFontFamily.
  destruct (generateStyles _ _ _ _ 0 (font :: rest) _) as [st1|] eqn:H1;
    cbn [mbind option_bind]; [|discriminate].
  destruct (relabelStyles _ _ _ 0 (font :: rest) st1) as [st2|] eqn:H2;
    cbn [mbind option_bind]; [|discriminate].
  intros Hres. exists st1, st2. split; [reflexivity|]. split; [exact H2|].
  destruct (st_combinedJsonData st2); injection Hres as <- <-; split; reflexivity.
Qed.

(** A family with at least one font never gives the null result. *)
Lemma generateFontFamily_not_null (generateBMFont : Rasterizer)
    (fontDstDir familyName : string) (fonts : list FontEntry)
    (fieldType : FieldType) (fs fs' : FS) :
  fonts <> [] ->
  generateFontFamily generateBMFont fontDstDir familyName fonts fieldType fs
  <> Some (fs', None).
Proof.
  intros Hne Hrun. destruct fonts as [|font rest]; [contradiction|].
  apply generateFontFamily_run in Hrun.
  destruct Hrun as (st1 & st2 & H1 & H2 & Hfinal).
  destruct (generateBMFont (fe_path font)) as [[textures data]|] eqn:Hrast.
  - pose proof (generateStyles_template _ _ _ _ _ _ _ _ _ _ Hrast H1) as Htemplate.
    apply relabelStyles_effect in H2.
    + destruct H2 as (created & _ & _ & _ & _ & _ & _ & Hjson).
      rewrite Hjson, Htemplate in Hfinal. destruct Hfinal as [Hres _]. discriminate.
    + apply generateStyles_effect in H1. destruct H1 as (Hlen & _). cbn in *. lia.
  - rewrite generateStyles_rejected in H1; [discriminate|].
    constructor. exact Hrast.
Qed.

(** The styles and pages of a returned descriptor. *)
Lemma generateFontFamily_descriptor_shape (generateBMFont : Rasterizer)
    (fontDstDir familyName : string) (fonts : list FontEntry)
    (fieldType : FieldType) (fs fs' : FS) (info : FontFamilyInfo) :
  generateFontFamily generateBMFont fontDstDir familyName fonts fieldType fs
    = Some (fs', Some info) ->
  exists created : list nat,
    length created = length fonts /\
    ffi_styles info = numbered_styles 0 fonts created /\
    ffi_pngPaths info =
      map (fun k : nat =>
             familyPagePath fontDstDir familyName (fieldType_str fieldType) (Z.of_nat k))
        (seq 0 (sum_list created)).
Proof.
  intros Hrun. destruct fonts as [|font rest]; [discriminate|].
  apply generateFontFamily_run in Hrun.
  destruct Hrun as (st1 & st2 & H1 & H2 & Hfinal).
  apply generateStyles_effect in H1. destruct H1 as (Hlen1 & Hp1 & Hg1).
  cbn [st_styleInfos st_familyPngPaths st_globalPageIndex length Nat.add] in *.
  apply relabelStyles_effect in H2; [|cbn [length]; lia].
  destruct H2 as (created & Hcreated & Hg & Hp & Hlen & _ & Hat & _).
  destruct (st_combinedJsonData st2); destruct Hfinal as [Hres _]; [|discriminate].
  injection Hres as ->. cbn [ffi_styles ffi_pngPaths].
  rewrite Hg1, Hp1 in *. cbn [app] in Hp.
  assert (Hstyles : st_styleInfos st2 = numbered_styles 0 (font :: rest) created).
  { apply list_eq. intros k.
    destruct (decide (k < length (font :: rest))%nat) as [Hk|Hk].
    - apply (Hat k Hk).
    - rewrite !lookup_ge_None_2; [reflexivity|..].
      + rewrite numbered_styles_length by exact Hcreated. lia.
      + cbn [length] in *. lia. }
  exists created. split; [exact Hcreated|]. split; [exact Hstyles|].
  rewrite Hp. apply map_ext. intros k. f_equal.
Qed.

(** X11: a family without fonts gives the null result and touches no file;
    a family in which some font fails to rasterize is rejected; and a family
    with at least one font never gives the null result. *)
Theorem generateFontFamily_outcomes (generateBMFont : Rasterizer)
    (fontDstDir familyName : string) (fonts : list FontEntry)
    (fieldType : FieldType) (fs : FS) :
  generateFontFamily generateBMFont fontDstDir familyName [] fieldType fs
    = Some (fs, None) /\
  (Exists (fun font => generateBMFont (fe_path font) = None) fonts ->
   generateFontFamily generateBMFont fontDstDir familyName fonts fieldType fs = None) /\
  (fonts <> [] ->
   forall fs', generateFontFamily generateBMFont fontDstDir familyName fonts fieldType fs
               <> Some (fs', None)).
Proof.
  split; [reflexivity|]. split.
  - intros Hfail. destruct fonts as [|font rest]; [inversion Hfail|].
    unfold generateFontFamily.
    now rewrite (generateStyles_rejected _ _ _ _ _ Hfail).
  - intros Hne fs'. now apply generateFontFamily_not_null.
Qed.

(** X12: in every descriptor a run returns, the family pages are numbered
    0, 1, 2, ... without gaps, and there is one style entry per font, in the
    order of the fonts: each starts at the number of pages created before it
    and records the pages created for it, or 1 when none was created.  When
    the recorded page counts add up to the number of family pages, each
    style starts where the previous one ends. *)
Theorem generateFontFamily_page_numbering (generateBMFont : Rasterizer)
    (fontDstDir familyName : string) (fonts : list FontEntry)
    (fieldType : FieldType) (fs fs' : FS) (info : FontFamilyInfo) :
  generateFontFamily generateBMFont fontDstDir familyName fonts fieldType fs
    = Some (fs', Some info) ->
  exists created : list nat,
    length created = length fonts /\
    ffi_styles info = numbered_styles 0 fonts created /\
    ffi_pngPaths info =
      map (fun k : nat =>
             familyPagePath fontDstDir familyName (fieldType_str fieldType) (Z.of_nat k))
        (seq 0 (sum_list created)) /\
    (total_pageCount (ffi_styles info) = Z.of_nat (length (ffi_pngPaths info)) ->
     contiguous_from 0 (ffi_styles info)).
Proof.
  intros Hrun.
  destruct (generateFontFamily_descriptor_shape _ _ _ _ _ _ _ _ Hrun)
    as (created & Hcreated & Hstyles & Hp).
  exists created. split; [exact Hcreated|]. split; [exact Hstyles|].
  split; [exact Hp|].
  rewrite Hstyles, Hp, length_map, length_seq. intros Hsum.
  apply numbered_styles_contiguous; [exact Hcreated|].
  now apply (numbered_styles_total fonts 0 created Hcreated).
Qed.

(** X13: the family document a run stores is the first font's document
    relabelled: glyph table, [common] block, kernings and distance field are
    those the rasterizer returned for the first font; the face is the family
    name, the page list has one entry per family page and the styles index
    one entry per style of the descriptor. *)
Theorem generateFontFamily_document (generateBMFont : Rasterizer)
    (fontDstDir familyName : string) (font : FontEntry) (rest : list FontEntry)
    (fieldType : FieldType) (fs fs' : FS) (info : FontFamilyInfo)
    (textures : list (list Byte.byte)) (data : FontData) :
  generateBMFont (fe_path font) = Some (textures, data) ->
  generateFontFamily generateBMFont fontDstDir familyName (font :: rest) fieldType fs
    = Some (fs', Some info) ->
  exists json,
    readFontJson fs' (ffi_jsonPath info) = Some json /\
    fd_chars json = fd_chars data /\
    fd_common json = fd_common data /\
    fd_kernings json = fd_kernings data /\
    fd_distanceField json = fd_distanceField data /\
    fd_face json = familyName /\
    fd_pages json = map basename (ffi_pngPaths info) /\
    fd_styles json = Some (map styleJson (ffi_styles info)).
Proof.
  intros Hrast Hrun. apply generateFontFamily_run in Hrun.
  destruct Hrun as (st1 & st2 & H1 & H2 & Hfinal).
  pose proof (generateStyles_template _ _ _ _ _ _ _ _ _ _ Hrast H1) as Htemplate.
  apply generateStyles_effect in H1. destruct H1 as (Hlen1 & _).
  apply relabelStyles_effect in H2; [|cbn in *; lia].
  destruct H2 as (created & _ & _ & _ & _ & _ & _ & Hjson).
  rewrite Hjson, Htemplate in Hfinal. destruct Hfinal as [Hres ->].
  injection Hres as ->. cbn [ffi_jsonPath ffi_pngPaths ffi_styles].
  eexists. split.
  { unfold readFontJson. rewrite lookup_insert_eq. reflexivity. }
  repeat split.
Qed.

Lemma generateFontFamily_page_numbering_witness :
  exists created : list nat,
    length created = 2%nat /\
    map si_pageIndex
      (numbered_styles 0
         [ mkFontEntry "font-src/Ubuntu-Regular.ttf" "Regular" "Ubuntu-Regular.ttf";
           mkFontEntry "font-src/Ubuntu-Bold.ttf" "Bold" "Ubuntu-Bold.ttf" ] created)
      = [0; 1].
Proof.
  destruct (generateFontFamily onePageRasterizer "font-dst" "Ubuntu"
              [ mkFontEntry "font-src/Ubuntu-Regular.ttf" "Regular" "Ubuntu-Regular.ttf";
                mkFontEntry "font-src/Ubuntu-Bold.ttf" "Bold" "Ubuntu-Bold.ttf" ]
              msdf ∅) as [[fs' [info|]]|] eqn:Hrun;
    [|vm_compute in Hrun; discriminate Hrun..].
  destruct (generateFontFamily_page_numbering _ _ _ _ _ _ _ _ Hrun)
    as (created & Hlen & Hstyles & _).
  exists created. split; [exact Hlen|]. rewrite <- Hstyles.
  vm_compute in Hrun. injection Hrun as _ <-. reflexivity.
Defined.

Lemma generateFontFamily_document_witness :
  exists fs' info json,
    generateFontFamily onePageRasterizer "font-dst" "Ubuntu"
      [ mkFontEntry "font-src/Ubuntu-Regular.ttf" "Regular" "Ubuntu-Regular.ttf";
        mkFontEntry "font-src/Ubuntu-Bold.ttf" "Bold" "Ubuntu-Bold.ttf" ]
      msdf ∅ = Some (fs', Some info) /\
    readFontJson fs' (ffi_jsonPath info) = Some json /\
    fd_chars json = [glyphAt 0 5 7] /\
    fd_face json = "Ubuntu".
Proof.
  destruct (generateFontFamily onePageRasterizer "font-dst" "Ubuntu"
              [ mkFontEntry "font-src/Ubuntu-Regular.ttf" "Regular" "Ubuntu-Regular.ttf";
                mkFontEntry "font-src/Ubuntu-Bold.ttf" "Bold" "Ubuntu-Bold.ttf" ]
              msdf ∅) as [[fs' [info|]]|] eqn:Hrun;
    [|vm_compute in Hrun; discriminate Hrun..].
  destruct (generateFontFamily_document onePageRasterizer "font-dst" "Ubuntu" _ _ msdf
              ∅ fs' info _ (baselineDoc 40 4) eq_refl Hrun)
    as (json & Hread & Hchars & _ & _ & _ & Hface & _).
  exists fs', info, json. repeat split; assumption.
Defined.

(** ** Family aggregator: clean-up *)

(** The per-style image and document are never family pages or the family
    document: after the family name they continue with "-", not ".". *)
Lemma individual_path_not_family (fontDstDir familyName fieldType style ext rest : string) :
  path_join fontDstDir ((familyName ++ "-" ++ style ++ "." ++ fieldType) ++ ext)
  <> path_join fontDstDir (familyName ++ "." ++ rest).
Proof.
  unfold path_join. intros H. apply append_inv_head in H.
  change ("/" ++ ?x) with (String "/" x) in H. injection H as H.
  rewrite string_app_assoc in H. apply append_inv_head in H. discriminate.
Qed.

Lemma unlinkSync_absent (fs fs' : FS) (p q : string) :
  unlinkSync fs p = Some fs' -> fs' !! p = None /\ (fs !! q = None -> fs' !! q = None).
Proof.
  unfold unlinkSync. destruct (fs !! p); cbn [mbind option_bind]; [|discriminate].
  intros [= <-]. split; [apply lookup_delete_eq|].
  intros Hq. destruct (decide (p = q)) as [->|Hne];
    [apply lookup_delete_eq|now rewrite lookup_delete_ne].
Qed.

Lemma unlinkIfExists_absent (fs fs' : FS) (p q : string) :
  unlinkIfExists fs p = Some fs' -> fs' !! p = None /\ (fs !! q = None -> fs' !! q = None).
Proof.
  unfold unlinkIfExists, existsSync. case_bool_decide as Hex.
  - apply unlinkSync_absent.
  - intros [= <-]. split; [|tauto].
    destruct (fs !! p) eqn:Hp; [|reflexivity]. exfalso. apply Hex. eauto.
Qed.

Lemma unlinkPaginated_absent (fontDstDir individualBaseName : string)
    (files : list string) (q : string) :
  forall fs fs' : FS,
    unlinkPaginated fontDstDir individualBaseName files fs = Some fs' ->
    fs !! q = None -> fs' !! q = None.
Proof.
  induction files as [|file rest IH]; intros fs fs'; cbn [unlinkPaginated].
  - now intros [= <-].
  - destruct (startsWith file _ && endsWith file ".png").
    + destruct (unlinkSync fs _) as [fs1|] eqn:Hu; cbn [mbind option_bind];
        [|discriminate].
      intros Hrest Hq. apply (IH _ _ Hrest).
      now apply (unlinkSync_absent _ _ _ q Hu).
    + apply IH.
Qed.

Lemma copyToFamilyPage_absent (fontDstDir familyName fieldType src q : string)
    (st st' : FamilyState) :
  copyToFamilyPage fontDstDir familyName fieldType src st = Some st' ->
  (forall k, q <> familyPagePath fontDstDir familyName fieldType k) ->
  st_fs st !! q = None -> st_fs st' !! q = None.
Proof.
  unfold copyToFamilyPage, copyFileSync.
  destruct (st_fs st !! src); cbn [mbind option_bind]; [|discriminate].
  intros [= <-] Hq Habsent. cbn [st_fs].
  rewrite lookup_insert_ne; [exact Habsent|]. intros Heq. eapply Hq. symmetry. exact Heq.
Qed.

Lemma copyPaginated_absent (fontDstDir familyName fieldType q : string)
    (paginatedFiles : list string) :
  forall st st' : FamilyState,
    copyPaginated fontDstDir familyName fieldType paginatedFiles st = Some st' ->
    (forall k, q <> familyPagePath fontDstDir familyName fieldType k) ->
    st_fs st !! q = None -> st_fs st' !! q = None.
Proof.
  induction paginatedFiles as [|file rest IH]; intros st st'; cbn [copyPaginated].
  - now intros [= <-].
  - destruct (copyToFamilyPage _ _ _ _ st) as [st1|] eqn:Hcopy;
      cbn [mbind option_bind]; [|discriminate].
    intros Hrest Hq Habsent. apply (IH _ _ Hrest Hq).
    now apply (copyToFamilyPage_absent _ _ _ _ _ _ _ Hcopy).
Qed.

(** One pass of the second loop removes the style's own image and document
    and brings back no path other than a family page. *)
Lemma relabelStyle_absent (fontDstDir familyName fieldType : string)
    (i : nat) (font : FontEntry) (st st' : FamilyState) (q : string) :
  relabelStyle fontDstDir familyName fieldType i font st = Some st' ->
  st_fs st' !! path_join fontDstDir
                 ((familyName ++ "-" ++ fe_style font ++ "." ++ fieldType) ++ ".png") = None /\
  st_fs st' !! path_join fontDstDir
                 ((familyName ++ "-" ++ fe_style font ++ "." ++ fieldType) ++ ".json") = None /\
  ((forall k, q <> familyPagePath fontDstDir familyName fieldType k) ->
   st_fs st !! q = None -> st_fs st' !! q = None).
Proof.
  unfold relabelStyle.
  set (paginatedFiles := array_sort compareStrings _).
  set (png := path_join fontDstDir (_ ++ ".png")).
  set (json := path_join fontDstDir (_ ++ ".json")).
  assert (Hclean : forall (st1 : FamilyState) (fs2 fs3 fs4 : FS) files,
    unlinkIfExists (st_fs st1) png = Some fs2 ->
    unlinkPaginated fontDstDir (familyName ++ "-" ++ fe_style font ++ "." ++ fieldType)
      files fs2 = Some fs3 ->
    unlinkIfExists fs3 json = Some fs4 ->
    fs4 !! png = None /\ fs4 !! json = None /\
    (st_fs st1 !! q = None -> fs4 !! q = None)).
  { intros st1 fs2 fs3 fs4 files Hu1 Hu2 Hu3.
    destruct (unlinkIfExists_absent _ _ _ q Hu1) as [Hpng Hq1].
    pose proof (unlinkPaginated_absent _ _ _ png _ _ Hu2 Hpng) as Hpng3.
    destruct (unlinkIfExists_absent _ _ _ png Hu3) as [Hjson Hpng4].
    split; [auto|]. split; [exact Hjson|].
    intros Hq. apply (unlinkIfExists_absent _ _ _ q Hu3).
    apply (unlinkPaginated_absent _ _ _ q _ _ Hu2). auto. }
  destruct (0 <? length paginatedFiles)%nat.
  - option_step st1 Hcopy. option_step fs2 Hu1. option_step fs3 Hu2.
    option_step fs4 Hu3. intros [= <-]. cbn [st_fs].
    destruct (Hclean _ _ _ _ _ Hu1 Hu2 Hu3) as (Hpng & Hjson & Hq).
    split; [exact Hpng|]. split; [exact Hjson|]. intros Hnot Habsent. apply Hq.
    now apply (copyPaginated_absent _ _ _ _ _ _ _ Hcopy).
  - destruct (existsSync (st_fs st) png).
    + option_step st1 Hcopy. option_step fs2 Hu1. option_step fs3 Hu2.
      option_step fs4 Hu3. intros [= <-]. cbn [st_fs].
      destruct (Hclean _ _ _ _ _ Hu1 Hu2 Hu3) as (Hpng & Hjson & Hq).
      split; [exact Hpng|]. split; [exact Hjson|]. intros Hnot Habsent. apply Hq.
      now apply (copyToFamilyPage_absent _ _ _ _ _ _ _ Hcopy).
    + cbn [mbind option_bind].
      option_step fs2 Hu1. option_step fs3 Hu2. option_step fs4 Hu3.
      intros [= <-]. cbn [st_fs].
      destruct (Hclean _ _ _ _ _ Hu1 Hu2 Hu3) as (Hpng & Hjson & Hq).
      split; [exact Hpng|]. split; [exact Hjson|]. intros _. exact Hq.
Qed.

Lemma relabelStyles_absent (fontDstDir familyName fieldType : string)
    (fonts : list FontEntry) :
  forall (i : nat) (st st' : FamilyState),
    relabelStyles fontDstDir familyName fieldType i fonts st = Some st' ->
    (forall q, (forall k, q <> familyPagePath fontDstDir familyName fieldType k) ->
               st_fs st !! q = None -> st_fs st' !! q = None) /\
    Forall (fun font =>
              st_fs st' !! path_join fontDstDir
                ((familyName ++ "-" ++ fe_style font ++ "." ++ fieldType) ++ ".png") = None /\
              st_fs st' !! path_join fontDstDir
                ((familyName ++ "-" ++ fe_style font ++ "." ++ fieldType) ++ ".json") = None)
      fonts.
Proof.
  induction fonts as [|font rest IH]; intros i st st'; cbn [relabelStyles].
  - intros [= <-]. split; [auto|constructor].
  - destruct (relabelStyle _ _ _ i font st) as [st1|] eqn:Hstep;
      cbn [mbind option_bind]; [|discriminate].
    intros Hrest. destruct (IH _ _ _ Hrest) as [Hkeep Hall].
    split.
    + intros q Hq Habsent. apply Hkeep; [exact Hq|].
      now apply (relabelStyle_absent _ _ _ _ _ _ _ q Hstep).
    + constructor; [|exact Hall].
      destruct (relabelStyle_absent _ _ _ _ _ _ _ "" Hstep) as (Hpng & Hjson & _).
      split; apply Hkeep; try assumption; intros k; apply individual_path_not_family.
Qed.

(** X14: when a run returns, with or without a descriptor, no font's
    per-style image [<family>-<style>.<type>.png] and no per-style document
    [<family>-<style>.<type>.json] is left in the destination directory. *)
Theorem generateFontFamily_removes_style_files (generateBMFont : Rasterizer)
    (fontDstDir familyName : string) (fonts : list FontEntry)
    (fieldType : FieldType) (fs fs' : FS) (result : option FontFamilyInfo) :
  generateFontFamily generateBMFont fontDstDir familyName fonts fieldType fs
    = Some (fs', result) ->
  Forall (fun font =>
            existsSync fs' (path_join fontDstDir
              ((familyName ++ "-" ++ fe_style font ++ "." ++ fieldType_str fieldType)
               ++ ".png")) = false /\
            existsSync fs' (path_join fontDstDir
              ((familyName ++ "-" ++ fe_style font ++ "." ++ fieldType_str fieldType)
               ++ ".json")) = false)
    fonts.
Proof.
  intros Hrun. destruct fonts as [|font rest]; [constructor|].
  apply generateFontFamily_run in Hrun.
  destruct Hrun as (st1 & st2 & _ & H2 & Hfinal).
  apply relabelStyles_absent in H2. destruct H2 as [_ Hall].
  assert (Hfs : forall q,
    st_fs st2 !! q = None ->
    q <> path_join fontDstDir (familyName ++ "." ++ fieldType_str fieldType ++ ".json") ->
    fs' !! q = None).
  { intros q Hq Hne. destruct (st_combinedJsonData st2); destruct Hfinal as [_ ->];
      [|exact Hq]. rewrite lookup_insert_ne; [exact Hq|congruence]. }
  eapply Forall_impl; [exact Hall|]. cbn beta. intros f [Hpng Hjson].
  unfold existsSync. split; apply bool_decide_eq_false_2; intros [x Hx].
  - rewrite (Hfs _ Hpng) in Hx; [discriminate|apply individual_path_not_family].
  - rewrite (Hfs _ Hjson) in Hx; [discriminate|apply individual_path_not_family].
Qed.

Lemma generateFontFamily_removes_style_files_witness :
  exists fs' result,
    generateFontFamily onePageRasterizer "font-dst" "Ubuntu"
      [ mkFontEntry "font-src/Ubuntu-Regular.ttf" "Regular" "Ubuntu-Regular.ttf";
        mkFontEntry "font-src/Ubuntu-Bold.ttf" "Bold" "Ubuntu-Bold.ttf" ]
      msdf ∅ = Some (fs', result) /\
    existsSync fs' "font-dst/Ubuntu-Regular.msdf.png" = false /\
    existsSync fs' "font-dst/Ubuntu-Bold.msdf.json" = false.
Proof.
  destruct (generateFontFamily onePageRasterizer "font-dst" "Ubuntu"
              [ mkFontEntry "font-src/Ubuntu-Regular.ttf" "Regular" "Ubuntu-Regular.ttf";
                mkFontEntry "font-src/Ubuntu-Bold.ttf" "Bold" "Ubuntu-Bold.ttf" ]
              msdf ∅) as [[fs' result]|] eqn:Hrun;
    [|vm_compute in Hrun; discriminate Hrun].
  pose proof (generateFontFamily_removes_style_files _ _ _ _ _ _ _ _ Hrun) as Hall.
  exists fs', result. split; [reflexivity|].
  inversion Hall as [|? ? [Hreg _] Hrest]; subst.
  inversion Hrest as [|? ? [_ Hbold] _]; subst.
  split; [exact Hreg|exact Hbold].
Defined.

(** ** Strings *)

Lemma prefix_spec (p s : string) :
  String.prefix p s = true <-> exists t, s = p ++ t.
Proof.
  revert s. induction p as [|c p IH]; intros s.
  - split; [intros _; now exists s|intros _; destruct s; reflexivity].
  - destruct s as [|d s]; cbn [String.prefix].
    + split; [discriminate|]. intros [t Ht]. discriminate.
    + destruct (ascii_dec c d) as [->|Hne].
      * rewrite IH. split; intros [t Ht]; exists t.
        -- change (String d s = String d (p ++ t)). now rewrite Ht.
        -- change (String d s = String d (p ++ t)) in Ht. now injection Ht.
      * split; [discriminate|]. intros [t Ht].
        change (String d s = String c (p ++ t)) in Ht. congruence.
Qed.

(** [s.endsWith(suf)] holds exactly when [s] is some text followed by [suf]. *)
Lemma endsWith_spec (s suf : string) :
  endsWith s suf = true <-> exists pre, s = pre ++ suf.
Proof.
  unfold endsWith. rewrite prefix_spec. split.
  - intros [t Ht]. exists (String.rev t).
    rewrite <- (string_rev_involutive s), Ht, string_rev_app, string_rev_involutive.
    reflexivity.
  - intros [pre ->]. exists (String.rev pre). apply string_rev_app.
Qed.

(** ** Entry point *)

Lemma includes_filter (P : string -> bool) (args : list string) (a : string) :
  P a = true -> includes (List.filter P args) a = includes args a.
Proof.
  intros Ha. unfold includes. induction args as [|b args IH]; [reflexivity|].
  cbn [List.filter existsb]. destruct (P b) eqn:Hb; cbn [existsb]; rewrite IH.
  - reflexivity.
  - destruct (String.eqb_spec a b) as [->|_]; [congruence|reflexivity].
Qed.

(** X15: [generateFonts] exits with "no font files" exactly when no name in
    the directory is some text followed by .ttf, .otf, .woff or .woff2
    (in lower case), whatever the arguments are: not even --help is
    answered then. *)
Theorem generateFonts_exits_without_fonts (files args : list string) :
  generateFonts files args = ExitNoFonts <->
  forall file ext pre : string, In file files -> In ext font_exts -> file <> pre ++ ext.
Proof.
  unfold generateFonts.
  set (isFont := fun file => existsb (fun ext => endsWith file ext) font_exts).
  assert (Hfont : forall file, isFont file = true <->
            exists ext pre, In ext font_exts /\ file = pre ++ ext).
  { intros file. unfold isFont. rewrite existsb_exists. split.
    - intros (ext & Hin & Hends). apply endsWith_spec in Hends.
      destruct Hends as [pre ->]. eauto.
    - intros (ext & pre & Hin & ->). exists ext. split; [exact Hin|].
      apply endsWith_spec. eauto. }
  destruct (List.filter isFont files) as [|f fontFiles] eqn:Hfilter; cbn [length Nat.eqb].
  - split; [|reflexivity]. intros _ file ext pre Hfile Hext ->.
    assert (Hin : In (pre ++ ext) (List.filter isFont files)).
    { apply filter_In. split; [exact Hfile|]. apply Hfont. eauto. }
    rewrite Hfilter in Hin. destruct Hin.
  - split.
    + destruct (includes args "--help" || includes args "-h");
        [discriminate|].
      destruct (if includes args "--family" || includes args "-f" then true
                else if includes args "--individual" || includes args "-i"
                     then false else false); discriminate.
    + intros Hnone. exfalso.
      assert (Hin : In f (List.filter isFont files)) by (rewrite Hfilter; now left).
      apply filter_In in Hin. destruct Hin as [Hfile Hf].
      apply Hfont in Hf. destruct Hf as (ext & pre & Hext & ->).
      exact (Hnone _ ext pre Hfile Hext eq_refl).
Qed.

(** X16: the flags --individual and -i have no effect on what
    [generateFonts] does; family mode is entered exactly when there is a
    font file, --family or -f is given (also next to --individual) and help
    is not asked for, and it receives the font files in directory order. *)
Theorem generateFonts_mode (files args : list string) :
  generateFonts files
    (List.filter (fun a => negb (String.eqb a "--individual") && negb (String.eqb a "-i"))
       args)
  = generateFonts files args /\
  (forall fontFiles,
     generateFonts files args = FamilyMode fontFiles <->
     fontFiles =
       List.filter (fun file => existsb (fun ext => endsWith file ext) font_exts) files /\
     fontFiles <> [] /\
     includes args "--family" || includes args "-f" = true /\
     includes args "--help" || includes args "-h" = false).
Proof.
  split.
  - unfold generateFonts. rewrite !includes_filter by reflexivity.
    destruct (length _ =? 0)%nat; [reflexivity|].
    destruct (includes args "--help" || includes args "-h"); [reflexivity|].
    destruct (includes args "--family" || includes args "-f"); [reflexivity|].
    destruct (includes args "--individual" || includes args "-i");
      destruct (includes (List.filter _ args) "--individual" ||
                includes (List.filter _ args) "-i"); reflexivity.
  - intros fontFiles. unfold generateFonts.
    destruct (List.filter _ files) as [|f ff] eqn:Hfilter; cbn [length Nat.eqb].
    + split; [discriminate|]. intros (-> & Hne & _). contradiction.
    + destruct (includes args "--help" || includes args "-h").
      * split; [discriminate|]. intros (_ & _ & _ & H). discriminate.
      * destruct (includes args "--family" || includes args "-f").
        -- split; [intros [= <-]; repeat split; discriminate|].
           intros (-> & _). reflexivity.
        -- split.
           ++ destruct (includes args "--individual" || includes args "-i"); discriminate.
           ++ intros (_ & _ & H & _). discriminate.
Qed.

(** ** Font introspection and grouping *)

Lemma str_or_nonempty (v : option string) (dflt : string) :
  dflt <> "" -> str_or v dflt <> "".
Proof.
  intros Hd. unfold str_or. destruct v as [s|]; [|exact Hd].
  destruct (String.eqb_spec s ""); assumption.
Qed.

(** The family key is never the empty string. *)
Lemma familyOf_nonempty (trim : string -> string) (fs : FS) (fontSrcDir fontFile : string) :
  familyOf trim fs fontSrcDir fontFile <> "".
Proof.
  unfold familyOf. apply str_or_nonempty, str_or_nonempty. discriminate.
Qed.

Lemma pushFont_keys (family : string) (entry : FontEntry)
    (fontFamilies : list (string * list FontEntry)) :
  (In family (map fst fontFamilies) ->
   map fst (pushFont family entry fontFamilies) = map fst fontFamilies) /\
  (~ In family (map fst fontFamilies) ->
   map fst (pushFont family entry fontFamilies) = (map fst fontFamilies ++ [family])%list).
Proof.
  induction fontFamilies as [|[key fonts] rest [IHin IHnew]]; cbn [pushFont map fst].
  - split; [intros []|reflexivity].
  - destruct (String.eqb_spec key family) as [->|Hne]; cbn [map fst].
    + split; [reflexivity|]. intros Hnot. exfalso. apply Hnot. now left.
    + split.
      * intros [Heq|Hin]; [contradiction|]. now rewrite IHin.
      * intros Hnot. cbn [app]. rewrite IHnew; [reflexivity|]. intros Hin. apply Hnot. now right.
Qed.

Lemma pushFont_In (family : string) (entry : FontEntry)
    (fontFamilies : list (string * list FontEntry)) (key : string) (fonts : list FontEntry) :
  NoDup (map fst fontFamilies) ->
  In (key, fonts) (pushFont family entry fontFamilies) ->
  (key <> family /\ In (key, fonts) fontFamilies) \/
  (key = family /\
   ((exists old, In (family, old) fontFamilies /\ fonts = (old ++ [entry])%list) \/
    (~ In family (map fst fontFamilies) /\ fonts = [entry]))).
Proof.
  induction fontFamilies as [|[k fs0] rest IH]; cbn [pushFont map fst]; intros Hnd Hin.
  - destruct Hin as [Heq|[]]. injection Heq as <- <-.
    right. split; [reflexivity|]. right. split; [tauto|reflexivity].
  - inversion Hnd as [|? ? Hk Hrest]; subst.
    destruct (String.eqb_spec k family) as [->|Hne].
    + destruct Hin as [Heq|Hin].
      * injection Heq as <- <-.
        right. split; [reflexivity|]. left. exists fs0. split; [now left|reflexivity].
      * left. split; [|now right]. intros ->. apply Hk. apply list_elem_of_In.
        change family with (fst (family, fonts)). now apply in_map.
    + destruct Hin as [Heq|Hin].
      * injection Heq as <- <-. left. split; [exact Hne|now left].
      * destruct (IH Hrest Hin) as [[Hkey Hin']|[-> [(old & Hold & ->)|[Hnew ->]]]].
        -- left. split; [exact Hkey|now right].
        -- right. split; [reflexivity|]. left. exists old. split; [now right|reflexivity].
        -- right. split; [reflexivity|]. right. split; [|reflexivity].
           intros [Heq|Hin']; [congruence|contradiction].
Qed.

Lemma filter_none {A : Type} (P : A -> bool) (l : list A) :
  (forall x, In x l -> P x = false) -> List.filter P l = [].
Proof.
  induction l as [|x l IH]; intros H; [reflexivity|].
  cbn [List.filter]. rewrite (H x (or_introl eq_refl)). apply IH.
  intros y Hy. apply H. now right.
Qed.

(** The grouping loop: distinct keys, and under each key the entries of the
    existing files with that key, in file order. *)
Lemma groupFonts_invariant (trim : string -> string) (fs : FS)
    (fontSrcDir : string) (fontFiles : list string) :
  let P := fun (family fontFile : string) =>
             existsSync fs (path_join fontSrcDir fontFile) &&
             String.eqb (familyOf trim fs fontSrcDir fontFile) family in
  NoDup (map fst (groupFonts trim fs fontSrcDir fontFiles)) /\
  (forall family fonts,
     In (family, fonts) (groupFonts trim fs fontSrcDir fontFiles) ->
     fonts <> [] /\
     fonts = map (entryOf trim fs fontSrcDir) (List.filter (P family) fontFiles)) /\
  (forall fontFile,
     In fontFile fontFiles -> existsSync fs (path_join fontSrcDir fontFile) = true ->
     In (familyOf trim fs fontSrcDir fontFile)
       (map fst (groupFonts trim fs fontSrcDir fontFiles))).
Proof.
  intros P.
  unfold groupFonts. induction fontFiles as [|f l IH] using rev_ind.
  - cbn. split; [constructor|]. split; [intros ? ? []|intros ? []].
  - rewrite fold_left_app. cbn [fold_left].
    destruct IH as (Hnd & Hgroups & Hcover).
    set (groups := fold_left _ l []) in *.
    destruct (existsSync fs (path_join fontSrcDir f)) eqn:Hex.
    + set (fam := familyOf trim fs fontSrcDir f).
      destruct (pushFont_keys fam (entryOf trim fs fontSrcDir f) groups)
        as [Hkin Hknew].
      split.
      { destruct (in_dec string_dec fam (map fst groups)) as [Hin|Hnot].
        - now rewrite (Hkin Hin).
        - rewrite (Hknew Hnot). apply NoDup_app. split; [exact Hnd|].
          split; [|apply NoDup_singleton].
          intros x Hx [->|[]]%list_elem_of_In. apply Hnot. now apply list_elem_of_In. }
      split.
      { intros family fonts Hin. rewrite List.filter_app. cbn [List.filter].
        apply pushFont_In in Hin; [|exact Hnd].
        destruct Hin as [[Hkey Hin]|[-> [(old & Hold & ->)|[Hnew ->]]]].
        - destruct (Hgroups _ _ Hin) as [Hne ->]. split; [exact Hne|].
          assert (Hp : P family f = false).
          { unfold P. fold fam. rewrite Hex.
            destruct (String.eqb_spec fam family) as [Heq|_]; [congruence|reflexivity]. }
          rewrite Hp. now rewrite app_nil_r.
        - destruct (Hgroups _ _ Hold) as [Hne ->].
          split; [intros Habs; now apply app_eq_nil in Habs as [_ ?]|].
          assert (Hp : P fam f = true).
          { unfold P. fold fam. now rewrite Hex, String.eqb_refl. }
          rewrite Hp. now rewrite map_app.
        - split; [discriminate|].
          assert (Hp : P fam f = true).
          { unfold P. fold fam. now rewrite Hex, String.eqb_refl. }
          rewrite Hp.
          rewrite filter_none; [reflexivity|].
          intros x Hx. unfold P.
          destruct (existsSync fs (path_join fontSrcDir x)) eqn:Hx'; [|reflexivity].
          cbn. destruct (String.eqb_spec (familyOf trim fs fontSrcDir x) fam)
            as [Heq|_]; [|reflexivity].
          exfalso. apply Hnew. rewrite <- Heq. now apply Hcover. }
      intros x Hx Hx'. apply in_app_or in Hx.
      assert (Hsub : forall k, In k (map fst groups) ->
                In k (map fst (pushFont fam (entryOf trim fs fontSrcDir f) groups))).
      { intros k Hk. destruct (in_dec string_dec fam (map fst groups)) as [Hin|Hnot].
        - now rewrite (Hkin Hin).
        - rewrite (Hknew Hnot). apply in_or_app. now left. }
      destruct Hx as [Hx|[<-|[]]]; [now apply Hsub, Hcover|].
      fold fam. destruct (in_dec string_dec fam (map fst groups)) as [Hin|Hnot].
      * now rewrite (Hkin Hin).
      * rewrite (Hknew Hnot). apply in_or_app. right. now left.
    + split; [exact Hnd|]. split.
      { intros family fonts Hin. destruct (Hgroups _ _ Hin) as [Hne ->].
        split; [exact Hne|]. rewrite List.filter_app. cbn [List.filter].
        assert (Hp : P family f = false) by (unfold P; now rewrite Hex).
        rewrite Hp. now rewrite app_nil_r. }
      intros x Hx Hx'. apply in_app_or in Hx.
      destruct Hx as [Hx|[<-|[]]]; [now apply Hcover|congruence].
Qed.

(** X17: the grouping of [genFontsByFamily] is a partition of the existing
    font files by family key: the keys are distinct and not empty, the group
    of a key holds exactly the entries of the existing files with that key,
    in the order of the file list, and no group is empty. *)
Theorem groupFonts_partition (trim : string -> string) (fs : FS)
    (fontSrcDir : string) (fontFiles : list string) :
  let fontFamilies := groupFonts trim fs fontSrcDir fontFiles in
  NoDup (map fst fontFamilies) /\
  (forall family fonts,
     In (family, fonts) fontFamilies ->
     family <> "" /\ fonts <> [] /\
     fonts =
       map (entryOf trim fs fontSrcDir)
         (List.filter
            (fun fontFile =>
               existsSync fs (path_join fontSrcDir fontFile) &&
               String.eqb (familyOf trim fs fontSrcDir fontFile) family)
            fontFiles)) /\
  (forall fontFile,
     In fontFile fontFiles -> existsSync fs (path_join fontSrcDir fontFile) = true ->
     In (familyOf trim fs fontSrcDir fontFile) (map fst fontFamilies)).
Proof.
  set (P := fun (family fontFile : string) =>
              existsSync fs (path_join fontSrcDir fontFile) &&
              String.eqb (familyOf trim fs fontSrcDir fontFile) family).
  pose proof (groupFonts_invariant trim fs fontSrcDir fontFiles) as Hinv.
  cbv zeta in Hinv. fold P in Hinv.
  cbv zeta. destruct Hinv as (Hnd & Hgroups & Hcover).
  split; [exact Hnd|]. split; [|exact Hcover].
  intros family fonts Hin. destruct (Hgroups _ _ Hin) as [Hne Heq].
  split; [|split; [exact Hne|exact Heq]].
  destruct (List.filter (P family) fontFiles) as [|f0 rest] eqn:Hfilter.
  - rewrite Heq in Hne. contradiction.
  - assert (Hf0 : In f0 (List.filter (P family) fontFiles)) by (rewrite Hfilter; now left).
    apply filter_In in Hf0. destruct Hf0 as [_ Hp]. unfold P in Hp.
    apply andb_true_iff in Hp. destruct Hp as [_ Hp]. apply String.eqb_eq in Hp.
    rewrite <- Hp. apply familyOf_nonempty.
Qed.

(** X18: a font file whose extension is not .ttf or .otf in any letter case
    (a web font, say), or whose font cannot be loaded, is filed with the
    style "Regular" under the text of its name before the first "-" (or
    under "Unknown" when that text is empty). *)
Theorem unreadable_font_is_regular (trim : string -> string) (fs : FS)
    (fontSrcDir fontFile : string) :
  (toLowerCase (extname (path_join fontSrcDir fontFile)) <> ".ttf" /\
   toLowerCase (extname (path_join fontSrcDir fontFile)) <> ".otf") \/
  opentype_load fs (path_join fontSrcDir fontFile) = None ->
  entryOf trim fs fontSrcDir fontFile =
    mkFontEntry (path_join fontSrcDir fontFile) "Regular" fontFile /\
  familyOf trim fs fontSrcDir fontFile =
    (if String.eqb (splitFirst "-" (parseName fontFile)) "" then "Unknown"
     else splitFirst "-" (parseName fontFile)).
Proof.
  intros Hunreadable.
  assert (Hinfo : getFontInfo trim fs (path_join fontSrcDir fontFile) = mkFontInfo None None).
  { unfold getFontInfo.
    destruct (String.eqb_spec (toLowerCase (extname (path_join fontSrcDir fontFile))) ".ttf")
      as [Httf|Httf];
    destruct (String.eqb_spec (toLowerCase (extname (path_join fontSrcDir fontFile))) ".otf")
      as [Hotf|Hotf]; cbn [negb andb]; try reflexivity;
    (destruct Hunreadable as [[H1 H2]|Hload];
     [congruence|now rewrite Hload]). }
  unfold entryOf, familyOf. rewrite Hinfo. split; reflexivity.
Qed.

Lemma unreadable_font_is_regular_witness :
  entryOf (fun s => s) ∅ "font-src" "Ubuntu-Bold.woff" =
    mkFontEntry "font-src/Ubuntu-Bold.woff" "Regular" "Ubuntu-Bold.woff" /\
  familyOf (fun s => s) ∅ "font-src" "Ubuntu-Bold.woff" = "Ubuntu".
Proof.
  apply (unreadable_font_is_regular (fun s => s) ∅ "font-src" "Ubuntu-Bold.woff").
  left. split; vm_compute; discriminate.
Defined.

(** X19: for a .ttf or .otf file that loads, [getFontInfo] reports the
    font's family name and always a style: never the empty string, and equal
    to the family only when that is "Regular"; a subfamily name that is not
    empty, not "Regular" and not the family name is the style. *)
Theorem getFontInfo_style (trim : string -> string) (fs : FS) (fontPath : string)
    (font : OpenTypeFont) :
  opentype_load fs fontPath = Some font ->
  toLowerCase (extname fontPath) = ".ttf" \/ toLowerCase (extname fontPath) = ".otf" ->
  let info := getFontInfo trim fs fontPath in
  fi_fontFamily info = names_fontFamily font /\
  (exists style,
     fi_fontStyle info = Some style /\ style <> "" /\
     (fi_fontFamily info = Some style -> style = "Regular") /\
     (forall subfamily,
        names_fontSubfamily font = Some subfamily ->
        subfamily <> "" -> subfamily <> "Regular" ->
        names_fontFamily font <> Some subfamily ->
        style = subfamily)).
Proof.
  intros Hload Hext info. subst info. unfold getFontInfo. rewrite Hload.
  assert (Hguard : negb (String.eqb (toLowerCase (extname fontPath)) ".ttf") &&
                  negb (String.eqb (toLowerCase (extname fontPath)) ".otf") = false).
  { destruct Hext as [-> | ->]; reflexivity. }
  rewrite Hguard. cbn [fi_fontFamily fi_fontStyle].
  split; [reflexivity|].
  set (candidate :=
         if falsy (names_fontSubfamily font) ||
            optionStringEqb (names_fontSubfamily font) (Some "Regular")
         then _ else names_fontSubfamily font).
  assert (Hcandidate : forall subfamily,
            names_fontSubfamily font = Some subfamily ->
            subfamily <> "" -> subfamily <> "Regular" ->
            candidate = Some subfamily).
  { intros subfamily Hsub Hne Hnr. unfold candidate. rewrite Hsub. cbn.
    destruct (String.eqb_spec subfamily ""); [contradiction|].
    destruct (String.eqb_spec subfamily "Regular"); [contradiction|reflexivity]. }
  clearbody candidate.
  destruct (falsy candidate || optionStringEqb candidate (names_fontFamily font)) eqn:Hfinal.
  - exists "Regular". split; [reflexivity|]. split; [discriminate|].
    split; [reflexivity|].
    intros subfamily Hsub Hne Hnr Hfam. rewrite (Hcandidate _ Hsub Hne Hnr) in Hfinal.
    cbn in Hfinal. destruct (String.eqb_spec subfamily ""); [contradiction|].
    cbn in Hfinal. destruct (names_fontFamily font) as [family|]; [|discriminate].
    cbn in Hfinal. apply String.eqb_eq in Hfinal. congruence.
  - apply orb_false_iff in Hfinal. destruct Hfinal as [Hfalsy Hdiff].
    destruct candidate as [style|]; [|discriminate]. cbn in Hfalsy.
    exists style. split; [reflexivity|].
    split; [intros ->; discriminate|]. split.
    + intros Hfam. rewrite Hfam in Hdiff. cbn in Hdiff.
      rewrite String.eqb_refl in Hdiff. discriminate.
    + intros subfamily Hsub Hne Hnr _. specialize (Hcandidate _ Hsub Hne Hnr).
      congruence.
Qed.

Lemma getFontInfo_style_witness :
  fi_fontFamily (getFontInfo (fun s => s)
                   (<["font-src/Ubuntu-Bold.ttf" :=
                      FontFile (mkOpenTypeFont (Some "Ubuntu") (Some "Bold")
                                  (Some "Ubuntu Bold") 1900 (-500) 100 2048)]> ∅)
                   "font-src/Ubuntu-Bold.ttf") = Some "Ubuntu" /\
  fi_fontStyle (getFontInfo (fun s => s)
                  (<["font-src/Ubuntu-Bold.ttf" :=
                     FontFile (mkOpenTypeFont (Some "Ubuntu") (Some "Bold")
                                 (Some "Ubuntu Bold") 1900 (-500) 100 2048)]> ∅)
                  "font-src/Ubuntu-Bold.ttf") = Some "Bold".
Proof.
  destruct (getFontInfo_style (fun s => s)
              (<["font-src/Ubuntu-Bold.ttf" :=
                 FontFile (mkOpenTypeFont (Some "Ubuntu") (Some "Bold")
                             (Some "Ubuntu Bold") 1900 (-500) 100 2048)]> ∅)
              "font-src/Ubuntu-Bold.ttf"
              (mkOpenTypeFont (Some "Ubuntu") (Some "Bold") (Some "Ubuntu Bold")
                 1900 (-500) 100 2048))
    as (Hfamily & style & Hstyle & _ & _ & Hsub).
  - reflexivity.
  - left. reflexivity.
  - split; [exact Hfamily|]. rewrite Hstyle. f_equal.
    apply Hsub; [reflexivity|discriminate..].
Defined.

(** ** [genFontsByFamily] *)

Lemma generateFontFamily_descriptor (generateBMFont : Rasterizer)
    (fontDstDir familyName : string) (fonts : list FontEntry)
    (fieldType : FieldType) (fs fs' : FS) (result : option FontFamilyInfo) :
  fonts <> [] ->
  generateFontFamily generateBMFont fontDstDir familyName fonts fieldType fs
    = Some (fs', result) ->
  exists info,
    result = Some info /\ ffi_fontFamily info = familyName /\
    ffi_fieldType info = fieldType /\ ffi_dstDir info = fontDstDir /\
    length (ffi_styles info) = length fonts.
Proof.
  intros Hne Hrun. destruct result as [info|].
  - exists info. split; [reflexivity|].
    pose proof (generateFontFamily_descriptor_shape _ _ _ _ _ _ _ _ Hrun)
      as (created & Hlen & Hstyles & _).
    destruct fonts as [|font rest]; [contradiction|].
    apply generateFontFamily_run in Hrun.
    destruct Hrun as (st1 & st2 & _ & _ & Hfinal).
    destruct (st_combinedJsonData st2); destruct Hfinal as [Hres _]; [|discriminate].
    injection Hres as ->. cbn [ffi_fontFamily ffi_fieldType ffi_dstDir].
    repeat split. cbn [ffi_styles] in Hstyles. cbn [ffi_styles]. rewrite Hstyles.
    now apply numbered_styles_length.
  - exfalso.
    now apply (generateFontFamily_not_null generateBMFont fontDstDir familyName fonts
                 fieldType fs fs' Hne).
Qed.

Lemma generateFamilies_descriptors (localeCompare : string -> string -> Z)
    (generateBMFont : string -> Rasterizer) (fontDstDir : string) (fieldType : FieldType)
    (fontFamilies : list (string * list FontEntry)) :
  Forall (fun group => snd group <> []) fontFamilies ->
  forall (results out : list FontFamilyInfo) (fs fs' : FS),
    generateFamilies localeCompare generateBMFont fontDstDir fieldType fontFamilies
      results fs = Some (fs', out) ->
    exists added,
      out = (results ++ added)%list /\
      Forall2 (fun group info =>
                 ffi_fontFamily info = fst group /\ ffi_fieldType info = fieldType /\
                 ffi_dstDir info = fontDstDir /\
                 length (ffi_styles info) = length (snd group))
        fontFamilies added.
Proof.
  induction 1 as [|[familyName fonts] rest Hne _ IH]; intros results out fs fs';
    cbn [generateFamilies].
  - intros [= <- <-]. exists []. rewrite app_nil_r. split; [reflexivity|constructor].
  - destruct (generateFontFamily _ _ _ _ _ _) as [[fs1 familyResult]|] eqn:Hfamily;
      cbn [mbind option_bind]; [|discriminate].
    intros Hrest.
    assert (Hsorted : sortFonts localeCompare fonts <> []).
    { intros Hnil. cbn [snd] in Hne. apply Hne.
      apply Permutation_nil. rewrite <- Hnil. symmetry. apply array_sort_perm. }
    destruct (generateFontFamily_descriptor _ _ _ _ _ _ _ _ Hsorted Hfamily)
      as (info & -> & Hname & Htype & Hdir & Hlen).
    apply IH in Hrest. destruct Hrest as (added & -> & Hall).
    exists (info :: added). rewrite <- app_assoc. split; [reflexivity|].
    constructor; [|exact Hall]. cbn [fst snd]. repeat split; try assumption.
    rewrite Hlen. symmetry. apply Permutation_length, array_sort_perm.
Qed.

(** X20: when [genFontsByFamily] returns, it returns exactly one descriptor
    per family of the grouping, in the order of the grouping: each carries
    the family's key, the requested field type and destination directory,
    and one style entry per font of the family. *)
Theorem genFontsByFamily_one_descriptor_per_family (trim : string -> string)
    (localeCompare : string -> string -> Z) (generateBMFont : string -> Rasterizer)
    (fontSrcDir fontDstDir : string) (fontFiles : list string) (fieldType : FieldType)
    (fs fs' : FS) (results : list FontFamilyInfo) :
  genFontsByFamily trim localeCompare generateBMFont fontSrcDir fontDstDir fontFiles
    fieldType fs = Some (fs', results) ->
  Forall2 (fun group info =>
             ffi_fontFamily info = fst group /\ ffi_fieldType info = fieldType /\
             ffi_dstDir info = fontDstDir /\
             length (ffi_styles info) = length (snd group))
    (groupFonts trim fs fontSrcDir fontFiles) results.
Proof.
  unfold genFontsByFamily. intros Hrun.
  apply generateFamilies_descriptors in Hrun.
  - destruct Hrun as (added & -> & Hall). exact Hall.
  - apply Forall_forall. intros [family fonts] Hin. cbn [snd].
    apply list_elem_of_In in Hin.
    now apply (groupFonts_invariant trim fs fontSrcDir fontFiles) in Hin.
Qed.

Lemma genFontsByFamily_one_descriptor_per_family_witness :
  exists fs' results,
    genFontsByFamily (fun s => s) compareStrings (fun _ => onePageRasterizer)
      "font-src" "font-dst" ["Ubuntu-Bold.ttf"; "Lato-Regular.woff"; "Ubuntu-Regular.ttf"]
      msdf (<["font-src/Lato-Regular.woff" := PngFile []]> (familyFs 2048))
      = Some (fs', results) /\
    map ffi_fontFamily results = ["Ubuntu"; "Lato"] /\
    map (fun info => length (ffi_styles info)) results = [2%nat; 1%nat].
Proof.
  destruct (genFontsByFamily (fun s => s) compareStrings (fun _ => onePageRasterizer)
              "font-src" "font-dst"
              ["Ubuntu-Bold.ttf"; "Lato-Regular.woff"; "Ubuntu-Regular.ttf"]
              msdf (<["font-src/Lato-Regular.woff" := PngFile []]> (familyFs 2048)))
    as [[fs' results]|] eqn:Hrun; [|vm_compute in Hrun; discriminate Hrun].
  pose proof (genFontsByFamily_one_descriptor_per_family _ _ _ _ _ _ _ _ _ _ Hrun) as Hall.
  exists fs', results. split; [reflexivity|].
  change (groupFonts (fun s => s)
            (<["font-src/Lato-Regular.woff" := PngFile []]> (familyFs 2048))
            "font-src" ["Ubuntu-Bold.ttf"; "Lato-Regular.woff"; "Ubuntu-Regular.ttf"])
    with [ ("Ubuntu",
            [ entryOf (fun s => s)
                (<["font-src/Lato-Regular.woff" := PngFile []]> (familyFs 2048))
                "font-src" "Ubuntu-Bold.ttf";
              entryOf (fun s => s)
                (<["font-src/Lato-Regular.woff" := PngFile []]> (familyFs 2048))
                "font-src" "Ubuntu-Regular.ttf" ]);
           ("Lato",
            [ entryOf (fun s => s)
                (<["font-src/Lato-Regular.woff" := PngFile []]> (familyFs 2048))
                "font-src" "Lato-Regular.woff" ]) ] in Hall.
  inversion Hall as [|? i1 ? r1 (H1 & _ & _ & L1) Hrest]; subst.
  inversion Hrest as [|? i2 ? r2 (H2 & _ & _ & L2) Hnil]; subst.
  inversion Hnil; subst. cbn [map fst snd length] in *.
  rewrite H1, H2, L1, L2. split; reflexivity.
Defined.

(** ** Options of a single-font run *)

(** X21: whatever overrides.json holds, the font size and the distance
    range handed to the rasterizer are never zero: each is either the
    default (42, 4) or the non-zero override of the font for the field type.
    A texture size is always set, the rasterizer is asked for "sdf" when the
    field type is ssdf, and a charset is set exactly when a charset
    configuration exists. *)
Theorem fontOptions_settings (prototypeText : string -> string)
    (overrides : Overrides)
    (charsetConfig : option CharsetConfig) (presets : gmap string string)
    (fontNameNoExt : string) (fieldType : FieldType) :
  let options :=
    fst (fontOptions prototypeText overrides charsetConfig presets fontNameNoExt
           fieldType) in
  let entry := overrideFor overrides fontNameNoExt (fieldType_str fieldType) in
  opt_fontSize options <> 0 /\
  opt_distanceRange options <> 0 /\
  (opt_fontSize options = 42 \/ entry ≫= ov_fontSize = Some (opt_fontSize options)) /\
  (opt_distanceRange options = 4
   \/ entry ≫= ov_distanceRange = Some (opt_distanceRange options)) /\
  opt_textureSize options = Some (default (512, 512) (entry ≫= ov_textureSize)) /\
  opt_fieldType options = (if fieldType is ssdf then "sdf" else "msdf") /\
  (opt_charset options = None <-> charsetConfig = None).
Proof.
  assert (Hor : forall v d, d <> 0 ->
            num_or v d <> 0 /\ (num_or v d = d \/ v = Some (num_or v d))).
  { intros [x|] d Hd; cbn; [|auto]. unfold js_or.
    destruct (Z.eqb_spec x 0); auto. }
  cbn zeta. unfold fontOptions.
  set (entry := overrideFor overrides fontNameNoExt (fieldType_str fieldType)).
  destruct (Hor (entry ≫= ov_fontSize) 42 ltac:(lia)) as [Hs1 Hs2].
  destruct (Hor (entry ≫= ov_distanceRange) 4 ltac:(lia)) as [Hd1 Hd2].
  destruct charsetConfig as [config|]; cbn;
    [destruct (applyPresets _ _ _ _) as [charset log]; cbn|];
    (repeat split; auto; try (destruct fieldType; reflexivity); try discriminate).
Qed.

(** The charset after a run of the preset loop, and its warnings. *)
Lemma applyPresets_spec (prototypeText : string -> string)
    (presets : gmap string string) (keys : list string) (charset : string) :
  applyPresets prototypeText presets keys charset
  = (charset ++ String.concat "" (omap (presetFor prototypeText presets) keys),
     map (fun key => (LogWarn, "preset, '" ++ key
                               ++ "' is not available in msdf-generator presets"))
         (List.filter (fun key => bool_decide (presetFor prototypeText presets key = None))
            keys)).
Proof.
  revert charset. induction keys as [|key rest IH]; intros charset.
  - cbn. now rewrite string_app_nil_r.
  - cbn [applyPresets omap list_omap List.filter].
    destruct (presetFor prototypeText presets key) as [preset|] eqn:Hkey.
    + rewrite IH. rewrite bool_decide_eq_false_2 by discriminate.
      f_equal. rewrite string_app_assoc. f_equal.
      destruct (omap (presetFor prototypeText presets) rest) as [|p ps] eqn:Hrest.
      * cbn. now rewrite string_app_nil_r.
      * reflexivity.
    + unfold bind, console_warn. rewrite IH.
      rewrite bool_decide_eq_true_2 by reflexivity. reflexivity.
Qed.

(** A key stands for a preset exactly when it is not empty and is an own
    key of the table or a name inherited from [Object.prototype]. *)
Lemma presetFor_None (prototypeText : string -> string)
    (presets : gmap string string) (key : string) :
  presetFor prototypeText presets key = None
  <-> key = "" \/ (presets !! key = None /\ key ∉ objectPrototypeNames).
Proof.
  unfold presetFor. destruct (String.eqb_spec key "") as [->|Hne].
  - split; auto.
  - destruct (presets !! key) as [preset|] eqn:Hown.
    + split; [discriminate|]. intros [?|[? _]]; [contradiction|discriminate].
    + case_bool_decide as Hin.
      * split; [discriminate|]. intros [?|[_ ?]]; contradiction.
      * split; auto.
Qed.

(** X22: the charset handed to the rasterizer is the configured charset
    followed by the texts of the keys that are found, in the order of the
    configuration.  A key is found when it is not empty and is either an own
    key of the preset table, which contributes its preset, or one of the
    names every object inherits ([constructor], [toString], ...), which
    contributes the text of the inherited value.  Every other key gives one
    warning and contributes nothing, so the loop is silent exactly when
    every key is found; [constructor], for one, is appended without a
    warning although the table has no such preset. *)
Theorem applyPresets_charset (prototypeText : string -> string)
    (presets : gmap string string) (keys : list string) (charset : string) :
  fst (applyPresets prototypeText presets keys charset)
  = charset ++ String.concat "" (omap (presetFor prototypeText presets) keys) /\
  map snd (snd (applyPresets prototypeText presets keys charset))
  = map (fun key => "preset, '" ++ key
                    ++ "' is not available in msdf-generator presets")
      (List.filter
         (fun key => String.eqb key ""
                     || (bool_decide (presets !! key = None)
                         && negb (bool_decide (key ∈ objectPrototypeNames))))
         keys) /\
  (snd (applyPresets prototypeText presets keys charset) = []
   <-> Forall (fun key => key <> "" /\
                          (is_Some (presets !! key) \/ key ∈ objectPrototypeNames))
         keys) /\
  (forall key preset,
     key <> "" -> presets !! key = Some preset ->
     presetFor prototypeText presets key = Some preset) /\
  (presets !! "constructor" = None ->
   applyPresets prototypeText presets ["constructor"] charset
   = (charset ++ prototypeText "constructor", [])).
Proof.
  rewrite applyPresets_spec. cbn [fst snd].
  assert (Hsame : forall key,
            bool_decide (presetFor prototypeText presets key = None)
            = (String.eqb key ""
               || (bool_decide (presets !! key = None)
                   && negb (bool_decide (key ∈ objectPrototypeNames))))%bool).
  { intros key. destruct (bool_decide (presetFor prototypeText presets key = None)) eqn:E.
    - apply bool_decide_eq_true_1 in E. apply presetFor_None in E. symmetry.
      destruct E as [->|[Hown Hproto]]; [reflexivity|].
      rewrite (bool_decide_eq_true_2 _ Hown), (bool_decide_eq_false_2 _ Hproto).
      apply orb_true_r.
    - apply bool_decide_eq_false_1 in E. rewrite presetFor_None in E. symmetry.
      destruct (String.eqb_spec key "") as [Hempty|Hne]; [exfalso; tauto|].
      cbn [orb]. apply andb_false_iff.
      destruct (decide (presets !! key = None)) as [Hown|Hown].
      + right. apply negb_false_iff, bool_decide_eq_true_2.
        destruct (decide (key ∈ objectPrototypeNames)); [assumption|].
        exfalso. apply E. right. split; assumption.
      + left. now apply bool_decide_eq_false_2. }
  split; [reflexivity|]. split; [|split; [|split]].
  - rewrite map_map. cbn [snd]. f_equal.
    induction keys as [|key rest IH]; [reflexivity|].
    cbn [List.filter]. rewrite Hsame, IH. reflexivity.
  - induction keys as [|key rest IH]; [cbn; split; auto|].
    cbn [List.filter]. rewrite Forall_cons.
    destruct (bool_decide (presetFor prototypeText presets key = None)) eqn:Hkey.
    + split; [discriminate|]. intros [[Hne Hin] _]. exfalso.
      apply bool_decide_eq_true_1 in Hkey. apply presetFor_None in Hkey.
      destruct Hkey as [?|[Hown Hproto]]; [contradiction|].
      destruct Hin as [[? Hin]|Hin]; [congruence|contradiction].
    + rewrite IH. apply bool_decide_eq_false_1 in Hkey.
      rewrite presetFor_None in Hkey.
      split; [|intros [_ H]; exact H].
      intros H. split; [|exact H]. split.
      * intros ->. apply Hkey. now left.
      * destruct (presets !! key) eqn:Hown; [left; eauto|].
        right. destruct (decide (key ∈ objectPrototypeNames)); [assumption|].
        exfalso. apply Hkey. right. split; [reflexivity|assumption].
  - intros key preset Hne Hown. unfold presetFor.
    destruct (String.eqb_spec key ""); [contradiction|]. now rewrite Hown.
  - intros Hown. rewrite applyPresets_spec. cbn [omap list_omap List.filter].
    unfold presetFor. cbn [String.eqb Ascii.eqb]. rewrite Hown. cbn.
    reflexivity.
Qed.

(** X23: a run answers null exactly when the field type is neither "msdf"
    nor "ssdf" or the font file is missing from the source directory, and
    then it leaves every file as it was; the rasterizer and the image codec
    play no part. *)
Theorem genFont_null (cwd : string) (prototypeText : string -> string)
    (fontSrcDir fontDstDir : string) (overrides : Overrides)
    (charsetConfig : option CharsetConfig) (presets : gmap string string)
    (generateBMFont : OptionsRasterizer)
    (loadImage : list Byte.byte -> option TextureSize)
    (toBuffer : TextureLayout -> list (list Byte.byte) -> list Byte.byte)
    (fontFileName fieldType : string) (fs fs' : FS) :
  SingleFont.genFont cwd prototypeText fontSrcDir fontDstDir overrides charsetConfig
    presets generateBMFont loadImage toBuffer fontFileName fieldType fs
  = Some (fs', None)
  <-> fs' = fs /\
      ((fieldType <> "msdf" /\ fieldType <> "ssdf")
       \/ existsSync fs (absolute cwd (path_join fontSrcDir fontFileName)) = false).
Proof.
  unfold SingleFont.genFont, SingleFont.parseFieldType.
  destruct (String.eqb_spec fieldType "msdf") as [->|Hm].
  - destruct (existsSync fs _) eqn:Hex; cbn [negb].
    + split.
      * destruct (SingleFont.generateFont _ _ _ _ _ _ _ _ _ _) as [[fs1 result]|];
          cbn; discriminate.
      * intros [_ [[H _]|H]]; [contradiction|discriminate].
    + split; [intros [= <-]; auto|intros [-> _]; reflexivity].
  - destruct (String.eqb_spec fieldType "ssdf") as [->|Hs].
    + destruct (existsSync fs _) eqn:Hex; cbn [negb].
      * split.
        -- destruct (SingleFont.generateFont _ _ _ _ _ _ _ _ _ _) as [[fs1 result]|];
             cbn; discriminate.
        -- intros [_ [[_ H]|H]]; [contradiction|discriminate].
      * split; [intros [= <-]; auto|intros [-> _]; reflexivity].
    + split; [intros [= <-]; auto|intros [-> _]; reflexivity].
Qed.
(** ** A single-font run on the file system *)

Lemma prefix_empty (s : string) : String.prefix "" s = true.
Proof. destruct s; reflexivity. Qed.

(** The files of one directory resolve to one prefix followed by their
    names. *)
Lemma path_resolve_prefix (cwd dir : string) :
  exists pre, forall name, path_resolve cwd dir name = pre ++ name.
Proof.
  unfold path_resolve, absolute, path_join, startsWith.
  destruct dir as [|c d].
  - exists "/". intros name. change ("" ++ "/" ++ name) with (String "/" name).
    cbn [String.prefix]. destruct (ascii_dec "/" "/"); [|congruence].
    now rewrite prefix_empty.
  - destruct (ascii_dec "/" c) as [Hc|Hc].
    + exists (String c d ++ "/"). intros name.
      change (String c d ++ "/" ++ name) with (String c (d ++ "/" ++ name)).
      cbn [String.prefix]. destruct (ascii_dec "/" c); [|contradiction].
      rewrite prefix_empty.
      change (String c (d ++ "/" ++ name)) with (String c d ++ "/" ++ name).
      now rewrite <- string_app_assoc.
    + exists (cwd ++ "/" ++ String c d ++ "/"). intros name.
      change (String c d ++ "/" ++ name) with (String c (d ++ "/" ++ name)).
      cbn [String.prefix]. destruct (ascii_dec "/" c); [contradiction|].
      change (String c (d ++ "/" ++ name)) with (String c d ++ "/" ++ name).
      now rewrite !string_app_assoc.
Qed.

(** The path a relative [path.join] result resolves to is the
    [path.resolve] result. *)
Lemma absolute_path_join (cwd dir name : string) :
  absolute cwd (path_join dir name) = path_resolve cwd dir name.
Proof. reflexivity. Qed.

Lemma jsonPath_not_atlas (cwd dest name ft : string) :
  jsonPathOf cwd dest name ft <> atlasPathOf cwd dest name ft.
Proof.
  unfold jsonPathOf, atlasPathOf. destruct (path_resolve_prefix cwd dest) as [pre Hpre].
  rewrite !Hpre. intros H.
  do 4 apply append_inv_head in H. discriminate.
Qed.

Lemma pagePath_not_atlas (cwd dest name ft : string) (index : nat) :
  pagePathOf cwd dest name ft index <> atlasPathOf cwd dest name ft.
Proof.
  unfold pagePathOf, atlasPathOf. destruct (path_resolve_prefix cwd dest) as [pre Hpre].
  rewrite !Hpre. intros H.
  do 4 apply append_inv_head in H.
  apply (f_equal String.length) in H.
  change ("." ++ pretty (Z.of_nat index) ++ ".png")
    with (String "." (pretty (Z.of_nat index) ++ ".png")) in H.
  cbn [String.length] in H. rewrite string_length_app in H. cbn in H. lia.
Qed.

Lemma pagePath_not_json (cwd dest name ft : string) (index : nat) :
  pagePathOf cwd dest name ft index <> jsonPathOf cwd dest name ft.
Proof.
  unfold pagePathOf, jsonPathOf. destruct (path_resolve_prefix cwd dest) as [pre Hpre].
  rewrite !Hpre. intros H.
  do 4 apply append_inv_head in H.
  change ("." ++ pretty (Z.of_nat index) ++ ".png")
    with (String "." (pretty (Z.of_nat index) ++ ".png")) in H.
  injection H as H. apply (f_equal String.rev) in H.
  rewrite string_rev_app in H. discriminate.
Qed.

Lemma pagePath_inj (cwd dest name ft : string) (i j : nat) :
  pagePathOf cwd dest name ft i = pagePathOf cwd dest name ft j -> i = j.
Proof.
  unfold pagePathOf. destruct (path_resolve_prefix cwd dest) as [pre Hpre].
  rewrite !Hpre. intros H.
  do 5 apply append_inv_head in H. apply append_inv_tail in H.
  apply (inj pretty) in H. lia.
Qed.

(** The clean-up loop removes every listed path and nothing else. *)
Lemma cleanup_lookup (tempPaths : list string) (fs : FS) (p : string) :
  fold_left (fun acc tempPath =>
               if existsSync acc tempPath then delete tempPath acc else acc)
    tempPaths fs !! p
  = if bool_decide (p ∈ tempPaths) then None else fs !! p.
Proof.
  revert fs. induction tempPaths as [|t rest IH]; intros fs.
  - reflexivity.
  - cbn [fold_left]. rewrite IH.
    assert (Hstep : (if existsSync fs t then delete t fs else fs) = delete t fs).
    { unfold existsSync. destruct (fs !! t) eqn:E.
      - rewrite bool_decide_eq_true_2 by eauto. reflexivity.
      - rewrite bool_decide_eq_false_2 by (intros [? ?]; discriminate).
        symmetry. now apply delete_id. }
    rewrite Hstep.
    destruct (decide (p ∈ rest)) as [Hin|Hnin].
    + rewrite !bool_decide_eq_true_2; [reflexivity|apply elem_of_cons; now right|exact Hin].
    + rewrite (bool_decide_eq_false_2 (p ∈ rest)) by exact Hnin.
      destruct (decide (t = p)) as [->|Hne].
      * rewrite bool_decide_eq_true_2 by (apply elem_of_cons; now left). apply lookup_delete_eq.
      * rewrite bool_decide_eq_false_2.
        -- now apply lookup_delete_ne.
        -- intros [?|?]%elem_of_cons; [congruence|contradiction].
Qed.

Lemma mapM_ext_Forall2 {A B C : Type} (f : A -> option C) (g : B -> option C)
    (l : list A) (k : list B) :
  Forall2 (fun x y => f x = g y) l k -> mapM f l = mapM g k.
Proof.
  induction 1 as [|x y l k Hxy _ IH]; [reflexivity|].
  cbn. rewrite Hxy, IH. reflexivity.
Qed.

Lemma mapM_with_input {A B : Type} (f : A -> option B) (l : list A) :
  mapM (fun x => y ← f x; Some (x, y)) l = (ys ← mapM f l; Some (zip l ys)).
Proof.
  induction l as [|x l IH]; [reflexivity|].
  cbn. destruct (f x) as [y|]; cbn; [|reflexivity].
  rewrite IH. destruct (mapM f l) as [ys|]; reflexivity.
Qed.

(** The page textures of a multi-page run, in the order they are written. *)
Lemma page_writes (cwd dest name ft : string) (textures : list (list Byte.byte)) :
  map fst (imap (fun index texture =>
                   (pagePathOf cwd dest name ft index, PngFile texture)) textures)
  = map (pagePathOf cwd dest name ft) (seq 0 (length textures)).
Proof.
  apply list_eq. intros i.
  rewrite !list_lookup_fmap, list_lookup_imap.
  destruct (textures !! i) as [t|] eqn:Ht; cbn.
  - rewrite lookup_seq_lt by (eapply lookup_lt_Some; eauto). reflexivity.
  - rewrite lookup_seq_ge by (now apply lookup_ge_None). reflexivity.
Qed.

Lemma pagePaths_NoDup (cwd dest name ft : string) (n : nat) :
  NoDup (map (pagePathOf cwd dest name ft) (seq 0 n)).
Proof.
  apply NoDup_fmap_2; [|apply NoDup_seq].
  intros i j. apply pagePath_inj.
Qed.

(** After the textures and the document are written, every page path holds
    its texture. *)
Lemma page_written (cwd dest name ft : string) (textures : list (list Byte.byte))
    (data : FontData) (fs : FS) (i : nat) (t : list Byte.byte) :
  textures !! i = Some t ->
  <[jsonPathOf cwd dest name ft := FontJson data]>
    (commit (imap (fun index texture =>
                     (pagePathOf cwd dest name ft index, PngFile texture)) textures) fs)
  !! pagePathOf cwd dest name ft i = Some (PngFile t).
Proof.
  intros Ht. rewrite lookup_insert_ne by (apply not_eq_sym, pagePath_not_json).
  apply commit_lookup_written.
  - rewrite page_writes. apply pagePaths_NoDup.
  - apply list_elem_of_lookup. exists i.
    rewrite list_lookup_imap, Ht. reflexivity.
Qed.

(** A multi-page run, step by step: the page images are decoded, the atlas
    and the remapped document are written, and the page textures are
    removed. *)
Lemma generateFont_multi_run (generateBMFont : OptionsRasterizer)
    (loadImage : list Byte.byte -> option TextureSize)
    (toBuffer : TextureLayout -> list (list Byte.byte) -> list Byte.byte)
    (fs : FS) (cwd src dest name ft : string) (options : FontOptions)
    (textures : list (list Byte.byte)) (data : FontData) :
  generateBMFont src options = Some (textures, data) ->
  (1 < length textures)%nat ->
  SingleFont.generateFont cwd generateBMFont loadImage toBuffer fs src dest name ft options
  = (sizes ← mapM loadImage textures;
     let stitched := fst (stitchTextures sizes data name ft) in
     let pages := map (pagePathOf cwd dest name ft) (seq 0 (length textures)) in
     Some (fold_left (fun acc tempPath =>
                        if existsSync acc tempPath then delete tempPath acc else acc)
             pages
             (<[jsonPathOf cwd dest name ft := FontJson (snd stitched)]>
                (<[atlasPathOf cwd dest name ft := PngFile (toBuffer (fst stitched) textures)]>
                   (<[jsonPathOf cwd dest name ft := FontJson data]>
                      (commit (imap (fun index texture =>
                                       (pagePathOf cwd dest name ft index, PngFile texture))
                                 textures) fs)))),
           mkStitchOutcome true (Some (atlasPathOf cwd dest name ft)) pages)).
Proof.
  intros Hrast Hmulti. unfold SingleFont.generateFont. rewrite Hrast.
  cbn [mbind option_bind].
  assert (Hm : (1 <? length textures)%nat = true) by now apply Nat.ltb_lt.
  rewrite Hm.
  fold (jsonPathOf cwd dest name ft).
  change (imap _ textures)
    with (imap (fun index texture =>
                  (pagePathOf cwd dest name ft index, PngFile texture)) textures).
  rewrite page_writes.
  set (fs2 := <[jsonPathOf cwd dest name ft := FontJson data]> _).
  unfold SingleFont.stitchTexturesFiles.
  assert (Hread : readFontJson fs2 (jsonPathOf cwd dest name ft) = Some data).
  { unfold readFontJson, fs2. now rewrite lookup_insert_eq. }
  rewrite Hread. cbn [mbind option_bind].
  rewrite (mapM_ext_Forall2 _ (fun t => size ← loadImage t; Some (t, size))
             _ textures).
  - rewrite mapM_with_input.
    destruct (mapM loadImage textures) as [sizes|] eqn:Hsizes;
      cbn [mbind option_bind]; [|reflexivity].
    apply length_mapM in Hsizes.
    rewrite fst_zip, snd_zip by lia. reflexivity.
  - apply Forall2_same_length_lookup_2.
    + now rewrite length_fmap, length_seq.
    + intros i path t Hpath Ht.
      rewrite list_lookup_fmap, lookup_seq_lt in Hpath
        by (eapply lookup_lt_Some; eauto).
      injection Hpath as <-. cbn [Nat.add].
      unfold fs2. now rewrite (page_written _ _ _ _ _ _ _ _ _ Ht).
Qed.

(** A run with at most one texture, step by step: the texture and the
    document are written as the rasterizer gave them. *)
Lemma generateFont_single_run (generateBMFont : OptionsRasterizer)
    (loadImage : list Byte.byte -> option TextureSize)
    (toBuffer : TextureLayout -> list (list Byte.byte) -> list Byte.byte)
    (fs : FS) (cwd src dest name ft : string) (options : FontOptions)
    (textures : list (list Byte.byte)) (data : FontData) :
  generateBMFont src options = Some (textures, data) ->
  (length textures <= 1)%nat ->
  SingleFont.generateFont cwd generateBMFont loadImage toBuffer fs src dest name ft options
  = Some (<[jsonPathOf cwd dest name ft := FontJson data]>
            (commit (map (fun texture => (atlasPathOf cwd dest name ft, PngFile texture))
                       textures) fs),
          mkStitchOutcome false
            (head (map (fun _ => atlasPathOf cwd dest name ft) textures))
            (map (fun _ => atlasPathOf cwd dest name ft) textures)).
Proof.
  intros Hrast Hlen. unfold SingleFont.generateFont. rewrite Hrast.
  cbn [mbind option_bind].
  destruct textures as [|t [|t' rest]]; [reflexivity|reflexivity|].
  cbn [length] in Hlen. lia.
Qed.

(** X24: when the rasterizer returns at most one texture nothing is
    stitched: the document is stored exactly as the rasterizer gave it, the
    only texture is stored under the atlas name, the image codec is not
    consulted, and no other file changes.  The paths are those of
    [path.resolve], so absolute also for a relative destination directory.
    The result lists one original path per texture; with no texture at all
    its pngPath is undefined. *)
Theorem generateFont_one_page (generateBMFont : OptionsRasterizer)
    (loadImage : list Byte.byte -> option TextureSize)
    (toBuffer : TextureLayout -> list (list Byte.byte) -> list Byte.byte)
    (fs : FS) (cwd src dest name ft : string) (options : FontOptions)
    (textures : list (list Byte.byte)) (data : FontData) :
  generateBMFont src options = Some (textures, data) ->
  (length textures <= 1)%nat ->
  exists fs',
    SingleFont.generateFont cwd generateBMFont loadImage toBuffer fs src dest name ft
      options
    = Some (fs', mkStitchOutcome false
                   (if textures is [] then None else Some (atlasPathOf cwd dest name ft))
                   (map (fun _ => atlasPathOf cwd dest name ft) textures)) /\
    readFontJson fs' (jsonPathOf cwd dest name ft) = Some data /\
    (forall texture, textures = [texture] ->
       fs' !! atlasPathOf cwd dest name ft = Some (PngFile texture)) /\
    (textures = [] -> fs' !! atlasPathOf cwd dest name ft = fs !! atlasPathOf cwd dest name ft) /\
    (forall p, p <> jsonPathOf cwd dest name ft -> p <> atlasPathOf cwd dest name ft ->
       fs' !! p = fs !! p).
Proof.
  intros Hrast Hlen.
  rewrite (generateFont_single_run _ _ _ _ _ _ _ _ _ _ _ _ Hrast Hlen).
  eexists. split; [|split; [|split; [|split]]].
  - destruct textures; reflexivity.
  - unfold readFontJson. now rewrite lookup_insert_eq.
  - intros texture ->.
    rewrite lookup_insert_ne by apply jsonPath_not_atlas.
    cbn. apply lookup_insert_eq.
  - intros ->. rewrite lookup_insert_ne by apply jsonPath_not_atlas. reflexivity.
  - intros p Hj Ha. rewrite lookup_insert_ne by congruence.
    apply commit_lookup_other. rewrite map_map. cbn [fst].
    intros Hin. apply list_elem_of_fmap in Hin as [t [-> _]]. congruence.
Qed.

Lemma generateFont_one_page_witness :
  exists fs',
    SingleFont.generateFont "/work" onePageOptionsRasterizer decode256 drawPages ∅
      "font-src/Ubuntu.ttf" "font-dst" "Ubuntu" "msdf" defaultOptions
    = Some (fs', mkStitchOutcome false (Some "/work/font-dst/Ubuntu.msdf.png")
                   ["/work/font-dst/Ubuntu.msdf.png"]) /\
    readFontJson fs' "/work/font-dst/Ubuntu.msdf.json" = Some twoPageDoc /\
    fs' !! "/work/font-dst/Ubuntu.msdf.png" = Some (PngFile [Byte.x01]).
Proof.
  destruct (generateFont_one_page onePageOptionsRasterizer decode256 drawPages ∅
              "/work" "font-src/Ubuntu.ttf" "font-dst" "Ubuntu" "msdf" defaultOptions
              [ [Byte.x01] ] twoPageDoc eq_refl ltac:(cbn; lia))
    as (fs' & Hrun & Hjson & Hpng & _).
  exists fs'. split; [exact Hrun|]. split; [exact Hjson|].
  apply Hpng. reflexivity.
Defined.

(** Every glyph of a stitched document is on page 0. *)
Lemma stitchTextures_page_zero (sizes : list TextureSize) (data : FontData)
    (name ft : string) :
  Forall (fun c => char_page c = 0)
    (fd_chars (snd (fst (stitchTextures sizes data name ft)))).
Proof.
  unfold stitchTextures, bind, console_log, ret. cbn [fst snd].
  set (layout := calculateOptimalLayout _).
  pose proof (updateCharacterCoordinates_chars data layout) as Hchars.
  destruct (updateCharacterCoordinates data layout) as [updated log].
  cbn [fst snd fd_chars] in *. rewrite Hchars.
  apply Forall_fmap, Forall_true. intros c. cbn.
  unfold updateChar. destruct (js_index _ _); reflexivity.
Qed.

(** X25: when the rasterizer returns more than one texture and every page
    image decodes, the run succeeds and reports a stitched atlas under the
    absolute path [path.resolve] gives it.  Afterwards the atlas file holds
    the canvas drawn from the layout of the decoded page sizes, the stored
    document is the remapped one (one page, every glyph on page 0), every
    numbered page texture the run wrote is gone although the result still
    lists it as an original path, and no other file has changed. *)
Theorem generateFont_stitched_run (generateBMFont : OptionsRasterizer)
    (loadImage : list Byte.byte -> option TextureSize)
    (toBuffer : TextureLayout -> list (list Byte.byte) -> list Byte.byte)
    (fs : FS) (cwd src dest name ft : string) (options : FontOptions)
    (textures : list (list Byte.byte)) (data : FontData)
    (sizes : list TextureSize) :
  generateBMFont src options = Some (textures, data) ->
  (1 < length textures)%nat ->
  mapM loadImage textures = Some sizes ->
  let stitched := fst (stitchTextures sizes data name ft) in
  exists fs',
    SingleFont.generateFont cwd generateBMFont loadImage toBuffer fs src dest name ft
      options
    = Some (fs', mkStitchOutcome true (Some (atlasPathOf cwd dest name ft))
                   (map (pagePathOf cwd dest name ft) (seq 0 (length textures)))) /\
    fs' !! atlasPathOf cwd dest name ft
    = Some (PngFile (toBuffer (fst stitched) textures)) /\
    readFontJson fs' (jsonPathOf cwd dest name ft) = Some (snd stitched) /\
    fd_pages (snd stitched) = [name ++ "." ++ ft ++ ".png"] /\
    Forall (fun c => char_page c = 0) (fd_chars (snd stitched)) /\
    (forall index, (index < length textures)%nat ->
       fs' !! pagePathOf cwd dest name ft index = None) /\
    (forall p, p <> jsonPathOf cwd dest name ft -> p <> atlasPathOf cwd dest name ft ->
       (forall index, (index < length textures)%nat ->
          p <> pagePathOf cwd dest name ft index) ->
       fs' !! p = fs !! p).
Proof.
  intros Hrast Hmulti Hsizes stitched.
  rewrite (generateFont_multi_run _ _ _ _ _ _ _ _ _ _ _ _ Hrast Hmulti).
  rewrite Hsizes. cbn [mbind option_bind]. cbn zeta. fold stitched.
  assert (Hpage : forall p,
            p ∈ map (pagePathOf cwd dest name ft) (seq 0 (length textures))
            <-> exists index, (index < length textures)%nat
                              /\ p = pagePathOf cwd dest name ft index).
  { intros p. rewrite list_elem_of_fmap. split.
    - intros [index [-> Hin]]. apply elem_of_seq in Hin. exists index. split; [lia|auto].
    - intros [index [Hlt ->]]. exists index. split; [auto|]. apply elem_of_seq. lia. }
  eexists. split; [reflexivity|].
  split; [|split; [|split; [|split; [|split]]]].
  - rewrite cleanup_lookup. rewrite bool_decide_eq_false_2.
    + rewrite lookup_insert_ne by apply jsonPath_not_atlas. apply lookup_insert_eq.
    + rewrite Hpage. intros [index [_ H]]. symmetry in H.
      now apply pagePath_not_atlas in H.
  - unfold readFontJson. rewrite cleanup_lookup. rewrite bool_decide_eq_false_2.
    + now rewrite lookup_insert_eq.
    + rewrite Hpage. intros [index [_ H]]. symmetry in H.
      now apply pagePath_not_json in H.
  - reflexivity.
  - apply stitchTextures_page_zero.
  - intros index Hlt. rewrite cleanup_lookup. rewrite bool_decide_eq_true_2; [reflexivity|].
    apply Hpage. eauto.
  - intros p Hj Ha Hp. rewrite cleanup_lookup. rewrite bool_decide_eq_false_2.
    + rewrite !lookup_insert_ne by congruence.
      apply commit_lookup_other.
      change (imap _ textures)
        with (imap (fun index texture =>
                      (pagePathOf cwd dest name ft index, PngFile texture)) textures).
      rewrite page_writes, Hpage. intros [index [Hlt ->]]. now apply (Hp index).
    + rewrite Hpage. intros [index [Hlt ->]]. now apply (Hp index).
Qed.

Lemma generateFont_stitched_run_witness :
  exists fs',
    SingleFont.generateFont "/work" twoPageRasterizer decode256 drawPages ∅
      "font-src/Ubuntu.ttf" "font-dst" "Ubuntu" "msdf" defaultOptions
    = Some (fs', mkStitchOutcome true (Some "/work/font-dst/Ubuntu.msdf.png")
                   [ "/work/font-dst/Ubuntu.msdf.0.png";
                     "/work/font-dst/Ubuntu.msdf.1.png" ]) /\
    fs' !! "/work/font-dst/Ubuntu.msdf.png" = Some (PngFile [Byte.x01; Byte.x02]) /\
    fs' !! "/work/font-dst/Ubuntu.msdf.0.png" = None /\
    fs' !! "/work/font-dst/Ubuntu.msdf.1.png" = None.
Proof.
  destruct (generateFont_stitched_run twoPageRasterizer decode256 drawPages ∅
              "/work" "font-src/Ubuntu.ttf" "font-dst" "Ubuntu" "msdf" defaultOptions
              [ [Byte.x01]; [Byte.x02] ] twoPageDoc [page256; page256]
              eq_refl ltac:(cbn; lia) eq_refl)
    as (fs' & Hrun & Hpng & _ & _ & _ & Hgone & _).
  exists fs'. split; [exact Hrun|]. split; [exact Hpng|].
  split; [apply (Hgone 0%nat)|apply (Hgone 1%nat)]; cbn; lia.
Defined.

(** X26: a run rejects exactly when the rasterizer fails, or it returns
    more than one texture and one of the page images cannot be decoded; a
    run with at most one texture never rejects once the rasterizer has
    answered. *)
Theorem generateFont_rejects_iff (generateBMFont : OptionsRasterizer)
    (loadImage : list Byte.byte -> option TextureSize)
    (toBuffer : TextureLayout -> list (list Byte.byte) -> list Byte.byte)
    (fs : FS) (cwd src dest name ft : string) (options : FontOptions) :
  SingleFont.generateFont cwd generateBMFont loadImage toBuffer fs src dest name ft options
  = None
  <-> generateBMFont src options = None
      \/ exists textures data,
           generateBMFont src options = Some (textures, data) /\
           (1 < length textures)%nat /\
           Exists (fun texture => loadImage texture = None) textures.
Proof.
  destruct (generateBMFont src options) as [[textures data]|] eqn:Hrast.
  - destruct (Nat.ltb_spec 1 (length textures)) as [Hmulti|Hsingle].
    + rewrite (generateFont_multi_run _ _ _ _ _ _ _ _ _ _ _ _ Hrast Hmulti).
      destruct (mapM loadImage textures) as [sizes|] eqn:Hsizes; cbn [mbind option_bind].
      * split; [discriminate|]. intros [H|(textures' & data' & [= <- <-] & _ & Hex)].
        -- discriminate.
        -- apply mapM_None in Hex. congruence.
      * split; [|reflexivity]. intros _. right. exists textures, data.
        split; [reflexivity|]. split; [exact Hmulti|]. now apply mapM_None.
    + rewrite (generateFont_single_run _ _ _ _ _ _ _ _ _ _ _ _ Hrast Hsingle).
      split; [discriminate|]. intros [H|(textures' & data' & [= <- <-] & Hlt & _)].
      * discriminate.
      * lia.
  - split; [intros _; now left|]. intros _.
    unfold SingleFont.generateFont. rewrite Hrast. reflexivity.
Qed.

(** X27: when a run answers with a font info, the font name is the file
    name up to its first dot; the font path and the document path are the
    [path.join] of the source and destination directory with the file name
    (relative when the directory is), and the document exists; the atlas
    path (when there is one) is the absolute [path.resolve] of the
    destination directory and the atlas name, and holds an image.  The info
    reports stitching exactly when the rasterizer returned more than one
    texture, it lists one original path per texture, and those paths exist
    afterwards exactly when nothing was stitched. *)
Theorem genFont_info (cwd : string) (prototypeText : string -> string)
    (fontSrcDir fontDstDir : string) (overrides : Overrides)
    (charsetConfig : option CharsetConfig) (presets : gmap string string)
    (generateBMFont : OptionsRasterizer)
    (loadImage : list Byte.byte -> option TextureSize)
    (toBuffer : TextureLayout -> list (list Byte.byte) -> list Byte.byte)
    (fontFileName fieldType : string) (fs fs' : FS) (info : StitchedFontInfo) :
  SingleFont.genFont cwd prototypeText fontSrcDir fontDstDir overrides charsetConfig
    presets generateBMFont loadImage toBuffer fontFileName fieldType fs
  = Some (fs', Some info) ->
  sti_fontName info = splitFirst "." fontFileName /\
  fieldType_str (sti_fieldType info) = fieldType /\
  sti_fontPath info = path_join fontSrcDir fontFileName /\
  sti_jsonPath info
  = path_join fontDstDir (sti_fontName info ++ "." ++ fieldType ++ ".json") /\
  is_Some (readFontJson fs' (absolute cwd (sti_jsonPath info))) /\
  (forall p, sti_pngPath info = Some p ->
     p = path_resolve cwd fontDstDir (sti_fontName info ++ "." ++ fieldType ++ ".png")
     /\ exists image, fs' !! p = Some (PngFile image)) /\
  Forall (fun p => existsSync fs' p = negb (sti_stitched info))
    (sti_originalPngPaths info) /\
  exists textures data,
    generateBMFont (sti_fontPath info)
      (fst (fontOptions prototypeText overrides charsetConfig presets
              (sti_fontName info) (sti_fieldType info)))
    = Some (textures, data) /\
    sti_stitched info = (1 <? length textures)%nat /\
    length (sti_originalPngPaths info) = length textures.
Proof.
  unfold SingleFont.genFont.
  destruct (SingleFont.parseFieldType fieldType) as [ft|] eqn:Hft; [|discriminate].
  assert (Hstr : fieldType_str ft = fieldType).
  { unfold SingleFont.parseFieldType in Hft.
    destruct (String.eqb_spec fieldType "msdf") as [->|_]; [now injection Hft as <-|].
    destruct (String.eqb_spec fieldType "ssdf") as [->|_]; [now injection Hft as <-|].
    discriminate. }
  destruct (existsSync fs _); cbn [negb]; [|discriminate].
  set (name := splitFirst "." fontFileName).
  set (options := fst (fontOptions prototypeText overrides charsetConfig presets name ft)).
  set (src := path_join fontSrcDir fontFileName).
  destruct (generateBMFont src options) as [[textures data]|] eqn:Hrast.
  2:{ unfold SingleFont.generateFont. rewrite Hrast. discriminate. }
  destruct (Nat.ltb_spec 1 (length textures)) as [Hmulti|Hsingle].
  - rewrite (generateFont_multi_run _ _ _ _ _ _ _ _ _ _ _ _ Hrast Hmulti).
    destruct (mapM loadImage textures) as [sizes|]; cbn [mbind option_bind];
      [|discriminate].
    cbn zeta. intros [= <- <-].
    cbn [sti_fontName sti_fieldType sti_jsonPath sti_pngPath sti_originalPngPaths
         sti_stitched sti_fontPath so_stitched so_pngPath so_originalPaths negb].
    assert (Hpage : forall p,
              p ∈ map (pagePathOf cwd fontDstDir name fieldType) (seq 0 (length textures))
              -> exists index, p = pagePathOf cwd fontDstDir name fieldType index).
    { intros p [index [-> _]]%list_elem_of_fmap. eauto. }
    split; [reflexivity|]. split; [exact Hstr|]. split; [reflexivity|].
    split; [reflexivity|].
    split; [|split; [|split]].
    + change (absolute cwd (path_join fontDstDir (name ++ "." ++ fieldType ++ ".json")))
        with (jsonPathOf cwd fontDstDir name fieldType).
      unfold readFontJson. rewrite cleanup_lookup, bool_decide_eq_false_2.
      * rewrite lookup_insert_eq. eauto.
      * intros [index H]%Hpage. symmetry in H. now apply pagePath_not_json in H.
    + intros p [= <-]. split; [reflexivity|].
      rewrite cleanup_lookup, bool_decide_eq_false_2.
      * rewrite lookup_insert_ne by apply jsonPath_not_atlas.
        rewrite lookup_insert_eq. eauto.
      * intros [index H]%Hpage. symmetry in H. now apply pagePath_not_atlas in H.
    + apply Forall_forall. intros p Hp. unfold existsSync.
      rewrite cleanup_lookup, (bool_decide_eq_true_2 (p ∈ _) Hp).
      apply bool_decide_eq_false_2. intros [? ?]. discriminate.
    + exists textures, data. split; [exact Hrast|].
      split; [symmetry; now apply Nat.ltb_lt|].
      now rewrite length_fmap, length_seq.
  - rewrite (generateFont_single_run _ _ _ _ _ _ _ _ _ _ _ _ Hrast Hsingle).
    cbn [mbind option_bind]. intros [= <- <-].
    cbn [sti_fontName sti_fieldType sti_jsonPath sti_pngPath sti_originalPngPaths
         sti_stitched sti_fontPath so_stitched so_pngPath so_originalPaths negb].
    split; [reflexivity|]. split; [exact Hstr|]. split; [reflexivity|].
    split; [reflexivity|].
    change (absolute cwd (path_join fontDstDir (name ++ "." ++ fieldType ++ ".json")))
      with (jsonPathOf cwd fontDstDir name fieldType).
    assert (Hatlas : forall texture rest, textures = texture :: rest ->
              exists image,
                <[jsonPathOf cwd fontDstDir name fieldType := FontJson data]>
                  (commit (map (fun texture =>
                                  (atlasPathOf cwd fontDstDir name fieldType, PngFile texture))
                             textures) fs)
                !! atlasPathOf cwd fontDstDir name fieldType = Some (PngFile image)).
    { intros texture rest ->. destruct rest as [|t' rest]; [|cbn in Hsingle; lia].
      rewrite lookup_insert_ne by apply jsonPath_not_atlas.
      cbn. rewrite lookup_insert_eq. eauto. }
    split; [|split; [|split]].
    + unfold readFontJson. rewrite lookup_insert_eq. eauto.
    + destruct textures as [|texture rest] eqn:Htex; cbn [map head]; [discriminate|].
      intros p [= <-]. split; [reflexivity|]. now apply (Hatlas texture rest).
    + destruct textures as [|texture rest] eqn:Htex; cbn [map]; [constructor|].
      destruct rest as [|t' rest]; [|cbn in Hsingle; lia]. cbn [map].
      constructor; [|constructor]. unfold existsSync. apply bool_decide_eq_true_2.
      destruct (Hatlas texture [] eq_refl) as [image Himage].
      cbn [map] in Himage. rewrite Himage. eauto.
    + exists textures, data. split; [exact Hrast|].
      split; [symmetry; apply Nat.ltb_ge; lia|]. now rewrite length_map.
Qed.

(** A run from the working directory [/work] with the relative directories
    of the entry point: the document path stays relative, the atlas and page
    paths are absolute. *)
Lemma genFont_info_witness :
  exists fs' info,
    SingleFont.genFont "/work" nodePrototypeText "font-src" "font-dst" ∅ None ∅
      twoPageRasterizer decode256 drawPages "Ubuntu.ttf" "msdf" fontSourceFs
    = Some (fs', Some info) /\
    sti_fontName info = "Ubuntu" /\
    sti_jsonPath info = "font-dst/Ubuntu.msdf.json" /\
    (forall p, sti_pngPath info = Some p -> p = "/work/font-dst/Ubuntu.msdf.png") /\
    Forall (fun p => existsSync fs' p = negb (sti_stitched info))
      (sti_originalPngPaths info).
Proof.
  destruct (SingleFont.genFont "/work" nodePrototypeText "font-src" "font-dst" ∅ None ∅
              twoPageRasterizer decode256 drawPages "Ubuntu.ttf" "msdf" fontSourceFs)
    as [[fs' [info|]]|] eqn:Hrun;
    [|vm_compute in Hrun; discriminate Hrun..].
  destruct (genFont_info _ _ _ _ _ _ _ _ _ _ _ _ _ _ _ Hrun)
    as (Hname & _ & _ & Hjson & _ & Hpng & Hall & _).
  exists fs', info. split; [reflexivity|]. split; [exact Hname|].
  split; [rewrite Hjson, Hname; reflexivity|].
  split; [|exact Hall].
  intros p Hp. destruct (Hpng p Hp) as [-> _]. rewrite Hname. reflexivity.
Defined.
